(** * ai-db-studio: connection management and query execution

    A shallow embedding of the main-process core of the application:
    - [src/main/store/crypto.ts]       (envelope encryption),
    - [src/main/store/secure-store.ts] (credential store),
    - [src/main/db/*.ts]               (SQLite, MySQL and MongoDB clients, the client factory),
    - [src/main/connection/manager.ts] (registry of live clients),
    - [src/main/utils/error-handler.ts] and [src/main/ipc/handlers.ts]
      (the CONNECT_DB, RUN_QUERY and DELETE_CONNECTION handlers).

    Conventions of the embedding.
    - A JavaScript string is held as a [string], the sequence of the bytes
      of its UTF-8 text, in which an unpaired surrogate, which UTF-8 proper
      has no place for, is the three bytes ED A0..BF 80..BF that the scheme
      of UTF-8 gives its code point.  A [Buffer] is a [string] too, the
      sequence of its bytes.  [Js.utf8_bytes] is the passage from the one to
      the other that Node makes under the encoding ['utf8'].
    - A function that can throw returns a [result]; a method that mutates its
      object returns the new object beside its result.
    - What Node, the database drivers and the operating system compute is taken
      through type classes ([NodeCrypto], [Unicode], [BetterSqlite3],
      [Mysql2], [MongoDriver], [DatabaseClient]); the laws the proofs rely on
      are stated in classes of their own ([CodecLaws], [CipherLaws],
      [GcmAuthentication], [ScryptKeying], [UnicodeLaws], [StringifyLaws])
      and are met by the reference instances.
    - Timestamps and elapsed times are wall-clock readings; they are left out
      of the responses. *)

From Stdlib Require Import ZArith NArith List String Ascii Bool Lia.
From stdpp Require Import base option strings list gmap pretty.
Import ListNotations.
Open Scope string_scope.
Open Scope nat_scope.
Set Warnings "-register-all".

(** ** JavaScript values, errors and results *)

Inductive jsval : Type :=
| VUndefined
| VNull
| VBool (b : bool)
| VNum (n : Z)
| VStr (s : string)
| VArr (items : list jsval)
| VObj (props : list (string * jsval)).

(** [error.code] is a string for Node and MySQL errors and a number for
    MongoDB server errors. *)
Inductive errcode : Type :=
| CodeStr (s : string)
| CodeNum (n : Z).

Record JsError : Type := mkJsError {
  err_name : string;
  err_message : string;
  err_code : option errcode;
  err_stack : option string
}.

(** [new Error(message)] *)
Definition Error (message : string) : JsError :=
  {| err_name := "Error"; err_message := message; err_code := None; err_stack := None |}.

Inductive result (A : Type) : Type :=
| Ok (a : A)
| Throw (e : JsError).
Arguments Ok {A} a.
Arguments Throw {A} e.

(** JavaScript truthiness, as [||] and [if] read a value. *)
Definition truthy (v : jsval) : bool :=
  match v with
  | VUndefined | VNull => false
  | VBool b => b
  | VNum n => negb (n =? 0)%Z
  | VStr s => negb (String.eqb s "")
  | VArr _ | VObj _ => true
  end.

Definition isArray (v : jsval) : bool :=
  match v with VArr _ => true | _ => false end.

(** ** Numbers *)

(** A JavaScript number, as far as the program reads one: a finite value as
    the fraction [num/den], or one of the three values that are not finite. *)
Inductive jsnumber : Type :=
| Finite (num : Z) (den : positive)
| NaN
| Infinity
| NegInfinity.

(** ** Strings *)

(** What the embedding takes from the Unicode tables of the JavaScript
    engine: [upper_beyond ch] is the upper case, under
    [String.prototype.toUpperCase], of the character whose bytes are [ch],
    for a character outside ASCII that [Js.toUpperCase] below does not list.
    The characters listed there are those whose upper case begins with an
    ASCII letter. *)
Class Unicode : Type := {
  upper_beyond : string -> string
}.

Module Js.

Definition code (c : ascii) : nat := nat_of_ascii c.

(** The string whose bytes are [l]. *)
Definition bytes (l : list nat) : string :=
  string_of_list_ascii (List.map ascii_of_nat l).

(** *** White space

    The characters [trim] strips are the white space and the line terminators
    of ECMAScript: U+0009 to U+000D, U+0020, U+00A0, U+1680, U+2000 to U+200A,
    U+2028, U+2029, U+202F, U+205F, U+3000 and U+FEFF. *)

(** The six of them in ASCII. *)
Definition is_space (c : ascii) : bool :=
  let n := code c in
  ((9 <=? n) && (n <=? 13)) || (n =? 32).

(** U+00A0, the bytes C2 A0. *)
Definition is_space2 (c1 c2 : ascii) : bool :=
  (code c1 =? 194) && (code c2 =? 160).

(** U+1680 (E1 9A 80), U+2000 to U+200A (E2 80 80 to E2 80 8A), U+2028,
    U+2029 and U+202F (E2 80 A8, A9 and AF), U+205F (E2 81 9F), U+3000
    (E3 80 80) and U+FEFF (EF BB BF). *)
Definition is_space3 (c1 c2 c3 : ascii) : bool :=
  let n1 := code c1 in
  let n2 := code c2 in
  let n3 := code c3 in
  ((n1 =? 225) && (n2 =? 154) && (n3 =? 128)) ||
  ((n1 =? 226) && (n2 =? 128) &&
   (((128 <=? n3) && (n3 <=? 138)) || (n3 =? 168) || (n3 =? 169) || (n3 =? 175))) ||
  ((n1 =? 226) && (n2 =? 129) && (n3 =? 159)) ||
  ((n1 =? 227) && (n2 =? 128) && (n3 =? 128)) ||
  ((n1 =? 239) && (n2 =? 187) && (n3 =? 191)).

(** What follows the white-space character that [s] begins with. *)
Definition white_prefix (s : string) : option string :=
  match s with
  | EmptyString => None
  | String c1 r1 =>
      if is_space c1 then Some r1
      else
        match r1 with
        | EmptyString => None
        | String c2 r2 =>
            if is_space2 c1 c2 then Some r2
            else
              match r2 with
              | EmptyString => None
              | String c3 r3 => if is_space3 c1 c2 c3 then Some r3 else None
              end
        end
  end.

Definition is_lower (c : ascii) : bool := (97 <=? code c) && (code c <=? 122).
Definition is_upper (c : ascii) : bool := (65 <=? code c) && (code c <=? 90).
Definition is_digit (c : ascii) : bool := (48 <=? code c) && (code c <=? 57).

(** The class [[a-zA-Z0-9_]] of the interpreter's patterns. *)
Definition is_word (c : ascii) : bool :=
  is_lower c || is_upper c || is_digit c || (code c =? 95).

(** [s.trimStart()] *)
Fixpoint trimStart (s : string) : string :=
  match s with
  | EmptyString => EmptyString
  | String c1 r1 =>
      if is_space c1 then trimStart r1
      else
        match r1 with
        | EmptyString => s
        | String c2 r2 =>
            if is_space2 c1 c2 then trimStart r2
            else
              match r2 with
              | EmptyString => s
              | String c3 r3 => if is_space3 c1 c2 c3 then trimStart r3 else s
              end
        end
  end.

(** [white rest] when nothing is left of [rest], and [kept] otherwise. *)
Definition unless_last (rest kept : string) : string :=
  if String.eqb rest "" then "" else kept.

(** [s.trimEnd()]: a white-space character goes when nothing but white space
    follows it. *)
Fixpoint trimEnd (s : string) : string :=
  match s with
  | EmptyString => EmptyString
  | String c1 r1 =>
      if is_space c1 then unless_last (trimEnd r1) (String c1 (trimEnd r1))
      else
        match r1 with
        | EmptyString => s
        | String c2 r2 =>
            if is_space2 c1 c2
            then unless_last (trimEnd r2) (String c1 (String c2 (trimEnd r2)))
            else
              match r2 with
              | EmptyString => String c1 (trimEnd r1)
              | String c3 r3 =>
                  if is_space3 c1 c2 c3
                  then unless_last (trimEnd r3)
                         (String c1 (String c2 (String c3 (trimEnd r3))))
                  else String c1 (trimEnd r1)
              end
        end
  end.

(** [s.trim()] *)
Definition trim (s : string) : string := trimEnd (trimStart s).

(** *** UTF-8 *)

Definition is_continuation (c : ascii) : bool := (128 <=? code c) && (code c <=? 191).

(** The three bytes ED A0..BF 80..BF that stand for an unpaired surrogate. *)
Definition is_surrogate (c1 c2 c3 : ascii) : bool :=
  (code c1 =? 237) && (160 <=? code c2) && (code c2 <=? 191) && is_continuation c3.

(** U+FFFD, the replacement character. *)
Definition replacement : string := bytes [239; 191; 189].

(** The bytes of [Buffer.from(s, 'utf8')], which a string has wherever Node
    is given it with the encoding ['utf8']: its UTF-8, with U+FFFD in the
    place of every unpaired surrogate. *)
Fixpoint utf8_bytes (s : string) : string :=
  match s with
  | EmptyString => EmptyString
  | String c1 r1 =>
      match r1 with
      | String c2 (String c3 r3) =>
          if is_surrogate c1 c2 c3 then replacement ++ utf8_bytes r3
          else String c1 (utf8_bytes r1)
      | _ => String c1 (utf8_bytes r1)
      end
  end.

(** The second byte that may follow the first byte [c1] of a character of
    two, three or four bytes, in well-formed UTF-8 (Unicode, table 3-7). *)
Definition second_byte (c1 c2 : ascii) : bool :=
  let n1 := code c1 in
  let n2 := code c2 in
  if n1 =? 224 then (160 <=? n2) && (n2 <=? 191)
  else if n1 =? 237 then (128 <=? n2) && (n2 <=? 159)
  else if n1 =? 240 then (144 <=? n2) && (n2 <=? 191)
  else if n1 =? 244 then (128 <=? n2) && (n2 <=? 143)
  else is_continuation c2.

(** [s.isWellFormed()]: the string has no unpaired surrogate, so that its
    bytes are well-formed UTF-8. *)
Fixpoint isWellFormed (s : string) : bool :=
  match s with
  | EmptyString => true
  | String c1 r1 =>
      if code c1 <? 128 then isWellFormed r1
      else
        match r1 with
        | EmptyString => false
        | String c2 r2 =>
            if (194 <=? code c1) && (code c1 <=? 223)
            then is_continuation c2 && isWellFormed r2
            else
              match r2 with
              | EmptyString => false
              | String c3 r3 =>
                  if (224 <=? code c1) && (code c1 <=? 239)
                  then second_byte c1 c2 && is_continuation c3 && isWellFormed r3
                  else
                    match r3 with
                    | EmptyString => false
                    | String c4 r4 =>
                        (240 <=? code c1) && (code c1 <=? 244) && second_byte c1 c2
                        && is_continuation c3 && is_continuation c4 && isWellFormed r4
                    end
              end
        end
  end.

(** *** Code units

    JavaScript counts a string in UTF-16 code units: a character of one,
    two or three bytes is one unit, a character of four bytes is a pair of
    surrogates, two units. *)

(** [s.length] *)
Fixpoint length (s : string) : nat :=
  match s with
  | EmptyString => 0
  | String c1 r1 =>
      if code c1 <? 128 then S (length r1)
      else
        match r1 with
        | EmptyString => 1
        | String c2 r2 =>
            if code c1 <? 224 then S (length r2)
            else
              match r2 with
              | EmptyString => 1
              | String c3 r3 =>
                  if code c1 <? 240 then S (length r3)
                  else
                    match r3 with
                    | EmptyString => 1
                    | String c4 r4 => S (S (length r4))
                    end
              end
        end
  end.

(** The first unit of the character of four bytes [c1 c2 c3 c4], a high
    surrogate, as the string of its three bytes. *)
Definition high_surrogate (c1 c2 c3 c4 : ascii) : string :=
  let b c := N.of_nat (code c) in
  let cp := ((b c1 - 240) * 262144 + (b c2 - 128) * 4096
             + (b c3 - 128) * 64 + (b c4 - 128))%N in
  let unit := (55296 + (cp - 65536) / 1024)%N in
  bytes (List.map N.to_nat [237; 128 + (unit / 64) mod 64; 128 + unit mod 64]%N).

(** [s.substring(0, n)], which can end in the first half of a pair. *)
Fixpoint substring_to (n : nat) (s : string) : string :=
  match n with
  | O => EmptyString
  | S n1 =>
      match s with
      | EmptyString => EmptyString
      | String c1 r1 =>
          if code c1 <? 128 then String c1 (substring_to n1 r1)
          else
            match r1 with
            | EmptyString => s
            | String c2 r2 =>
                if code c1 <? 224 then String c1 (String c2 (substring_to n1 r2))
                else
                  match r2 with
                  | EmptyString => s
                  | String c3 r3 =>
                      if code c1 <? 240
                      then String c1 (String c2 (String c3 (substring_to n1 r3)))
                      else
                        match r3 with
                        | EmptyString => s
                        | String c4 r4 =>
                            match n1 with
                            | O => high_surrogate c1 c2 c3 c4
                            | S n2 =>
                                String c1 (String c2 (String c3 (String c4
                                  (substring_to n2 r4))))
                            end
                        end
                  end
            end
      end
  end.

(** *** Letter case *)

Definition upper_char (c : ascii) : ascii :=
  if is_lower c then ascii_of_nat (code c - 32) else c.

Section WithUnicode.
Context {unicode : Unicode}.

(** The upper case of the character of two bytes [c1 c2]: U+00DF gives SS,
    U+0131 gives I, U+017F gives S, and U+01F0 gives J and U+030C. *)
Definition upper2 (c1 c2 : ascii) : string :=
  let n1 := code c1 in
  let n2 := code c2 in
  if (n1 =? 195) && (n2 =? 159) then "SS"
  else if (n1 =? 196) && (n2 =? 177) then "I"
  else if (n1 =? 197) && (n2 =? 191) then "S"
  else if (n1 =? 199) && (n2 =? 176) then "J" ++ bytes [204; 140]
  else upper_beyond (String c1 (String c2 "")).

(** The upper case of the character of three bytes [c1 c2 c3]: U+1E96 to
    U+1E9A give H and U+0331, T and U+0308, W and U+030A, Y and U+030A, and
    A and U+02BE; U+FB00 to U+FB06 give FF, FI, FL, FFI, FFL, ST and ST. *)
Definition upper3 (c1 c2 c3 : ascii) : string :=
  let n1 := code c1 in
  let n2 := code c2 in
  let n3 := code c3 in
  if (n1 =? 225) && (n2 =? 186) && (n3 =? 150) then "H" ++ bytes [204; 177]
  else if (n1 =? 225) && (n2 =? 186) && (n3 =? 151) then "T" ++ bytes [204; 136]
  else if (n1 =? 225) && (n2 =? 186) && (n3 =? 152) then "W" ++ bytes [204; 138]
  else if (n1 =? 225) && (n2 =? 186) && (n3 =? 153) then "Y" ++ bytes [204; 138]
  else if (n1 =? 225) && (n2 =? 186) && (n3 =? 154) then "A" ++ bytes [202; 190]
  else if (n1 =? 239) && (n2 =? 172) && (n3 =? 128) then "FF"
  else if (n1 =? 239) && (n2 =? 172) && (n3 =? 129) then "FI"
  else if (n1 =? 239) && (n2 =? 172) && (n3 =? 130) then "FL"
  else if (n1 =? 239) && (n2 =? 172) && (n3 =? 131) then "FFI"
  else if (n1 =? 239) && (n2 =? 172) && (n3 =? 132) then "FFL"
  else if (n1 =? 239) && (n2 =? 172) && (n3 =? 133) then "ST"
  else if (n1 =? 239) && (n2 =? 172) && (n3 =? 134) then "ST"
  else upper_beyond (String c1 (String c2 (String c3 ""))).

(** [s.toUpperCase()]: every character is replaced by its upper case, which
    does not depend on its neighbours. The first byte of a character tells
    the number of its bytes. *)
Fixpoint toUpperCase (s : string) : string :=
  match s with
  | EmptyString => EmptyString
  | String c1 r1 =>
      if code c1 <? 128 then String (upper_char c1) (toUpperCase r1)
      else
        match r1 with
        | EmptyString => s
        | String c2 r2 =>
            if code c1 <? 224 then upper2 c1 c2 ++ toUpperCase r2
            else
              match r2 with
              | EmptyString => s
              | String c3 r3 =>
                  if code c1 <? 240 then upper3 c1 c2 c3 ++ toUpperCase r3
                  else
                    match r3 with
                    | EmptyString => s
                    | String c4 r4 =>
                        upper_beyond (String c1 (String c2 (String c3 (String c4 ""))))
                        ++ toUpperCase r4
                    end
              end
        end
  end.

End WithUnicode.

(** [s.startsWith(p)] *)
Fixpoint startsWith (s p : string) : bool :=
  match p, s with
  | EmptyString, _ => true
  | String a p', String b s' => Ascii.eqb a b && startsWith s' p'
  | String _ _, EmptyString => false
  end.

(** [s.includes(sub)] *)
Fixpoint includes (s sub : string) : bool :=
  startsWith s sub ||
  match s with
  | EmptyString => false
  | String _ r => includes r sub
  end.

(** Removes the prefix [p], when [s] starts with it. *)
Fixpoint strip_prefix (p s : string) : option string :=
  match p, s with
  | EmptyString, _ => Some s
  | String a p', String b s' => if Ascii.eqb a b then strip_prefix p' s' else None
  | String _ _, EmptyString => None
  end.

(** Removes the last character when it is [c]. *)
Fixpoint strip_last (c : ascii) (s : string) : option string :=
  match s with
  | EmptyString => None
  | String a EmptyString => if Ascii.eqb a c then Some EmptyString else None
  | String a r => option_map (String a) (strip_last c r)
  end.

(** The longest prefix of word characters, and what follows it. *)
Fixpoint span_word (s : string) : string * string :=
  match s with
  | EmptyString => (EmptyString, EmptyString)
  | String c r =>
      if is_word c then let '(w, rest) := span_word r in (String c w, rest)
      else (EmptyString, s)
  end.

(** *** Arrays *)

(** [n > m], for the length [n] of an array. *)
Definition length_gt (n : nat) (m : jsnumber) : bool :=
  match m with
  | Finite num den => (num <? Z.of_nat n * Z.pos den)%Z
  | NaN => false
  | Infinity => false
  | NegInfinity => true
  end.

(** The index at which [array.splice(start)] cuts an array of [n] elements:
    [start] without its fraction, counted from the end when it is negative,
    and kept within the array. *)
Definition splice_start (n : nat) (start : jsnumber) : nat :=
  match start with
  | Finite num den =>
      let relativeStart := Z.quot num (Z.pos den) in
      if (relativeStart <? 0)%Z
      then Z.to_nat (Z.max (Z.of_nat n + relativeStart) 0)
      else Nat.min (Z.to_nat relativeStart) n
  | NaN => 0
  | Infinity => n
  | NegInfinity => 0
  end.

(** The array that [array.splice(start)] leaves. *)
Definition splice {A} (start : jsnumber) (l : list A) : list A :=
  List.firstn (splice_start (List.length l) start) l.

End Js.

(** ** src/main/store/crypto.ts *)

(** The object [decrypt] parses and [encrypt] serialises: four base64 strings. *)
Record Envelope : Type := mkEnvelope {
  salt : string;
  iv : string;
  authTag : string;
  encrypted : string
}.

(** What crypto.ts takes from Node.
    - [scryptSync password salt keylen], on the bytes of the passphrase;
    - a cipher made by [createCipheriv('aes-256-gcm', key, iv)]:
      [cipher_text key iv text] is the bytes that [update] and [final(_)]
      emit for the bytes [text], [cipher_getAuthTag key iv text] the tag read
      after;
    - a decipher made by [createDecipheriv('aes-256-gcm', key, iv)] and given
      [setAuthTag(tag)]: [decipher_update key iv data] is the text that
      [update(data, _, 'utf8')] hands out, before any check of the tag, and
      [decipher_final key iv tag data] is what [final('utf8')] does: it returns
      the rest of the text, or throws when the tag does not verify (an
      exception of [createDecipheriv] or [setAuthTag] on a malformed [iv] or
      [tag] aborts [decrypt] the same way and is counted here);
    - [createCipheriv] throws on a key that is not of 32 bytes and on an
      empty [iv]. [encrypt] hands it the [KEY_LENGTH] = 32 bytes of
      [scryptSync] and the 12 bytes of [randomBytes], so it does not throw
      there, and [encrypt] below has no such exception; the laws of the
      cipher speak of keys of 32 bytes only.
    - [Buffer.from(_, 'base64')] and [toString('base64')];
    - [JSON.stringify] and [JSON.parse]; [JSON_parse_envelope] is [JSON.parse]
      followed by the reads of [salt], [iv], [authTag] and [encrypted], and
      throws when either does. [JSON_stringify] returns [None] for
      [undefined], as JavaScript does. *)
Class NodeCrypto : Type := {
  scryptSync : string -> string -> nat -> string;
  cipher_text : string -> string -> string -> string;
  cipher_getAuthTag : string -> string -> string -> string;
  decipher_update : string -> string -> string -> string;
  decipher_final : string -> string -> string -> string -> result string;
  base64_encode : string -> string;
  base64_decode : string -> string;
  JSON_stringify_envelope : Envelope -> string;
  JSON_parse_envelope : string -> result Envelope;
  JSON_stringify : jsval -> option string;
  JSON_parse : string -> result jsval
}.

Module Crypto.

Definition ALGORITHM : string := "aes-256-gcm".
Definition KEY_LENGTH : nat := 32.
Definition IV_LENGTH : nat := 12.
(** [randomBytes(16)] *)
Definition SALT_LENGTH : nat := 16.

Section WithNode.
Context {node : NodeCrypto}.

(** [encrypt(text, password)]; [salt] and [iv] are the bytes the two calls of
    [randomBytes] return, [SALT_LENGTH] and [IV_LENGTH] of them. *)
Definition encrypt (text password : string) (salt iv : string) : string :=
  let key := scryptSync (Js.utf8_bytes password) salt KEY_LENGTH in
  let encrypted := base64_encode (cipher_text key iv (Js.utf8_bytes text)) in
  base64_encode
    (JSON_stringify_envelope
       {| salt := base64_encode salt;
          iv := base64_encode iv;
          authTag := base64_encode (cipher_getAuthTag key iv (Js.utf8_bytes text));
          encrypted := encrypted |}).

(** [decrypt(cipherText, password)]. The text [update] released is lost with
    the exception of [final]. *)
Definition decrypt (cipherText password : string) : result string :=
  match JSON_parse_envelope (base64_decode cipherText) with
  | Throw e => Throw e
  | Ok data =>
      let salt := base64_decode (salt data) in
      let iv := base64_decode (iv data) in
      let authTag := base64_decode (authTag data) in
      let key := scryptSync (Js.utf8_bytes password) salt KEY_LENGTH in
      let head := decipher_update key iv (base64_decode (encrypted data)) in
      match decipher_final key iv authTag (base64_decode (encrypted data)) with
      | Throw e => Throw e
      | Ok tail => Ok (head ++ tail)
      end
  end.

End WithNode.
End Crypto.

(** The contract of Node's primitives, as far as the proofs use it. *)

(** [Buffer] and [JSON] decode what they encoded. *)
Class CodecLaws (node : NodeCrypto) : Prop := {
  base64_decode_encode : forall b, base64_decode (base64_encode b) = b;
  JSON_parse_stringify_envelope :
    forall env, JSON_parse_envelope (JSON_stringify_envelope env) = Ok env
}.

(** [scryptSync] returns [keylen] bytes, and AES-256-GCM is correct under a
    key of 32 bytes, the only length [createCipheriv('aes-256-gcm', _, _)]
    takes, and a nonce of 12 bytes: the decipher given the output and the tag
    of the cipher accepts, and the text it hands out under the encoding
    ['utf8'] is the bytes that were enciphered, when these are well-formed
    UTF-8. *)
Class CipherLaws (node : NodeCrypto) : Prop := {
  scryptSync_length :
    forall password salt keylen, String.length (scryptSync password salt keylen) = keylen;
  gcm_decipher_cipher :
    forall key iv text,
      String.length key = 32 ->
      String.length iv = 12 ->
      Js.isWellFormed text = true ->
      exists tail,
        decipher_final key iv (cipher_getAuthTag key iv text) (cipher_text key iv text) = Ok tail /\
        decipher_update key iv (cipher_text key iv text) ++ tail = text
}.

(** The authentication of AES-256-GCM, taken as exact: under a key other
    than the one that enciphered, the tag does not verify and [final] throws.
    (A tag of 16 bytes made under one key verifies under another with a
    probability of about 2^-128; the law leaves that chance out.) *)
Class GcmAuthentication (node : NodeCrypto) : Prop := {
  gcm_rejects_other_key :
    forall key key' iv text,
      String.length key = 32 ->
      String.length key' = 32 ->
      String.length iv = 12 ->
      key' <> key ->
      exists e,
        decipher_final key' iv (cipher_getAuthTag key iv text) (cipher_text key iv text)
          = Throw e
}.

(** scrypt keys PBKDF2-HMAC-SHA256 with the passphrase (RFC 7914, section 6),
    and HMAC pads a key shorter than its 64-byte block with zero bytes
    (RFC 2104, section 2): a passphrase shorter than 64 bytes and the same
    passphrase followed by a NUL character derive the same key. *)
Class ScryptKeying (node : NodeCrypto) : Prop := {
  scryptSync_hmac_key_padding :
    forall password salt keylen,
      String.length password < 64 ->
      scryptSync (password ++ String "000"%char "") salt keylen = scryptSync password salt keylen
}.

(** The UTF-8 of a code point of the basic plane. *)
Definition utf8 (cp : N) : string :=
  Js.bytes
    (List.map N.to_nat
       (if cp <? 128 then [cp]
        else if cp <? 2048 then [192 + cp / 64; 128 + cp mod 64]
        else [224 + cp / 4096; 128 + (cp / 64) mod 64; 128 + cp mod 64])%N).

(** The characters outside ASCII whose upper case begins with an ASCII
    letter, each with its upper case (Unicode, SpecialCasing.txt and
    UnicodeData.txt): U+00DF, U+0131, U+017F, U+01F0, U+1E96 to U+1E9A and
    U+FB00 to U+FB06. *)
Definition spellings : list (string * string) :=
  Eval vm_compute in
  [ (utf8 223, "SS"); (utf8 305, "I"); (utf8 383, "S"); (utf8 496, "J" ++ utf8 780);
    (utf8 7830, "H" ++ utf8 817); (utf8 7831, "T" ++ utf8 776);
    (utf8 7832, "W" ++ utf8 778); (utf8 7833, "Y" ++ utf8 778);
    (utf8 7834, "A" ++ utf8 702);
    (utf8 64256, "FF"); (utf8 64257, "FI"); (utf8 64258, "FL"); (utf8 64259, "FFI");
    (utf8 64260, "FFL"); (utf8 64261, "ST"); (utf8 64262, "ST") ]%N.

(** The upper case of every other character outside ASCII does not begin
    with an ASCII character. *)
Class UnicodeLaws (unicode : Unicode) : Prop := {
  upper_beyond_lead :
    forall c r,
      128 <= Js.code c ->
      (forall up, ~ In (String c r, up) spellings) ->
      exists b r', upper_beyond (String c r) = String b r' /\ 128 <= Js.code b
}.

(** [JSON.stringify] returns a string for every value but [undefined]. *)
Class StringifyLaws (node : NodeCrypto) : Prop := {
  JSON_stringify_defined :
    forall v, v <> VUndefined -> exists text, JSON_stringify v = Some text
}.

(** ** src/main/types/index.ts *)

(** [DbType]: the enum's members are these strings; a value that arrives over
    IPC or from an imported file can be any string. *)
Definition POSTGRESQL : string := "postgresql".
Definition MONGODB : string := "mongodb".
Definition MYSQL : string := "mysql".
Definition SQLITE3 : string := "sqlite3".

(** [ConnectionConfig]: an optional property is [None] when it is absent. The
    engine payloads are kept as the JavaScript values they are. *)
Record ConnectionConfig : Type := mkConnectionConfig {
  cfg_id : string;
  cfg_name : string;
  cfg_type : string;
  cfg_postgresql : option jsval;
  cfg_mongodb : option jsval;
  cfg_mysql : option jsval;
  cfg_sqlite3 : option jsval
}.

Record StoredConnection : Type := mkStoredConnection {
  sc_id : string;
  sc_name : string;
  sc_type : string;
  sc_encryptedConfig : string
}.

(** Reading an optional property: [undefined] when absent. *)
Definition prop (o : option jsval) : jsval :=
  match o with Some v => v | None => VUndefined end.

(** ** src/main/store/secure-store.ts *)

Module SecureStore.

(** The value kept under the key ['connections'] of the electron-store. *)
Definition Store : Type := list StoredConnection.

Definition getAllConnections (store : Store) : list StoredConnection := store.

Definition storeConnections (connections : list StoredConnection) (store : Store) : Store :=
  connections.

(** The inner function [getConfig] of [saveEncryptedConnection]. *)
Definition getConfig (config : ConnectionConfig) (dbType : string) : jsval :=
  if String.eqb dbType POSTGRESQL then prop (cfg_postgresql config)
  else if String.eqb dbType MONGODB then prop (cfg_mongodb config)
  else if String.eqb dbType MYSQL then prop (cfg_mysql config)
  else if String.eqb dbType SQLITE3 then prop (cfg_sqlite3 config)
  else VNull.

(** What [cipher.update] throws when [JSON.stringify] returned [undefined]. *)
Definition invalid_data_argument : JsError :=
  {| err_name := "TypeError";
     err_message :=
       "The " ++ String (ascii_of_nat 34) "data" ++ String (ascii_of_nat 34)
       " argument must be of type string or an instance of Buffer, TypedArray, or DataView. Received undefined";
     err_code := Some (CodeStr "ERR_INVALID_ARG_TYPE");
     err_stack := None |}.

Section WithNode.
Context {node : NodeCrypto}.

(** [saveEncryptedConnection(config, encryptionKey)]; [salt] and [iv] are the
    random bytes [encrypt] draws. *)
Definition saveEncryptedConnection (config : ConnectionConfig) (encryptionKey : string)
    (salt iv : string) (store : Store) : result Store :=
  let obj := getConfig config (cfg_type config) in
  match JSON_stringify obj with
  | None => Throw invalid_data_argument
  | Some text =>
      let encrypted := Crypto.encrypt text encryptionKey salt iv in
      let newConnection :=
        {| sc_id := cfg_id config;
           sc_name := cfg_name config;
           sc_type := cfg_type config;
           sc_encryptedConfig := encrypted |} in
      Ok (getAllConnections store ++ [newConnection])%list
  end.

(** The properties of a [StoredConnection]. *)
Definition own_property (name : string) : bool :=
  List.existsb (String.eqb name) ["id"; "name"; "type"; "encryptedConfig"].

(** [{ ...connection, [connection.type]: payload }], read as a
    [ConnectionConfig]: the payload is the property named by the stored
    type. For a stored type that is an [own_property] of the record the
    source writes the payload over that property, which a
    [ConnectionConfig] cannot hold; the theorems that speak of the fields of
    the configuration returned take such a type out. *)
Definition with_payload (connection : StoredConnection) (payload : jsval) : ConnectionConfig :=
  let named t := String.eqb (sc_type connection) t in
  {| cfg_id := sc_id connection;
     cfg_name := sc_name connection;
     cfg_type := sc_type connection;
     cfg_postgresql := if named POSTGRESQL then Some payload else None;
     cfg_mongodb := if named MONGODB then Some payload else None;
     cfg_mysql := if named MYSQL then Some payload else None;
     cfg_sqlite3 := if named SQLITE3 then Some payload else None |}.

Definition getDecryptedConnection (id encryptionKey : string) (store : Store)
    : result ConnectionConfig :=
  match List.find (fun conn => String.eqb (sc_id conn) id) (getAllConnections store) with
  | None => Throw (Error ("Connection not found: " ++ id))
  | Some connection =>
      let failed := Throw (Error "Failed to decrypt configuration. Wrong encryption key?") in
      match Crypto.decrypt (sc_encryptedConfig connection) encryptionKey with
      | Throw _ => failed
      | Ok text =>
          match JSON_parse text with
          | Throw _ => failed
          | Ok payload => Ok (with_payload connection payload)
          end
      end
  end.

End WithNode.

Definition deleteConnection (id : string) (store : Store) : Store :=
  List.filter (fun conn => negb (String.eqb (sc_id conn) id)) (getAllConnections store).

Definition updateEncryptedConnection (id name : string) (store : Store) : Store :=
  List.map
    (fun conn =>
       if String.eqb (sc_id conn) id
       then {| sc_id := sc_id conn; sc_name := name; sc_type := sc_type conn;
               sc_encryptedConfig := sc_encryptedConfig conn |}
       else conn)
    (getAllConnections store).

End SecureStore.

(** Reading the property [k] of a JavaScript value: [undefined] when it has none. *)
Fixpoint lookup_prop (k : string) (props : list (string * jsval)) : jsval :=
  match props with
  | [] => VUndefined
  | (k', v) :: rest => if String.eqb k' k then v else lookup_prop k rest
  end.

Definition get_prop (v : jsval) (k : string) : jsval :=
  match v with
  | VObj props => lookup_prop k props
  | _ => VUndefined
  end.

(** [a || b] *)
Definition or_else (a b : jsval) : jsval := if truthy a then a else b.

(** ** src/main/db/sqlite.ts *)

Record SQLiteConfig : Type := mkSQLiteConfig {
  filePath : string;
  readonly : option bool
}.

(** The [info] object [stmt.run()] returns. *)
Record RunResult : Type := mkRunResult {
  changes : Z;
  lastInsertRowid : Z
}.

(** What sqlite.ts takes from better-sqlite3 and [fs]. A [Database] value is
    the open handle together with the state of the file behind it, so a call
    returns the handle it leaves.
    - [ensure_directory path]: [dirname], [existsSync] and [mkdirSync];
    - [Database_new path readonly]: [new Database(path, options)];
    - [db_pragma]: [db.pragma(source)]; [db_close]: [db.close()];
    - [stmt_all db q]: [db.prepare(q).all()], [stmt_run db q]: [db.prepare(q).run()];
    - [introspect db]: the [try] block of [getSchemaVisualization] (the query
      of [sqlite_master], [table_info] and [foreign_key_list] for each table,
      and the sorted list of tables built from them). *)
Class BetterSqlite3 : Type := {
  Database : Type;
  ensure_directory : string -> result unit;
  Database_new : string -> bool -> result Database;
  db_pragma : Database -> string -> result unit * Database;
  db_close : Database -> result unit;
  stmt_all : Database -> string -> result (list jsval) * Database;
  stmt_run : Database -> string -> result RunResult * Database;
  introspect : Database -> result (list jsval) * Database
}.

Module SQLite.
Section WithDriver.
Context {unicode : Unicode} {driver : BetterSqlite3}.

(** The object: its [config] and the private field [db]. *)
Record SQLite : Type := mkSQLite {
  config : SQLiteConfig;
  db : option Database
}.

(** [new SQLite(config)] *)
Definition new (config : SQLiteConfig) : SQLite := {| config := config; db := None |}.

Definition set_db (c : SQLite) (h : option Database) : SQLite :=
  {| config := config c; db := h |}.

Definition connect_pragmas : list string :=
  [ "journal_mode = WAL"; "synchronous = NORMAL"; "cache_size = 1000000";
    "foreign_keys = true"; "temp_store = memory" ].

Fixpoint run_pragmas (h : Database) (sources : list string) : result unit * Database :=
  match sources with
  | [] => (Ok tt, h)
  | source :: rest =>
      match db_pragma h source with
      | (Throw e, h') => (Throw e, h')
      | (Ok _, h') => run_pragmas h' rest
      end
  end.

Definition connection_failed (e : JsError) : JsError :=
  Error ("SQLite connection failed: " ++ err_message e).

(** [connect()]: [this.db] is assigned as soon as the file is open, before the
    pragmas run. *)
Definition connect (c : SQLite) : result unit * SQLite :=
  match ensure_directory (filePath (config c)) with
  | Throw e => (Throw (connection_failed e), c)
  | Ok _ =>
      match Database_new (filePath (config c)) (default false (readonly (config c))) with
      | Throw e => (Throw (connection_failed e), c)
      | Ok h =>
          match run_pragmas h connect_pragmas with
          | (Throw e, h') => (Throw (connection_failed e), set_db c (Some h'))
          | (Ok _, h') => (Ok tt, set_db c (Some h'))
          end
      end
  end.

(** [disconnect()] *)
Definition disconnect (c : SQLite) : result unit * SQLite :=
  match db c with
  | Some h =>
      match db_close h with
      | Throw e => (Throw e, c)
      | Ok _ => (Ok tt, set_db c None)
      end
  | None => (Ok tt, c)
  end.

Definition not_established : JsError := Error "SQLite connection not established".

Definition getSchemaVisualization (c : SQLite) : result (list jsval) * SQLite :=
  match db c with
  | None => (Throw not_established, c)
  | Some h =>
      let '(r, h') := introspect h in (r, set_db c (Some h'))
  end.

(** The condition of the [if] of [executeQuery]. *)
Definition returns_rows (query : string) : bool :=
  let trimmedQuery := Js.toUpperCase (Js.trim query) in
  Js.startsWith trimmedQuery "SELECT" ||
  Js.startsWith trimmedQuery "WITH" ||
  Js.startsWith trimmedQuery "PRAGMA".

(** The row made for a statement that is run. *)
Definition summary_row (info : RunResult) : jsval :=
  VObj [ ("changes", VNum (changes info));
         ("lastInsertRowid", VNum (lastInsertRowid info));
         ("message",
          VStr ("Query executed successfully. " ++ pretty (changes info) ++ " row(s) affected.")) ].

Definition executeQuery (query : string) (c : SQLite) : result (list jsval) * SQLite :=
  match db c with
  | None => (Throw not_established, c)
  | Some h =>
      if returns_rows query then
        let '(r, h') := stmt_all h query in (r, set_db c (Some h'))
      else
        let '(r, h') := stmt_run h query in
        (match r with
         | Ok result => Ok [summary_row result]
         | Throw e => Throw e
         end, set_db c (Some h'))
  end.

End WithDriver.
End SQLite.

(** ** src/main/db/mysql.ts *)

Record MySQLConfig : Type := mkMySQLConfig {
  host : string;
  port : Z;
  user : string;
  password : string;
  database : string;
  ssl : option bool
}.

(** What mysql.ts takes from mysql2/promise. A [Connection] value is the
    connection together with the state of the server behind it.
    - [createConnection config]: with the 10 s [connectTimeout];
    - [conn_ping], [conn_end], [conn_execute]: [ping()], [end()] and the first
      component of what [execute(query)] resolves to;
    - [conn_introspect c database]: the two catalogue queries of
      [getSchemaVisualization] and the sorted list of tables built from them. *)
Class Mysql2 : Type := {
  Connection : Type;
  createConnection : MySQLConfig -> result Connection;
  conn_ping : Connection -> result unit * Connection;
  conn_end : Connection -> result unit;
  conn_execute : Connection -> string -> result jsval * Connection;
  conn_introspect : Connection -> string -> result (list jsval) * Connection
}.

Module MySQL.
Section WithDriver.
Context {driver : Mysql2}.

Record MySQL : Type := mkMySQL {
  config : MySQLConfig;
  connection : option Connection
}.

(** [new MySQL(config)] *)
Definition new (config : MySQLConfig) : MySQL := {| config := config; connection := None |}.

Definition set_connection (c : MySQL) (h : option Connection) : MySQL :=
  {| config := config c; connection := h |}.

Definition connection_failed (e : JsError) : JsError :=
  Error ("MySQL connection failed: " ++ err_message e).

(** [connect()]: [this.connection] is assigned before the ping. *)
Definition connect (c : MySQL) : result unit * MySQL :=
  match createConnection (config c) with
  | Throw e => (Throw (connection_failed e), c)
  | Ok h =>
      match conn_ping h with
      | (Throw e, h') => (Throw (connection_failed e), set_connection c (Some h'))
      | (Ok _, h') => (Ok tt, set_connection c (Some h'))
      end
  end.

(** [disconnect()]: the field is cleared after [end()] resolved. *)
Definition disconnect (c : MySQL) : result unit * MySQL :=
  match connection c with
  | Some h =>
      match conn_end h with
      | Throw e => (Throw e, c)
      | Ok _ => (Ok tt, set_connection c None)
      end
  | None => (Ok tt, c)
  end.

Definition not_established : JsError := Error "MySQL connection not established".

Definition getSchemaVisualization (c : MySQL) : result (list jsval) * MySQL :=
  match connection c with
  | None => (Throw not_established, c)
  | Some h =>
      let '(r, h') := conn_introspect h (database (config c)) in
      (r, set_connection c (Some h'))
  end.

(** The row made from a [ResultSetHeader]. *)
Definition summary_row (rows : jsval) : jsval :=
  VObj [ ("affectedRows", get_prop rows "affectedRows");
         ("insertId", get_prop rows "insertId");
         ("changedRows", or_else (get_prop rows "changedRows") (VNum 0));
         ("message", or_else (get_prop rows "info") (VStr "Query executed successfully")) ].

Definition executeQuery (query : string) (c : MySQL) : result (list jsval) * MySQL :=
  match connection c with
  | None => (Throw not_established, c)
  | Some h =>
      let '(r, h') := conn_execute h query in
      (match r with
       | Throw e => Throw e
       | Ok (VArr rows) => Ok rows
       | Ok rows => Ok [summary_row rows]
       end, set_connection c (Some h'))
  end.

End WithDriver.
End MySQL.

(** ** src/main/db/mongodb/client.ts *)

(** What [executeQuery] asks of the driver, in order. *)
Inductive MongoCall : Type :=
| CallCollection (name : string)
| CallFind (name : string) (filter : jsval)
| CallAggregate (name : string) (pipeline : jsval).

(** What the interpreter takes from the MongoDB driver and from JavaScript.
    - [eval_params text]: [new Function(`return ${text}`)()];
    - [coll_find name filter]: [collection.find(filter).toArray()];
    - [coll_aggregate name pipeline]: [collection.aggregate(pipeline).toArray()]. *)
Class MongoDriver : Type := {
  eval_params : string -> result jsval;
  coll_find : string -> jsval -> result (list jsval);
  coll_aggregate : string -> jsval -> result (list jsval)
}.

Module Mongodb.

(** The first pattern of [executeQuery], anchored at both ends: [db.], a
    name, [.find(], any text (lazy), a closing parenthesis. It yields the
    collection and the text between the parentheses. After [db.] the name is
    the whole run of word characters, since a dot must follow it; the closing
    parenthesis is the last character of the input, since the pattern ends
    there. *)
Definition match_find (s : string) : option (string * string) :=
  match Js.strip_prefix "db." s with
  | None => None
  | Some rest =>
      let '(collectionName, rest) := Js.span_word rest in
      if String.eqb collectionName "" then None
      else
        match Js.strip_prefix ".find(" rest with
        | None => None
        | Some rest =>
            match Js.strip_last ")" rest with
            | None => None
            | Some paramsStr => Some (collectionName, paramsStr)
            end
        end
  end.

(** The second pattern of [executeQuery], anchored at both ends: [db.], a
    name, a dot, a name, an opening parenthesis, any text (greedy), a closing
    parenthesis. It yields the collection, the method and the text between
    the parentheses. *)
Definition match_collection (s : string) : option (string * string * string) :=
  match Js.strip_prefix "db." s with
  | None => None
  | Some rest =>
      let '(collectionName, rest) := Js.span_word rest in
      if String.eqb collectionName "" then None
      else
        match Js.strip_prefix "." rest with
        | None => None
        | Some rest =>
            let '(operation, rest) := Js.span_word rest in
            if String.eqb operation "" then None
            else
              match Js.strip_prefix "(" rest with
              | None => None
              | Some rest =>
                  match Js.strip_last ")" rest with
                  | None => None
                  | Some paramsStr => Some (collectionName, operation, paramsStr)
                  end
              end
        end
  end.

Definition invalid_format : JsError :=
  Error "Invalid MongoDB query format. Supported operations: find, aggregate".

(** The [if]/[else if]/[else] that picks the collection, the operation and the
    parameter text, or throws. *)
Definition parse_query (query : string) : result (string * string * string) :=
  let findMatch := match_find (Js.trim query) in
  let collectionMatch := match_collection (Js.trim query) in
  match findMatch with
  | Some (collectionName, paramsStr) => Ok (collectionName, "find", paramsStr)
  | None =>
      match collectionMatch with
      | Some (collectionName, operation, paramsStr) =>
          if String.eqb operation "aggregate"
          then Ok (collectionName, operation, paramsStr)
          else Throw invalid_format
      | None => Throw invalid_format
      end
  end.

Section WithDriver.
Context {driver : MongoDriver}.

(** [executeQuery(query)], with the calls made on the driver. *)
Definition executeQuery (query : string) : result (list jsval) * list MongoCall :=
  match parse_query query with
  | Throw e => (Throw e, [])
  | Ok (collectionName, operation, paramsStr) =>
      let opened := [CallCollection collectionName] in
      let parsed :=
        if negb (String.eqb paramsStr "") && negb (String.eqb (Js.trim paramsStr) "")
        then
          match eval_params paramsStr with
          | Throw e => Throw (Error ("Invalid parameters syntax: " ++ err_message e))
          | Ok v => Ok v
          end
        else Ok VUndefined in
      match parsed with
      | Throw e => (Throw e, opened)
      | Ok params =>
          if String.eqb operation "find" then
            let filter := or_else params (VObj []) in
            (coll_find collectionName filter,
             (opened ++ [CallFind collectionName filter])%list)
          else if String.eqb operation "aggregate" then
            let pipeline := if isArray params then params else VArr [params] in
            (coll_aggregate collectionName pipeline,
             (opened ++ [CallAggregate collectionName pipeline])%list)
          else (Ok [], opened)
      end
  end.

End WithDriver.
End Mongodb.

(** ** src/main/db/index.ts *)

(** The interface [DatabaseClient], with the constructors of the four classes
    that implement it. A client value is the object together with the state of
    the database behind it, so a method returns the client it leaves. *)
Class DatabaseClient (C : Type) : Type := {
  new_Postgresql : jsval -> result C;
  new_Mongodb : jsval -> result C;
  new_MySQL : jsval -> result C;
  new_SQLite : jsval -> result C;
  client_connect : C -> result unit * C;
  client_disconnect : C -> result unit * C;
  client_getSchemaVisualization : C -> result jsval * C;
  client_executeQuery : string -> C -> result jsval * C
}.

Module Db.

(** [createDatabaseClient(config)] *)
Definition createDatabaseClient {C} `{DatabaseClient C} (config : ConnectionConfig) : result C :=
  if String.eqb (cfg_type config) POSTGRESQL then new_Postgresql (prop (cfg_postgresql config))
  else if String.eqb (cfg_type config) MONGODB then new_Mongodb (prop (cfg_mongodb config))
  else if String.eqb (cfg_type config) MYSQL then new_MySQL (prop (cfg_mysql config))
  else if String.eqb (cfg_type config) SQLITE3 then new_SQLite (prop (cfg_sqlite3 config))
  else Throw (Error ("Unsupported database type: " ++ cfg_type config)).

End Db.

(** ** src/main/utils/error-handler.ts *)

Module ErrorHandler.

Inductive ErrorType : Type :=
| CONNECTION_ERROR
| QUERY_ERROR
| AUTHENTICATION_ERROR
| TIMEOUT_ERROR
| NETWORK_ERROR
| FILE_ERROR
| VALIDATION_ERROR
| ENCRYPTION_ERROR
| DATABASE_ERROR
| EXPORT_ERROR
| IMPORT_ERROR
| UNKNOWN_ERROR.

Definition ErrorContext : Type := list (string * jsval).

Record AppError : Type := mkAppError {
  type : ErrorType;
  message : string;
  details : option string;
  code : option errcode;
  retryable : bool;
  context : option ErrorContext
}.

Definition createError (type : ErrorType) (message : string) (details : option string)
    (code : option errcode) (retryable : bool) (context : option ErrorContext) : AppError :=
  {| type := type; message := message; details := details; code := code;
     retryable := retryable; context := context |}.

(** [error.code === s] *)
Definition code_is (error : JsError) (s : string) : bool :=
  match err_code error with
  | Some (CodeStr c) => String.eqb c s
  | _ => false
  end.

(** [a || b] on strings. *)
Definition nonempty_or (a b : string) : string := if String.eqb a "" then b else a.

(** What calling [startsWith] on a number throws. *)
Definition not_a_function : JsError :=
  {| err_name := "TypeError";
     err_message := "error.code.startsWith is not a function";
     err_code := None; err_stack := None |}.

Definition handleDatabaseError (error : JsError) (context : option ErrorContext) : result AppError :=
  let msg := Some (err_message error) in
  if code_is error "ER_ACCESS_DENIED_ERROR" || code_is error "ER_DBACCESS_DENIED_ERROR" then
    Ok (createError AUTHENTICATION_ERROR
          "Database access denied. Please check your credentials."
          msg (err_code error) false context)
  else if code_is error "ER_BAD_DB_ERROR" then
    Ok (createError DATABASE_ERROR "Database does not exist or is not accessible."
          msg (err_code error) false context)
  else if code_is error "ECONNREFUSED" || code_is error "ENOTFOUND" || code_is error "ETIMEDOUT" then
    Ok (createError CONNECTION_ERROR
          "Cannot connect to database server. Please check your connection settings."
          msg (err_code error) true context)
  else if code_is error "ER_PARSE_ERROR" || code_is error "ER_SYNTAX_ERROR" then
    Ok (createError QUERY_ERROR "SQL syntax error in your query."
          msg (err_code error) false context)
  else
    (* [error.code && error.code.startsWith('28')] *)
    let postgres :=
      match err_code error with
      | Some (CodeStr c) => Ok (Js.startsWith c "28")
      | Some (CodeNum n) => if (n =? 0)%Z then Ok false else Throw not_a_function
      | None => Ok false
      end in
    match postgres with
    | Throw e => Throw e
    | Ok true =>
        Ok (createError AUTHENTICATION_ERROR
              "PostgreSQL authentication failed. Please check your credentials."
              msg (err_code error) false context)
    | Ok false =>
        if Js.includes (err_message error) "SQLITE_"
           && Js.includes (err_message error) "SQLITE_CANTOPEN" then
          Ok (createError FILE_ERROR
                "Cannot open SQLite database file. Please check the file path and permissions."
                msg (Some (CodeStr "SQLITE_CANTOPEN")) false context)
        else if Js.includes (err_message error) "SQLITE_"
                && Js.includes (err_message error) "SQLITE_LOCKED" then
          Ok (createError DATABASE_ERROR "Database is locked. Please try again later."
                msg (Some (CodeStr "SQLITE_LOCKED")) true context)
        else if String.eqb (err_name error) "MongoServerError"
                && match err_code error with Some (CodeNum 18) => true | _ => false end then
          Ok (createError AUTHENTICATION_ERROR
                "MongoDB authentication failed. Please check your credentials."
                msg (Some (CodeStr "18")) false context)
        else if Js.includes (err_message error) "timeout" || code_is error "ETIMEDOUT" then
          Ok (createError TIMEOUT_ERROR
                "Connection timeout. Please check your network connection."
                msg (err_code error) true context)
        else if Js.includes (err_message error) "connect" || code_is error "ECONNREFUSED" then
          Ok (createError CONNECTION_ERROR
                "Failed to connect to database. Please check your connection settings."
                msg (err_code error) true context)
        else
          Ok (createError DATABASE_ERROR
                (nonempty_or (err_message error) "An unexpected database error occurred.")
                (err_stack error) (err_code error) false context)
    end.

Definition handleEncryptionError (error : JsError) (context : option ErrorContext) : AppError :=
  createError ENCRYPTION_ERROR
    "Failed to encrypt/decrypt data. Please check your encryption key."
    (Some (err_message error)) (err_code error) false context.

Definition handleUnknownError (error : JsError) (context : option ErrorContext) : AppError :=
  createError UNKNOWN_ERROR
    (nonempty_or (err_message error) "An unexpected error occurred.")
    (err_stack error) (err_code error) false context.

(** The uniform response of a handler. *)
Inductive Response : Type :=
| Success (data : list (string * jsval)) (message : option string)
| Failure (error : string) (errorType : ErrorType) (errorCode : option errcode)
          (retryable : bool) (details : option string).

Definition formatErrorResponse (error : AppError) : Response :=
  Failure (message error) (type error) (code error) (retryable error) (details error).

Definition formatSuccessResponse (data : list (string * jsval)) (message : option string)
    : Response :=
  Success data message.

Definition handleValidationError (message : string) (details : option string)
    (context : option ErrorContext) : AppError :=
  createError VALIDATION_ERROR message details None false context.

End ErrorHandler.

(** ** src/main/connection/manager.ts *)

(** [ClientInstance]; [lastUsed], a reading of the clock, is left out. *)
Record ClientInstance (C : Type) : Type := mkClientInstance {
  ci_type : string;
  ci_client : C;
  ci_tables : jsval
}.
Arguments mkClientInstance {C}.
Arguments ci_type {C}.
Arguments ci_client {C}.
Arguments ci_tables {C}.

(** One entry of the query history (query-history.ts), without its generated
    id and its timestamp. *)
Record HistoryItem : Type := mkHistoryItem {
  h_connectionId : string;
  h_connectionName : string;
  h_query : string;
  h_executionTime : string;
  h_success : bool;
  h_errorMessage : option string;
  h_resultCount : nat
}.

(** What the handlers did to the process state, oldest first. *)
Inductive Effect : Type :=
| ClientConstructed (dbType : string)
| DisconnectCalled (id : string)
| RegistrySet (id : string)
| RegistryDelete (id : string)
| StoreWrite (connections : list StoredConnection).

(** The state of the main process: the map [ACTIVE_CLIENTS], the stored
    connections, the query history with the setting [maxHistoryItems], and
    the effects so far. *)
Record World (C : Type) : Type := mkWorld {
  ACTIVE_CLIENTS : gmap string (ClientInstance C);
  connections : SecureStore.Store;
  history : list HistoryItem;
  maxHistoryItems : jsnumber;
  effects : list Effect
}.
Arguments mkWorld {C}.
Arguments ACTIVE_CLIENTS {C}.
Arguments connections {C}.
Arguments history {C}.
Arguments maxHistoryItems {C}.
Arguments effects {C}.

(** The number of database clients constructed so far. *)
Definition clients_constructed {C} (w : World C) : nat :=
  List.length (List.filter (fun e => match e with ClientConstructed _ => true | _ => false end)
                 (effects w)).

Module Manager.
Section WithClient.
Context {C : Type} `{DatabaseClient C}.

Definition set_clients (w : World C) (m : gmap string (ClientInstance C)) : World C :=
  mkWorld m (connections w) (history w) (maxHistoryItems w) (effects w).

Definition log_effect (w : World C) (e : Effect) : World C :=
  mkWorld (ACTIVE_CLIENTS w) (connections w) (history w) (maxHistoryItems w)
    (effects w ++ [e])%list.

(** [getActiveClient(id)] *)
Definition getActiveClient (id : string) (w : World C) : option (ClientInstance C) :=
  ACTIVE_CLIENTS w !! id.

(** [getSchemaVisualization(id, config)] *)
Definition getSchemaVisualization (id : string) (config : ConnectionConfig) (w : World C)
    : result jsval * World C :=
  match Db.createDatabaseClient config with
  | Throw e => (Throw e, w)
  | Ok client =>
      let w := log_effect w (ClientConstructed (cfg_type config)) in
      match client_connect client with
      | (Throw e, _) => (Throw e, w)
      | (Ok _, client) =>
          match client_getSchemaVisualization client with
          | (Throw e, _) => (Throw e, w)
          | (Ok tables, client) =>
              let instance :=
                {| ci_type := cfg_type config; ci_client := client; ci_tables := tables |} in
              (Ok tables,
               log_effect (set_clients w (<[id := instance]> (ACTIVE_CLIENTS w))) (RegistrySet id))
          end
      end
  end.

(** [removeActiveClient(id)]: only a PostgreSQL client is disconnected, and an
    exception of [disconnect] is logged and dropped. *)
Definition removeActiveClient (id : string) (w : World C) : World C :=
  match ACTIVE_CLIENTS w !! id with
  | Some instance =>
      let w :=
        if String.eqb (ci_type instance) POSTGRESQL
        then
          (* whatever [disconnect] does, the entry and its client go *)
          match client_disconnect (ci_client instance) with
          | (_, _) => log_effect w (DisconnectCalled id)
          end
        else w in
      log_effect (set_clients w (delete id (ACTIVE_CLIENTS w))) (RegistryDelete id)
  | None => w
  end.

(** [clearAllClients()]. JavaScript walks the keys in the order of their
    insertion, which the registry here does not record; the loop below walks
    them in the order in which the map lists them. *)
Definition clearAllClients (w : World C) : World C :=
  List.fold_left (fun w id => removeActiveClient id w)
    (List.map fst (map_to_list (ACTIVE_CLIENTS w))) w.

End WithClient.
End Manager.

(** ** src/main/ipc/handlers.ts *)

Module Handlers.
Import ErrorHandler.
Section WithClient.
Context {node : NodeCrypto} {C : Type} `{DatabaseClient C}.

Definition set_connections (w : World C) (store : SecureStore.Store) : World C :=
  Manager.log_effect
    (mkWorld (ACTIVE_CLIENTS w) store (history w) (maxHistoryItems w) (effects w))
    (StoreWrite store).

(** [queryHistoryManager.addToHistory(item)]: the item goes first, and the
    list is cut with [splice] when it is longer than [maxHistoryItems]. *)
Definition addToHistory (item : HistoryItem) (w : World C) : World C :=
  let history := item :: history w in
  let history :=
    if Js.length_gt (List.length history) (maxHistoryItems w)
    then Js.splice (maxHistoryItems w) history
    else history in
  mkWorld (ACTIVE_CLIENTS w) (connections w) history (maxHistoryItems w) (effects w).

(** [connection?.name || 'Unknown Connection'] *)
Definition connectionName (id : string) (w : World C) : string :=
  match List.find (fun conn => String.eqb (sc_id conn) id)
          (SecureStore.getAllConnections (connections w)) with
  | Some connection => nonempty_or (sc_name connection) "Unknown Connection"
  | None => "Unknown Connection"
  end.

(** A handler returns its response, or rejects when its [catch] block throws. *)
Definition respond_database_error (error : JsError) (context : ErrorContext) : result Response :=
  match handleDatabaseError error (Some context) with
  | Throw e => Throw e
  | Ok appError => Ok (formatErrorResponse appError)
  end.

(** The handler of SAVE_CONNECTION; [salt] and [iv] are the random bytes
    [encrypt] draws. The client it makes is local to the call. *)
Definition SAVE_CONNECTION (config : ConnectionConfig) (encryptionKey : string)
    (salt iv : string) (w : World C) : result Response * World C :=
  let caught (error : JsError) : result Response :=
    if Js.includes (err_message error) "encrypt" || Js.includes (err_message error) "key"
    then Ok (formatErrorResponse
               (handleEncryptionError error
                  (Some [("action", VStr "SAVE_CONNECTION"); ("connectionId", VStr (cfg_id config))])))
    else respond_database_error error
           [("action", VStr "SAVE_CONNECTION"); ("dbType", VStr (cfg_type config));
            ("connectionId", VStr (cfg_id config))] in
  match Db.createDatabaseClient config with
  | Throw error => (caught error, w)
  | Ok db =>
      let w := Manager.log_effect w (ClientConstructed (cfg_type config)) in
      match client_connect db with
      | (Throw error, _) => (caught error, w)
      | (Ok _, db) =>
          match client_getSchemaVisualization db with
          | (Throw error, _) => (caught error, w)
          | (Ok tables, db) =>
              match SecureStore.saveEncryptedConnection config encryptionKey salt iv
                      (connections w) with
              | Throw error => (caught error, w)
              | Ok store =>
                  let w := set_connections w store in
                  match client_disconnect db with
                  | (Throw error, _) => (caught error, w)
                  | (Ok _, _) =>
                      (Ok (formatSuccessResponse [("tables", tables)]
                             (Some "Connection saved successfully")), w)
                  end
              end
          end
      end
  end.

(** [existingClient.tables || []] *)
Definition tables_or_empty (instance : ClientInstance C) : jsval :=
  or_else (ci_tables instance) (VArr []).

(** The handler of CONNECT_DB. *)
Definition CONNECT_DB (id encryptionKey : string) (w : World C) : result Response * World C :=
  let context := [("action", VStr "CONNECT_DB"); ("connectionId", VStr id)] in
  let caught (error : JsError) : result Response :=
    if Js.includes (err_message error) "decrypt" || Js.includes (err_message error) "key"
    then Ok (formatErrorResponse (handleEncryptionError error (Some context)))
    else respond_database_error error context in
  match SecureStore.getDecryptedConnection id encryptionKey (connections w) with
  | Throw error => (caught error, w)
  | Ok config =>
      match Manager.getActiveClient id w with
      | Some existingClient =>
          (Ok (formatSuccessResponse [("tables", tables_or_empty existingClient)] None), w)
      | None =>
          match Manager.getSchemaVisualization id config w with
          | (Throw error, w) => (caught error, w)
          | (Ok tables, w) =>
              (Ok (formatSuccessResponse [("tables", tables)] (Some "Connected successfully")), w)
          end
      end
  end.

Definition no_active_connection (id : string) : AppError :=
  createError CONNECTION_ERROR
    "No active database connection found. Please connect to a database first."
    None (Some (CodeStr "NO_ACTIVE_CONNECTION")) true
    (Some [("action", VStr "RUN_QUERY"); ("connectionId", VStr id)]).

(** [query.substring(0, 100) + (query.length > 100 ? '...' : '')] *)
Definition query_excerpt (query : string) : string :=
  Js.substring_to 100 query ++ (if 100 <? Js.length query then "..." else "").

(** The handler of RUN_QUERY; [elapsed] is the text of the time the query took
    ([executionTime.toFixed(2)]). *)
Definition RUN_QUERY (id query : string) (elapsed : string) (w : World C)
    : result Response * World C :=
  match Manager.getActiveClient id w with
  | None => (Ok (formatErrorResponse (no_active_connection id)), w)
  | Some clientInstance =>
      match client_executeQuery query (ci_client clientInstance) with
      | (Ok result, client) =>
          let w :=
            Manager.set_clients w
              (<[id := mkClientInstance (ci_type clientInstance) client (ci_tables clientInstance)]>
                 (ACTIVE_CLIENTS w)) in
          let resultCount := match result with VArr rows => List.length rows | _ => 0 end in
          let w :=
            addToHistory
              {| h_connectionId := id; h_connectionName := connectionName id w;
                 h_query := Js.trim query; h_executionTime := elapsed; h_success := true;
                 h_errorMessage := None; h_resultCount := resultCount |} w in
          (Ok (formatSuccessResponse [("result", result)]
                 (Some ("Query executed successfully in " ++ elapsed ++ "ms"))), w)
      | (Throw error, client) =>
          let w :=
            Manager.set_clients w
              (<[id := mkClientInstance (ci_type clientInstance) client (ci_tables clientInstance)]>
                 (ACTIVE_CLIENTS w)) in
          let w :=
            addToHistory
              {| h_connectionId := id; h_connectionName := connectionName id w;
                 h_query := Js.trim query; h_executionTime := elapsed; h_success := false;
                 h_errorMessage := Some (err_message error); h_resultCount := 0 |} w in
          (respond_database_error error
             [("action", VStr "RUN_QUERY"); ("connectionId", VStr id);
              ("query", VStr (query_excerpt query)); ("executionTime", VStr elapsed)], w)
      end
  end.

(** The handler of DELETE_CONNECTION. *)
Definition DELETE_CONNECTION (id : string) (w : World C) : result Response * World C :=
  let w :=
    match Manager.getActiveClient id w with
    | Some _ => Manager.removeActiveClient id w
    | None => w
    end in
  let w := set_connections w (SecureStore.deleteConnection id (connections w)) in
  (Ok (formatSuccessResponse [] (Some "Connection deleted successfully")), w).

(** The handler of TEST_CONNECTION. The client it makes is local to the call. *)
Definition TEST_CONNECTION (config : ConnectionConfig) (w : World C) : result Response * World C :=
  let context :=
    [("action", VStr "TEST_CONNECTION"); ("dbType", VStr (cfg_type config));
     ("host", or_else (get_prop (prop (cfg_postgresql config)) "host")
                (get_prop (prop (cfg_mysql config)) "host"))] in
  match Db.createDatabaseClient config with
  | Throw error => (respond_database_error error context, w)
  | Ok db =>
      let w := Manager.log_effect w (ClientConstructed (cfg_type config)) in
      match client_connect db with
      | (Throw error, _) => (respond_database_error error context, w)
      | (Ok _, db) =>
          match client_disconnect db with
          | (Throw error, _) => (respond_database_error error context, w)
          | (Ok _, _) =>
              (Ok (formatSuccessResponse [] (Some "Connection test successful")), w)
          end
      end
  end.

(** The handler of DISCONNECT_DB. *)
Definition DISCONNECT_DB (id : string) (w : World C) : result Response * World C :=
  (Ok (formatSuccessResponse [] (Some "Database disconnected successfully")),
   Manager.removeActiveClient id w).

(** The handler of UPDATE_CONNECTION. *)
Definition UPDATE_CONNECTION (id name : string) (w : World C) : result Response * World C :=
  if String.eqb name "" || (Js.length (Js.trim name) =? 0) then
    (Ok (formatErrorResponse
           (handleValidationError "Connection name cannot be empty"
              (Some "Please provide a valid connection name")
              (Some [("action", VStr "UPDATE_CONNECTION"); ("connectionId", VStr id)]))), w)
  else
    (Ok (formatSuccessResponse [] (Some "Connection updated successfully")),
     set_connections w (SecureStore.updateEncryptedConnection id (Js.trim name) (connections w))).

(** The loop of the strategy [skip-duplicates]: [idMap] holds the ids seen so
    far, [i] is the position of the record in the file and [clock i] the text
    of [Date.now()] when the loop is there. *)
Fixpoint rename_duplicates (idMap : list string) (i : nat) (imported : list StoredConnection)
    (clock : nat -> string) : list StoredConnection :=
  match imported with
  | [] => []
  | conn :: rest =>
      if List.existsb (String.eqb (sc_id conn)) idMap then
        {| sc_id := sc_id conn ++ "-" ++ clock i;
           sc_name := sc_name conn ++ " (Imported)";
           sc_type := sc_type conn;
           sc_encryptedConfig := sc_encryptedConfig conn |}
        :: rename_duplicates idMap (S i) rest clock
      else conn :: rename_duplicates (sc_id conn :: idMap) (S i) rest clock
  end.

(** The [switch] of IMPORT_CONNECTIONS over the strategy; it has no default
    case, so [resultConnections] stays empty for any other strategy. *)
Definition resultConnections (strategy : string)
    (existingConnections imported : list StoredConnection) (clock : nat -> string)
    : list StoredConnection :=
  if String.eqb strategy "replace" then imported
  else if String.eqb strategy "merge" then
    let existingIds := List.map sc_id existingConnections in
    let newConnections :=
      List.filter (fun conn => negb (List.existsb (String.eqb (sc_id conn)) existingIds))
        imported in
    (existingConnections ++ newConnections)%list
  else if String.eqb strategy "skip-duplicates" then
    (rename_duplicates (List.map sc_id existingConnections) 0 imported clock
       ++ existingConnections)%list
  else [].

(** The handler of IMPORT_CONNECTIONS from the point where the file has been
    read, decrypted and validated: [imported] is [importData.connections], a
    list of stored connections as [ExportFormat] types it. *)
Definition IMPORT_CONNECTIONS_validated (strategy : string) (imported : list StoredConnection)
    (clock : nat -> string) (w : World C) : result Response * World C :=
  let existingConnections := SecureStore.getAllConnections (connections w) in
  let result := resultConnections strategy existingConnections imported clock in
  let w := set_connections w (SecureStore.storeConnections result (connections w)) in
  (Ok (formatSuccessResponse
         [("importedCount", VNum (Z.of_nat (List.length imported)));
          ("totalConnections", VNum (Z.of_nat (List.length result)));
          ("strategy", VStr strategy)]
         (Some ("Successfully imported " ++ pretty (List.length imported) ++ " connection(s)"))),
   w).

End WithClient.
End Handlers.

(** ** src/main/store/query-history.ts *)

Module QueryHistory.

(** The [timestamp] of an item, typed [Date]. The store keeps its data as
    JSON: of a date it keeps the text of [toJSON], or [null] for a date that
    is no time, and that is what it hands out again. An item that comes from
    elsewhere can hold a text, [null] or a [Date] object, known by its
    identity and by what [toJSON] returns for it. *)
Inductive Timestamp : Type :=
| DateText (text : string)
| DateNull
| DateObject (identity : nat) (json : option string).

(** [a === b] on two timestamps: two texts are compared by their characters,
    two objects by their identity, and values of two kinds differ. *)
Definition identical (a b : Timestamp) : bool :=
  match a, b with
  | DateText x, DateText y => String.eqb x y
  | DateNull, DateNull => true
  | DateObject i _, DateObject j _ => i =? j
  | _, _ => false
  end.

(** What the store keeps of a timestamp. *)
Definition toJSON (t : Timestamp) : Timestamp :=
  match t with
  | DateObject _ (Some text) => DateText text
  | DateObject _ None => DateNull
  | _ => t
  end.

(** [QueryHistoryItem] *)
Record QueryHistoryItem : Type := mkQueryHistoryItem {
  qh_id : string;
  qh_connectionId : string;
  qh_connectionName : string;
  qh_query : string;
  qh_executionTime : string;
  qh_timestamp : Timestamp;
  qh_success : bool;
  qh_errorMessage : option string;
  qh_resultCount : option nat;
  qh_isBookmarked : bool
}.

Record QueryBookmark : Type := mkQueryBookmark {
  bm_id : string;
  bm_historyId : string;
  bm_name : string;
  bm_query : string;
  bm_description : option string;
  bm_connectionId : option string;
  bm_createdAt : string
}.

(** The electron-store of the manager: [history], [bookmarks] and the setting
    [maxHistoryItems]. *)
Record Store : Type := mkStore {
  history : list QueryHistoryItem;
  bookmarks : list QueryBookmark;
  maxHistoryItems : jsnumber
}.

Definition set_history (st : Store) (h : list QueryHistoryItem) : Store :=
  {| history := h; bookmarks := bookmarks st; maxHistoryItems := maxHistoryItems st |}.

Definition set_bookmarks (st : Store) (b : list QueryBookmark) : Store :=
  {| history := history st; bookmarks := b; maxHistoryItems := maxHistoryItems st |}.

(** What the caller of [addToHistory] passes: an item without its id, its
    timestamp and its bookmark flag. *)
Record NewItem : Type := mkNewItem {
  new_connectionId : string;
  new_connectionName : string;
  new_query : string;
  new_executionTime : string;
  new_success : bool;
  new_errorMessage : option string;
  new_resultCount : option nat
}.

(** [addToHistory(item)]; [newId] is what [generateId()] returns and [now]
    the text that the store keeps of [new Date()]. It returns the id. *)
Definition addToHistory (item : NewItem) (newId now : string) (st : Store) : string * Store :=
  let historyItem :=
    {| qh_id := newId;
       qh_connectionId := new_connectionId item;
       qh_connectionName := new_connectionName item;
       qh_query := new_query item;
       qh_executionTime := new_executionTime item;
       qh_timestamp := DateText now;
       qh_success := new_success item;
       qh_errorMessage := new_errorMessage item;
       qh_resultCount := new_resultCount item;
       qh_isBookmarked := false |} in
  let history := historyItem :: history st in
  let history :=
    if Js.length_gt (List.length history) (maxHistoryItems st)
    then Js.splice (maxHistoryItems st) history
    else history in
  (newId, set_history st history).

(** An optional string argument that is given and not empty: what
    [if (connectionId)] tests. *)
Definition given (o : option string) : option string :=
  match o with
  | Some s => if String.eqb s "" then None else Some s
  | None => None
  end.

(** [getHistory(connectionId, limit)] *)
Definition getHistory (connectionId : option string) (limit : option nat) (st : Store)
    : list QueryHistoryItem :=
  let history :=
    match given connectionId with
    | Some c => List.filter (fun item => String.eqb (qh_connectionId item) c) (history st)
    | None => history st
    end in
  match limit with
  | Some (S n) => List.firstn (S n) history
  | _ => history
  end.

(** [array.splice(index, 1)] at the first element that satisfies [p]; the
    list itself when there is none. *)
Fixpoint remove_first {A} (p : A -> bool) (l : list A) : list A :=
  match l with
  | [] => []
  | x :: r => if p x then r else x :: remove_first p r
  end.

(** [deleteHistoryItem(id)] *)
Definition deleteHistoryItem (id : string) (st : Store) : bool * Store :=
  if List.existsb (fun item => String.eqb (qh_id item) id) (history st)
  then (true, set_history st (remove_first (fun item => String.eqb (qh_id item) id) (history st)))
  else (false, st).

(** [clearHistory(connectionId)] *)
Definition clearHistory (connectionId : option string) (st : Store) : Store :=
  match given connectionId with
  | Some c =>
      set_history st
        (List.filter (fun item => negb (String.eqb (qh_connectionId item) c)) (history st))
  | None => set_history st []
  end.

(** What the caller of [addBookmark] passes. *)
Record NewBookmark : Type := mkNewBookmark {
  nb_historyId : string;
  nb_name : string;
  nb_query : string;
  nb_description : option string;
  nb_connectionId : option string
}.

(** [addBookmark(bookmark)] *)
Definition addBookmark (bookmark : NewBookmark) (newId now : string) (st : Store)
    : string * Store :=
  let newBookmark :=
    {| bm_id := newId;
       bm_historyId := nb_historyId bookmark;
       bm_name := nb_name bookmark;
       bm_query := nb_query bookmark;
       bm_description := nb_description bookmark;
       bm_connectionId := nb_connectionId bookmark;
       bm_createdAt := now |} in
  (newId, set_bookmarks st (bookmarks st ++ [newBookmark])%list).

Definition bookmark_matches (id : string) (bookmark : QueryBookmark) : bool :=
  String.eqb (bm_id bookmark) id || String.eqb (bm_historyId bookmark) id.

(** [deleteBookmark(id)] *)
Definition deleteBookmark (id : string) (st : Store) : bool * Store :=
  if List.existsb (bookmark_matches id) (bookmarks st)
  then (true, set_bookmarks st (remove_first (bookmark_matches id) (bookmarks st)))
  else (false, st).

Definition flip (item : QueryHistoryItem) : QueryHistoryItem :=
  {| qh_id := qh_id item;
     qh_connectionId := qh_connectionId item;
     qh_connectionName := qh_connectionName item;
     qh_query := qh_query item;
     qh_executionTime := qh_executionTime item;
     qh_timestamp := qh_timestamp item;
     qh_success := qh_success item;
     qh_errorMessage := qh_errorMessage item;
     qh_resultCount := qh_resultCount item;
     qh_isBookmarked := negb (qh_isBookmarked item) |}.

(** The history after [historyItem.isBookmarked = !historyItem.isBookmarked]
    on the first item that has the id. *)
Fixpoint flip_first (id : string) (l : list QueryHistoryItem) : list QueryHistoryItem :=
  match l with
  | [] => []
  | item :: r => if String.eqb (qh_id item) id then flip item :: r else item :: flip_first id r
  end.

(** [toggleHistoryBookmark(historyId)]; [newId] and [now] are what
    [addBookmark] draws, [day] the text of
    [new Date(historyItem.timestamp).toLocaleDateString()]. *)
Definition toggleHistoryBookmark (historyId : string) (newId now day : string) (st : Store)
    : bool * Store :=
  match List.find (fun item => String.eqb (qh_id item) historyId) (history st) with
  | None => (false, st)
  | Some historyItem =>
      let st := set_history st (flip_first historyId (history st)) in
      if negb (qh_isBookmarked historyItem) then
        (true,
         snd (addBookmark
                {| nb_historyId := qh_id historyItem;
                   nb_name := "Query from " ++ qh_connectionName historyItem;
                   nb_query := qh_query historyItem;
                   nb_description := Some ("Bookmarked from history on " ++ day);
                   nb_connectionId := Some (qh_connectionId historyItem) |}
                newId now st))
      else (false, snd (deleteBookmark historyId st))
  end.

(** The counters of [getStatistics(connectionId)] and its [recentActivity]. *)
Record Statistics : Type := mkStatistics {
  totalQueries : nat;
  successfulQueries : nat;
  failedQueries : nat;
  totalBookmarks : nat;
  recentActivity : list QueryHistoryItem
}.

(** [getBookmarks(connectionId)], before it is sorted by date. *)
Definition bookmarks_of (connectionId : option string) (st : Store) : list QueryBookmark :=
  match given connectionId with
  | Some c =>
      List.filter
        (fun bookmark =>
           match given (bm_connectionId bookmark) with
           | None => true
           | Some c' => String.eqb c' c
           end)
        (bookmarks st)
  | None => bookmarks st
  end.

Definition getStatistics (connectionId : option string) (st : Store) : Statistics :=
  let history := getHistory connectionId None st in
  {| totalQueries := List.length history;
     successfulQueries := List.length (List.filter qh_success history);
     failedQueries := List.length (List.filter (fun item => negb (qh_success item)) history);
     totalBookmarks := List.length (bookmarks_of connectionId st);
     recentActivity := List.firstn 10 history |}.

(** [array.findIndex(p)] *)
Fixpoint findIndex {A} (p : A -> bool) (l : list A) : option nat :=
  match l with
  | [] => None
  | x :: r => if p x then Some 0 else option_map S (findIndex p r)
  end.

(** [array.filter((item, index, array) => f(item, index))], from index [i]. *)
Fixpoint filter_indexed {A} (f : A -> nat -> bool) (i : nat) (l : list A) : list A :=
  match l with
  | [] => []
  | x :: r => if f x i then x :: filter_indexed f (S i) r else filter_indexed f (S i) r
  end.

(** Two history items that [importData] takes for the same one. *)
Definition same_entry (a b : QueryHistoryItem) : bool :=
  String.eqb (qh_query a) (qh_query b) &&
  String.eqb (qh_connectionId a) (qh_connectionId b) &&
  identical (qh_timestamp a) (qh_timestamp b).

(** An item as the store keeps it. *)
Definition written (item : QueryHistoryItem) : QueryHistoryItem :=
  {| qh_id := qh_id item;
     qh_connectionId := qh_connectionId item;
     qh_connectionName := qh_connectionName item;
     qh_query := qh_query item;
     qh_executionTime := qh_executionTime item;
     qh_timestamp := toJSON (qh_timestamp item);
     qh_success := qh_success item;
     qh_errorMessage := qh_errorMessage item;
     qh_resultCount := qh_resultCount item;
     qh_isBookmarked := qh_isBookmarked item |}.

(** The history that [importData({ history }, merge)] stores: the items that
    it hands to the store, as the store keeps them. *)
Definition importHistory (imported : list QueryHistoryItem) (merge : bool) (st : Store)
    : Store :=
  if merge then
    let mergedHistory := (imported ++ history st)%list in
    let uniqueHistory :=
      filter_indexed
        (fun item index =>
           match findIndex (fun i => same_entry i item) mergedHistory with
           | Some k => k =? index
           | None => false
           end)
        0 mergedHistory in
    set_history st (List.map written uniqueHistory)
  else set_history st (List.map written imported).

End QueryHistory.

(** * Reference instances

    Small implementations of the interfaces above. They show that the laws
    assumed of Node and of the drivers can be met together, and they are what
    the closed examples at the end of the file run on. The codecs are the
    real ones (base64 of RFC 4648, JSON string literals); the key derivation
    and the cipher are stand-ins with the shape of the real ones. *)

Module Reference.

(** ** base64 *)

(** A group of six bits, most significant first, as the character of code 0..63. *)
Definition sextet (m5 m4 m3 m2 m1 m0 : bool) : ascii :=
  Ascii m0 m1 m2 m3 m4 m5 false false.

(** The alphabet: [A-Z], [a-z], [0-9], [+], [/]. *)
Definition b64_char (i : ascii) : ascii :=
  let n := nat_of_ascii i in
  if n <? 26 then ascii_of_nat (65 + n)
  else if n <? 52 then ascii_of_nat (97 + (n - 26))
  else if n <? 62 then ascii_of_nat (48 + (n - 52))
  else if n =? 62 then "+"%char
  else "/"%char.

(** The value of a character of the alphabet; as in Node, [-] and [_] stand
    for [+] and [/]. *)
Definition b64_value (c : ascii) : option ascii :=
  let n := nat_of_ascii c in
  if (65 <=? n) && (n <=? 90) then Some (ascii_of_nat (n - 65))
  else if (97 <=? n) && (n <=? 122) then Some (ascii_of_nat (n - 97 + 26))
  else if (48 <=? n) && (n <=? 57) then Some (ascii_of_nat (n - 48 + 52))
  else if (n =? 43) || (n =? 45) then Some (ascii_of_nat 62)
  else if (n =? 47) || (n =? 95) then Some (ascii_of_nat 63)
  else None.

Definition encode3 (a b c : ascii) : string :=
  let 'Ascii a0 a1 a2 a3 a4 a5 a6 a7 := a in
  let 'Ascii b0 b1 b2 b3 b4 b5 b6 b7 := b in
  let 'Ascii c0 c1 c2 c3 c4 c5 c6 c7 := c in
  String (b64_char (sextet a7 a6 a5 a4 a3 a2))
    (String (b64_char (sextet a1 a0 b7 b6 b5 b4))
       (String (b64_char (sextet b3 b2 b1 b0 c7 c6))
          (String (b64_char (sextet c5 c4 c3 c2 c1 c0)) ""))).

Definition encode2 (a b : ascii) : string :=
  let 'Ascii a0 a1 a2 a3 a4 a5 a6 a7 := a in
  let 'Ascii b0 b1 b2 b3 b4 b5 b6 b7 := b in
  String (b64_char (sextet a7 a6 a5 a4 a3 a2))
    (String (b64_char (sextet a1 a0 b7 b6 b5 b4))
       (String (b64_char (sextet b3 b2 b1 b0 false false)) "=")).

Definition encode1 (a : ascii) : string :=
  let 'Ascii a0 a1 a2 a3 a4 a5 a6 a7 := a in
  String (b64_char (sextet a7 a6 a5 a4 a3 a2))
    (String (b64_char (sextet a1 a0 false false false false)) "==").

Fixpoint base64_encode (s : string) : string :=
  match s with
  | String a (String b (String c r)) => encode3 a b c ++ base64_encode r
  | String a (String b EmptyString) => encode2 a b
  | String a EmptyString => encode1 a
  | EmptyString => EmptyString
  end.

(** The values of the characters up to the first [=], the characters outside
    the alphabet skipped. *)
Fixpoint sextets (s : string) : list ascii :=
  match s with
  | EmptyString => []
  | String c r =>
      if Ascii.eqb c "="%char then []
      else
        match b64_value c with
        | Some v => v :: sextets r
        | None => sextets r
        end
  end.

Definition byte0 (x y : ascii) : ascii :=
  let 'Ascii x0 x1 x2 x3 x4 x5 _ _ := x in
  let 'Ascii _ _ _ _ y4 y5 _ _ := y in
  Ascii y4 y5 x0 x1 x2 x3 x4 x5.

Definition byte1 (y z : ascii) : ascii :=
  let 'Ascii y0 y1 y2 y3 _ _ _ _ := y in
  let 'Ascii _ _ z2 z3 z4 z5 _ _ := z in
  Ascii z2 z3 z4 z5 y0 y1 y2 y3.

Definition byte2 (z t : ascii) : ascii :=
  let 'Ascii z0 z1 _ _ _ _ _ _ := z in
  let 'Ascii t0 t1 t2 t3 t4 t5 _ _ := t in
  Ascii t0 t1 t2 t3 t4 t5 z0 z1.

Fixpoint assemble (l : list ascii) : string :=
  match l with
  | x :: y :: z :: t :: r =>
      String (byte0 x y) (String (byte1 y z) (String (byte2 z t) (assemble r)))
  | [x; y; z] => String (byte0 x y) (String (byte1 y z) "")
  | [x; y] => String (byte0 x y) ""
  | _ => ""
  end.

Definition base64_decode (s : string) : string := assemble (sextets s).

(** ** JSON string literals and the envelope *)

Definition dquote : ascii := "034"%char.
Definition backslash : ascii := "092"%char.

Fixpoint escape (s : string) : string :=
  match s with
  | EmptyString => EmptyString
  | String c r =>
      if Ascii.eqb c dquote || Ascii.eqb c backslash
      then String backslash (String c (escape r))
      else String c (escape r)
  end.

Definition quote (s : string) : string :=
  String dquote (escape s ++ String dquote "").

(** Reads a string literal after its opening quote: the text, and what
    follows the closing quote. *)
Fixpoint read_literal (s : string) : option (string * string) :=
  match s with
  | EmptyString => None
  | String c r =>
      if Ascii.eqb c dquote then Some (EmptyString, r)
      else if Ascii.eqb c backslash then
        match r with
        | EmptyString => None
        | String d r' =>
            match read_literal r' with
            | Some (text, rest) => Some (String d text, rest)
            | None => None
            end
        end
      else
        match read_literal r with
        | Some (text, rest) => Some (String c text, rest)
        | None => None
        end
  end.

Definition key_prefix (first : bool) (k : string) : string :=
  (if first then "{" else ",") ++ quote k ++ ":" ++ String dquote "".

Definition JSON_stringify_envelope (env : Envelope) : string :=
  key_prefix true "salt" ++ escape (salt env) ++ String dquote
    (key_prefix false "iv" ++ escape (iv env) ++ String dquote
       (key_prefix false "authTag" ++ escape (authTag env) ++ String dquote
          (key_prefix false "encrypted" ++ escape (encrypted env) ++ String dquote "}"))).

Definition syntax_error : JsError :=
  {| err_name := "SyntaxError"; err_message := "Unexpected token in JSON";
     err_code := None; err_stack := None |}.

Definition read_field (first : bool) (k : string) (s : string) : option (string * string) :=
  match Js.strip_prefix (key_prefix first k) s with
  | Some rest => read_literal rest
  | None => None
  end.

Definition JSON_parse_envelope (s : string) : result Envelope :=
  match read_field true "salt" s with
  | Some (salt, s) =>
      match read_field false "iv" s with
      | Some (iv, s) =>
          match read_field false "authTag" s with
          | Some (authTag, s) =>
              match read_field false "encrypted" s with
              | Some (encrypted, s) =>
                  if String.eqb s "}"
                  then Ok {| salt := salt; iv := iv; authTag := authTag; encrypted := encrypted |}
                  else Throw syntax_error
              | None => Throw syntax_error
              end
          | None => Throw syntax_error
          end
      | None => Throw syntax_error
      end
  | None => Throw syntax_error
  end.

Definition join (sep : string) (parts : list string) : string :=
  match parts with
  | [] => ""
  | p :: rest => List.fold_left (fun acc q => acc ++ sep ++ q) rest p
  end.

Fixpoint stringify (v : jsval) : string :=
  match v with
  | VUndefined | VNull => "null"
  | VBool true => "true"
  | VBool false => "false"
  | VNum n => pretty n
  | VStr s => quote s
  | VArr items => "[" ++ join "," (List.map stringify items) ++ "]"
  | VObj props =>
      "{" ++ join "," (List.map (fun kv => quote (fst kv) ++ ":" ++ stringify (snd kv)) props) ++ "}"
  end.

Definition JSON_stringify (v : jsval) : option string :=
  match v with
  | VUndefined => None
  | _ => Some (stringify v)
  end.

(** Reads back the scalars [stringify] writes (no number, array or object). *)
Definition JSON_parse (s : string) : result jsval :=
  if String.eqb s "null" then Ok VNull
  else if String.eqb s "true" then Ok (VBool true)
  else if String.eqb s "false" then Ok (VBool false)
  else
    match s with
    | String c r =>
        if Ascii.eqb c dquote then
          match read_literal r with
          | Some (text, EmptyString) => Ok (VStr text)
          | _ => Throw syntax_error
          end
        else Throw syntax_error
    | EmptyString => Throw syntax_error
    end.

(** ** A key derivation and a cipher with the shape of the real ones *)

Definition xor_char (a b : ascii) : ascii :=
  let 'Ascii a0 a1 a2 a3 a4 a5 a6 a7 := a in
  let 'Ascii b0 b1 b2 b3 b4 b5 b6 b7 := b in
  Ascii (xorb a0 b0) (xorb a1 b1) (xorb a2 b2) (xorb a3 b3)
        (xorb a4 b4) (xorb a5 b5) (xorb a6 b6) (xorb a7 b7).

Fixpoint zeros (n : nat) : string :=
  match n with
  | O => EmptyString
  | S n' => String zero (zeros n')
  end.

(** The first [n] characters of [s], with NUL characters when [s] is shorter. *)
Fixpoint take_pad (n : nat) (s : string) : string :=
  match n with
  | O => EmptyString
  | S n' =>
      match s with
      | EmptyString => String zero (take_pad n' EmptyString)
      | String c r => String c (take_pad n' r)
      end
  end.

Fixpoint xor_strings (a b : string) : string :=
  match a, b with
  | String x a', String y b' => String (xor_char x y) (xor_strings a' b')
  | _, _ => a
  end.

(** The HMAC key block of a passphrase of at most 64 bytes: zero padded. *)
Definition key_block (password : string) : string :=
  password ++ zeros (64 - String.length password).

Definition scryptSync (password salt : string) (keylen : nat) : string :=
  xor_strings (take_pad keylen (key_block password)) (take_pad keylen salt).

Fixpoint fold_xor (s : string) : ascii :=
  match s with
  | EmptyString => zero
  | String c r => xor_char c (fold_xor r)
  end.

Fixpoint mask_with (m : ascii) (s : string) : string :=
  match s with
  | EmptyString => EmptyString
  | String c r => String (xor_char c m) (mask_with m r)
  end.

Definition cipher_text (key iv text : string) : string :=
  mask_with (fold_xor (key ++ iv)) text.

Definition decipher_update (key iv data : string) : string :=
  mask_with (fold_xor (key ++ iv)) data.

Definition cipher_getAuthTag (key iv text : string) : string :=
  key ++ take_pad 16 (iv ++ text).

Definition unable_to_authenticate : JsError :=
  Error "Unsupported state or unable to authenticate data".

Definition decipher_final (key iv tag data : string) : result string :=
  if String.eqb tag (cipher_getAuthTag key iv (decipher_update key iv data))
  then Ok ""
  else Throw unable_to_authenticate.

#[export] Instance node : NodeCrypto :=
  Build_NodeCrypto scryptSync cipher_text cipher_getAuthTag decipher_update decipher_final
    base64_encode base64_decode JSON_stringify_envelope JSON_parse_envelope
    JSON_stringify JSON_parse.

(** ** The engine *)

(** The tables of an engine that knows no letters outside ASCII but those
    [Js.toUpperCase] lists. *)
#[export] Instance no_letters_beyond : Unicode := {|
  upper_beyond := fun ch => ch
|}.

(** ** Drivers *)

(** A database that is a counter of the rows written to it. *)
#[export] Instance memory_sqlite : BetterSqlite3 := {|
  Database := Z;
  ensure_directory := fun _ => Ok tt;
  Database_new := fun _ _ => Ok 0%Z;
  db_pragma := fun h _ => (Ok tt, h);
  db_close := fun _ => Ok tt;
  stmt_all := fun h _ => (Ok [VObj [("count", VNum h)]], h);
  stmt_run := fun h _ => (Ok {| changes := 1; lastInsertRowid := h + 1 |}, (h + 1)%Z);
  introspect := fun h => (Ok [], h)
|}.

Definition not_a_database_error : JsError := Error "file is not a database".

(** A file that opens and is no database: every statement on it fails. *)
Definition not_a_database : BetterSqlite3 := {|
  Database := unit;
  ensure_directory := fun _ => Ok tt;
  Database_new := fun _ _ => Ok tt;
  db_pragma := fun h _ => (Throw not_a_database_error, h);
  db_close := fun _ => Ok tt;
  stmt_all := fun h _ => (Throw not_a_database_error, h);
  stmt_run := fun h _ => (Throw not_a_database_error, h);
  introspect := fun h => (Throw not_a_database_error, h)
|}.

#[export] Instance memory_mysql : Mysql2 := {|
  Connection := Z;
  createConnection := fun _ => Ok 0%Z;
  conn_ping := fun h => (Ok tt, h);
  conn_end := fun _ => Ok tt;
  conn_execute := fun h _ => (Ok (VArr [VObj [("count", VNum h)]]), h);
  conn_introspect := fun h _ => (Ok [], h)
|}.

(** An empty MongoDB database; only the empty object literal evaluates. *)
#[export] Instance empty_mongo : MongoDriver := {|
  eval_params := fun text =>
    if String.eqb text "{}" then Ok (VObj []) else Throw (Error "Unexpected token");
  coll_find := fun _ _ => Ok [];
  coll_aggregate := fun _ _ => Ok []
|}.

Definition users_schema : jsval :=
  VArr [VObj [("name", VStr "users"); ("type", VStr "table")]].

(** A client that always connects, whose state is the number of queries run. *)
#[export] Instance counting_client : DatabaseClient nat := {|
  new_Postgresql := fun _ => Ok 0;
  new_Mongodb := fun _ => Ok 0;
  new_MySQL := fun _ => Ok 0;
  new_SQLite := fun _ => Ok 0;
  client_connect := fun c => (Ok tt, c);
  client_disconnect := fun c => (Ok tt, c);
  client_getSchemaVisualization := fun c => (Ok users_schema, c);
  client_executeQuery := fun _ c => (Ok (VArr []), S c)
|}.

(** A client that does everything asked of it but [disconnect]. *)
Definition hanging_client : DatabaseClient nat := {|
  new_Postgresql := fun _ => Ok 0;
  new_Mongodb := fun _ => Ok 0;
  new_MySQL := fun _ => Ok 0;
  new_SQLite := fun _ => Ok 0;
  client_connect := fun c => (Ok tt, c);
  client_disconnect := fun c => (Throw (Error "socket hang up"), c);
  client_getSchemaVisualization := fun c => (Ok users_schema, c);
  client_executeQuery := fun _ c => (Ok (VArr []), S c)
|}.

End Reference.

(** * The words of the specification *)

(** ** Text *)

(** The white space and the line terminators of ECMAScript, which [trim]
    strips: U+0009 to U+000D, U+0020, U+00A0, U+1680, U+2000 to U+200A,
    U+2028, U+2029, U+202F, U+205F, U+3000 and U+FEFF. *)
Definition white_points : list N :=
  [9; 10; 11; 12; 13; 32; 160; 5760;
   8192; 8193; 8194; 8195; 8196; 8197; 8198; 8199; 8200; 8201; 8202;
   8232; 8233; 8239; 8287; 12288; 65279]%N.

Definition white_space : list string := Eval vm_compute in List.map utf8 white_points.

(** A text of nothing but white space. *)
Inductive blank : string -> Prop :=
| blank_empty : blank ""
| blank_more (w s : string) : In w white_space -> blank s -> blank (w ++ s).

(** [core] is [text] without the white space at its two ends. *)
Definition trimmed (text core : string) : Prop :=
  (exists ws ws', text = ws ++ core ++ ws' /\ blank ws /\ blank ws') /\
  (forall w r, In w white_space -> core <> w ++ r /\ core <> r ++ w).

(** The first byte of a white-space character. *)
Definition white_lead (c : ascii) : bool :=
  Js.is_space c || (Js.code c =? 194) || (Js.code c =? 225) || (Js.code c =? 226)
  || (Js.code c =? 227) || (Js.code c =? 239).

(** ** Envelope encryption *)

(** The key of 32 bytes that scrypt derives from the UTF-8 of a passphrase
    and a salt. *)
Definition derived_key {node : NodeCrypto} (password salt : string) : string :=
  scryptSync (Js.utf8_bytes password) salt 32.

(** ** Credential store *)

(** The engine payload that belongs to the type of a configuration, for the
    four members of [DbType]. *)
Inductive matching_payload (config : ConnectionConfig) : jsval -> Prop :=
| payload_postgresql :
    cfg_type config = POSTGRESQL -> matching_payload config (prop (cfg_postgresql config))
| payload_mongodb :
    cfg_type config = MONGODB -> matching_payload config (prop (cfg_mongodb config))
| payload_mysql :
    cfg_type config = MYSQL -> matching_payload config (prop (cfg_mysql config))
| payload_sqlite3 :
    cfg_type config = SQLITE3 -> matching_payload config (prop (cfg_sqlite3 config)).

Definition recognized (dbType : string) : Prop :=
  dbType = POSTGRESQL \/ dbType = MONGODB \/ dbType = MYSQL \/ dbType = SQLITE3.

(** The invariant of [ConnectionConfig]: the payload of its type is there. *)
Definition payload_present (config : ConnectionConfig) : Prop :=
  forall payload, matching_payload config payload -> payload <> VUndefined.

(** The number of stored records with a given id. *)
Definition records_with_id (id : string) (store : SecureStore.Store) : nat :=
  List.length (List.filter (fun conn => String.eqb (sc_id conn) id) store).

(** ** Handlers *)

(** A response that reports a failure. *)
Definition is_failure (r : result ErrorHandler.Response) : Prop :=
  exists error errorType errorCode retryable details,
    r = Ok (ErrorHandler.Failure error errorType errorCode retryable details).

(** The record that the strategy "skip-duplicates" stores for [source]. *)
Definition stored_as (source stored : StoredConnection) : Prop :=
  stored = source \/
  exists timestamp,
    stored = {| sc_id := sc_id source ++ "-" ++ timestamp;
                sc_name := sc_name source ++ " (Imported)";
                sc_type := sc_type source;
                sc_encryptedConfig := sc_encryptedConfig source |}.

(** ** MongoDB queries *)

(** Every character of [s] is a letter, a digit or an underscore. *)
Fixpoint all_word (s : string) : bool :=
  match s with
  | EmptyString => true
  | String c r => Js.is_word c && all_word r
  end.

(** ** Query history *)

(** The items of [l] that agree with no item before them, in [seen] or in
    [l], in query, connection and timestamp. *)
Fixpoint first_copies (seen l : list QueryHistory.QueryHistoryItem)
    : list QueryHistory.QueryHistoryItem :=
  match l with
  | [] => []
  | x :: r =>
      if List.existsb (fun i => QueryHistory.same_entry i x) seen
      then first_copies (seen ++ [x]) r
      else x :: first_copies (seen ++ [x]) r
  end.

(** ** SQLite statements *)

(** [c] is the upper-case letter [k], in either case. *)
Definition same_letter (k c : ascii) : Prop :=
  c = k \/ nat_of_ascii c = nat_of_ascii k + 32.

(** [s] begins with the keyword [kw], whatever the case of its letters. *)
Fixpoint begins_with (kw s : string) : Prop :=
  match kw, s with
  | EmptyString, _ => True
  | String k kw', String c s' => same_letter k c /\ begins_with kw' s'
  | String _ _, EmptyString => False
  end.

Fixpoint all_upper (s : string) : bool :=
  match s with
  | EmptyString => true
  | String c r => Js.is_upper c && all_upper r
  end.

(** The statements that begin, after white space, with SELECT, WITH or
    PRAGMA in letters of either case. *)
Definition begins_with_keyword (query : string) : Prop :=
  exists ws body,
    query = ws ++ body /\ blank ws /\
    (begins_with "SELECT" body \/ begins_with "WITH" body \/ begins_with "PRAGMA" body).

(** [s] begins, when it is put in upper case, with the keyword [kw]: letter
    by letter in either case, or by way of the characters above. *)
Inductive reads_as : string -> string -> Prop :=
| reads_all (s : string) : reads_as "" s
| reads_letter (k c : ascii) (kw s : string) :
    same_letter k c -> reads_as kw s -> reads_as (String k kw) (String c s)
| reads_spelling_last (kw ch up rest s : string) :
    In (ch, up) spellings -> kw <> "" -> up = kw ++ rest -> reads_as kw (ch ++ s)
| reads_spelling (kw ch up s : string) :
    In (ch, up) spellings -> reads_as kw s -> reads_as (up ++ kw) (ch ++ s).

(** The statements that are read. *)
Definition read_statement (query : string) : Prop :=
  exists ws body,
    query = ws ++ body /\ blank ws /\
    (reads_as "SELECT" body \/ reads_as "WITH" body \/ reads_as "PRAGMA" body).


(** * Example data

    The inputs of the closed examples at the end of the file. *)

Module Examples.

Definition salt0 : string := "0123456789abcdef".
Definition iv0 : string := "0123456789ab".
Definition nul : string := String zero "".

(** A MongoDB connection, as the form of the application sends it. *)
Definition shop : ConnectionConfig :=
  {| cfg_id := "c1"; cfg_name := "shop"; cfg_type := MONGODB;
     cfg_postgresql := None;
     cfg_mongodb := Some (VStr "mongodb://localhost:27017/shop");
     cfg_mysql := None; cfg_sqlite3 := None |}.

(** A configuration whose type is no member of [DbType]. *)
Definition oracle : ConnectionConfig :=
  {| cfg_id := "c9"; cfg_name := "legacy"; cfg_type := "oracle";
     cfg_postgresql := None; cfg_mongodb := None; cfg_mysql := None; cfg_sqlite3 := None |}.

(** The store after [shop] was saved under the key [k1]. *)
Definition saved : SecureStore.Store :=
  [ {| sc_id := "c1"; sc_name := "shop"; sc_type := MONGODB;
       sc_encryptedConfig :=
         Crypto.encrypt (node := Reference.node)
           (Reference.stringify (VStr "mongodb://localhost:27017/shop")) "k1" salt0 iv0 |} ].

Definition started : World nat :=
  {| ACTIVE_CLIENTS := ∅; connections := saved; history := [];
     maxHistoryItems := Finite 1000 1; effects := [] |}.

(** The state after a first CONNECT_DB of [c1] under the key [k1]. *)
Definition connected : World nat :=
  snd (Handlers.CONNECT_DB (node := Reference.node) (H := Reference.counting_client)
         "c1" "k1" started).

Definition live_entry : ClientInstance nat :=
  {| ci_type := MONGODB; ci_client := 0; ci_tables := Reference.users_schema |}.

Definition notes : SQLiteConfig := {| filePath := "/home/user/notes.txt"; readonly := None |}.

Definition local_mysql : MySQLConfig :=
  {| host := "localhost"; port := 3306; user := "root"; password := "secret";
     database := "shop"; ssl := None |}.

(** The string of one unpaired surrogate, U+D800. *)
Definition lone_surrogate : string := Eval vm_compute in Js.bytes [237; 160; 128].

(** A statement that begins with [with], written with a dotless i, U+0131. *)
Definition dotless_with : string :=
  Eval vm_compute in "w" ++ utf8 305 ++ "th t as (select 1) select * from t".

(** A text that begins with [selec] and U+1E97, a t with a diaeresis, whose
    upper case is a T and the diaeresis U+0308. *)
Definition marked_select_word : string := Eval vm_compute in "selec" ++ utf8 7831 ++ " 1".

(** A statement after a byte order mark, U+FEFF. *)
Definition marked_select : string := Eval vm_compute in utf8 65279 ++ "select * from t".

(** A second record under the id of [shop]. *)
Definition shadow : StoredConnection :=
  {| sc_id := "c1"; sc_name := "shop (copy)"; sc_type := MONGODB; sc_encryptedConfig := "" |}.

(** What the MongoDB driver throws when the credentials are refused. *)
Definition authentication_failed : JsError :=
  {| err_name := "MongoServerError"; err_message := "Authentication failed.";
     err_code := Some (CodeNum 18); err_stack := None |}.

(** A query history of one query, not bookmarked. *)
Definition one_query : QueryHistory.Store :=
  {| QueryHistory.history :=
       [ {| QueryHistory.qh_id := "h1";
            QueryHistory.qh_connectionId := "c1";
            QueryHistory.qh_connectionName := "shop";
            QueryHistory.qh_query := "db.users.find({})";
            QueryHistory.qh_executionTime := "0.10";
            QueryHistory.qh_timestamp := QueryHistory.DateText "2025-01-01T00:00:00.000Z";
            QueryHistory.qh_success := true;
            QueryHistory.qh_errorMessage := None;
            QueryHistory.qh_resultCount := Some 0;
            QueryHistory.qh_isBookmarked := false |} ];
     QueryHistory.bookmarks := [];
     QueryHistory.maxHistoryItems := Finite 1000 1 |}.

End Examples.

(** * Properties *)

(** ** White space and letter case *)

Lemma append_cons (c : ascii) (a b : string) : String c a ++ b = String c (a ++ b).
Proof. reflexivity. Qed.

Lemma append_empty (a : string) : a ++ "" = a.
Proof.
  induction a as [|c a IH]; [reflexivity|]. rewrite append_cons, IH. reflexivity.
Qed.

Lemma append_assoc (a b c : string) : (a ++ b) ++ c = a ++ (b ++ c).
Proof.
  induction a as [|x a IH]; [reflexivity|]. rewrite !append_cons, IH. reflexivity.
Qed.

Lemma length_append (a b : string) :
  String.length (a ++ b) = String.length a + String.length b.
Proof.
  induction a as [|x a IH]; [reflexivity|]. rewrite append_cons. cbn. rewrite IH. reflexivity.
Qed.

Lemma ascii_of_code (c : ascii) (n : nat) : Js.code c = n -> c = ascii_of_nat n.
Proof. intros <-. symmetry. apply ascii_nat_embedding. Qed.

(** The tests on the code of a byte, read as facts of arithmetic. *)
Ltac split_bool :=
  repeat match goal with
  | H : (_ || _) = true |- _ => apply orb_true_iff in H as [H | H]
  | H : (_ && _) = true |- _ =>
      let H' := fresh H in apply andb_true_iff in H as [H H']
  | H : (_ =? _) = true |- _ => apply Nat.eqb_eq in H
  | H : (_ <=? _) = true |- _ => apply Nat.leb_le in H
  | H : (_ <? _) = true |- _ => apply Nat.ltb_lt in H
  end.

Ltac bool_false :=
  apply not_true_is_false; let H := fresh "H" in intros H; split_bool; lia.

Ltac try_white l :=
  match l with
  | ?w :: ?rest =>
      (exists w; split; [cbv [white_space]; cbn; tauto | reflexivity]) || try_white rest
  end.

Ltac white_case :=
  repeat match goal with H : Js.code ?c = _ |- _ => apply ascii_of_code in H; subst c end;
  let l := eval cbv [white_space] in white_space in try_white l.


(** The white-space characters are those [Js.white_prefix] reads. *)
Lemma white_prefix_white (w r : string) :
  In w white_space -> Js.white_prefix (w ++ r) = Some r.
Proof.
  intros Hin. cbv [white_space] in Hin.
  repeat (destruct Hin as [<- | Hin]; [reflexivity|]). destruct Hin.
Qed.

Lemma white_prefix_Some (s r : string) :
  Js.white_prefix s = Some r -> exists w, In w white_space /\ s = w ++ r.
Proof.
  unfold Js.white_prefix. destruct s as [|c1 r1]; [discriminate|].
  destruct (Js.is_space c1) eqn:H1.
  { intros Heq. injection Heq as <-. unfold Js.is_space in H1.
    assert (Hc : Js.code c1 = 9 \/ Js.code c1 = 10 \/ Js.code c1 = 11 \/ Js.code c1 = 12
                 \/ Js.code c1 = 13 \/ Js.code c1 = 32).
    { apply orb_true_iff in H1 as [H1 | H1].
      - apply andb_true_iff in H1 as [Ha Hb]. apply Nat.leb_le in Ha, Hb. lia.
      - apply Nat.eqb_eq in H1. lia. }
    destruct Hc as [Hc | [Hc | [Hc | [Hc | [Hc | Hc]]]]]; white_case. }
  destruct r1 as [|c2 r2]; [discriminate|].
  destruct (Js.is_space2 c1 c2) eqn:H2.
  { intros Heq. injection Heq as <-. unfold Js.is_space2 in H2.
    apply andb_true_iff in H2 as [Ha Hb]. apply Nat.eqb_eq in Ha, Hb. white_case. }
  destruct r2 as [|c3 r3]; [discriminate|].
  destruct (Js.is_space3 c1 c2 c3) eqn:H3; [|discriminate].
  intros Heq. injection Heq as <-. unfold Js.is_space3 in H3. cbv zeta in H3.
  repeat match type of H3 with
  | (_ || _) = true => apply orb_true_iff in H3 as [H3 | H3]
  end;
  repeat match goal with
  | H : (_ && _) = true |- _ => apply andb_true_iff in H as [? ?]
  | H : (_ || _) = true |- _ => apply orb_true_iff in H as [? | ?]
  | H : (_ =? _) = true |- _ => apply Nat.eqb_eq in H
  | H : (_ <=? _) = true |- _ => apply Nat.leb_le in H
  end;
  try white_case.
  assert (Hc : Js.code c3 = 128 \/ Js.code c3 = 129 \/ Js.code c3 = 130 \/ Js.code c3 = 131
               \/ Js.code c3 = 132 \/ Js.code c3 = 133 \/ Js.code c3 = 134
               \/ Js.code c3 = 135 \/ Js.code c3 = 136 \/ Js.code c3 = 137
               \/ Js.code c3 = 138) by lia.
  repeat (destruct Hc as [Hc | Hc]; [white_case|]). white_case.
Qed.


Lemma trimStart_step (s : string) :
  Js.trimStart s =
  match Js.white_prefix s with Some r => Js.trimStart r | None => s end.
Proof.
  destruct s as [|c1 [|c2 [|c3 r3]]]; cbn; try reflexivity.
  - destruct (Js.is_space c1); reflexivity.
  - destruct (Js.is_space c1); [reflexivity|]. destruct (Js.is_space2 c1 c2); reflexivity.
  - destruct (Js.is_space c1); [reflexivity|]. destruct (Js.is_space2 c1 c2); [reflexivity|].
    destruct (Js.is_space3 c1 c2 c3); reflexivity.
Qed.

Lemma trimEnd_white (w r : string) :
  In w white_space ->
  Js.trimEnd (w ++ r) = Js.unless_last (Js.trimEnd r) (w ++ Js.trimEnd r).
Proof.
  intros Hin. cbv [white_space] in Hin.
  repeat (destruct Hin as [<- | Hin]; [reflexivity|]). destruct Hin.
Qed.

Lemma trimEnd_solid (c : ascii) (r : string) :
  Js.white_prefix (String c r) = None ->
  Js.trimEnd (String c r) = String c (Js.trimEnd r).
Proof.
  destruct r as [|c2 [|c3 r3]]; cbn.
  - destruct (Js.is_space c); [discriminate | reflexivity].
  - destruct (Js.is_space c); [discriminate|].
    destruct (Js.is_space2 c c2); [discriminate | reflexivity].
  - destruct (Js.is_space c); [discriminate|].
    destruct (Js.is_space2 c c2); [discriminate|].
    destruct (Js.is_space3 c c2 c3); [discriminate | reflexivity].
Qed.

Lemma white_not_empty (w : string) : In w white_space -> w <> "".
Proof.
  intros Hin. cbv [white_space] in Hin.
  repeat (destruct Hin as [<- | Hin]; [discriminate|]). destruct Hin.
Qed.

Lemma blank_app (a b : string) : blank a -> blank b -> blank (a ++ b).
Proof.
  intros Ha Hb. induction Ha as [|w s Hw Hs IH]; [exact Hb|].
  rewrite append_assoc. constructor; assumption.
Qed.

Lemma blank_one (w : string) : In w white_space -> blank w.
Proof.
  intros Hw. rewrite <- (append_empty w). constructor; [exact Hw | constructor].
Qed.

(** [trimStart] takes a blank beginning away. *)
Lemma trimStart_blank (ws t : string) :
  blank ws -> Js.trimStart (ws ++ t) = Js.trimStart t.
Proof.
  intros Hws. induction Hws as [|w s Hw Hs IH]; [reflexivity|].
  rewrite append_assoc, trimStart_step, (white_prefix_white w _ Hw). exact IH.
Qed.

Lemma white_prefix_shorter (s r : string) :
  Js.white_prefix s = Some r -> String.length r < String.length s.
Proof.
  intros H. apply white_prefix_Some in H as (w & Hw & ->).
  rewrite length_append. pose proof (white_not_empty w Hw).
  destruct w; [congruence | cbn; lia].
Qed.

(** What [trimStart] takes away is blank, and what it leaves does not begin
    with white space. *)
Lemma trimStart_decompose (s : string) :
  exists ws, s = ws ++ Js.trimStart s /\ blank ws /\
             Js.white_prefix (Js.trimStart s) = None.
Proof.
  assert (Hall : forall n s, String.length s <= n ->
            exists ws, s = ws ++ Js.trimStart s /\ blank ws /\
                       Js.white_prefix (Js.trimStart s) = None).
  { clear s. induction n as [|n IH]; intros s Hlen.
    - destruct s; [|cbn in Hlen; lia]. exists "". repeat split. constructor.
    - rewrite trimStart_step. destruct (Js.white_prefix s) as [r|] eqn:Hp.
      + pose proof (white_prefix_shorter _ _ Hp) as Hshort.
        apply white_prefix_Some in Hp as (w & Hw & ->).
        destruct (IH r) as (ws & Hr & Hblank & Hnone); [lia|].
        exists (w ++ ws). rewrite append_assoc, <- Hr.
        split; [reflexivity|]. split; [constructor; assumption | exact Hnone].
      + exists "". repeat split; [constructor | exact Hp]. }
  apply (Hall (String.length s)). lia.
Qed.

(** What [trimEnd] takes away is blank. *)
Lemma trimEnd_decompose (s : string) :
  exists ws, s = Js.trimEnd s ++ ws /\ blank ws.
Proof.
  assert (Hall : forall n s, String.length s <= n ->
            exists ws, s = Js.trimEnd s ++ ws /\ blank ws).
  { clear s. induction n as [|n IH]; intros s Hlen.
    - destruct s; [|cbn in Hlen; lia]. exists "". split; [reflexivity | constructor].
    - destruct (Js.white_prefix s) as [r|] eqn:Hp.
      + pose proof (white_prefix_shorter _ _ Hp) as Hshort.
        apply white_prefix_Some in Hp as (w & Hw & ->).
        destruct (IH r) as (ws & Hr & Hblank); [lia|].
        rewrite (trimEnd_white w r Hw). unfold Js.unless_last.
        destruct (String.eqb_spec (Js.trimEnd r) "") as [He | He].
        * exists (w ++ ws). rewrite He in Hr. cbn in Hr. subst r.
          split; [reflexivity | constructor; assumption].
        * exists ws. rewrite append_assoc, <- Hr. split; [reflexivity | exact Hblank].
      + destruct s as [|c r]; [exists ""; split; [reflexivity | constructor]|].
        cbn in Hlen. destruct (IH r) as (ws & Hr & Hblank); [lia|].
        rewrite (trimEnd_solid c r Hp). exists ws.
        rewrite append_cons, <- Hr. split; [reflexivity | exact Hblank]. }
  apply (Hall (String.length s)). lia.
Qed.

Lemma trimEnd_blank (b : string) : blank b -> Js.trimEnd b = "".
Proof.
  intros Hb. induction Hb as [|w s Hw Hs IH]; [reflexivity|].
  rewrite (trimEnd_white w s Hw), IH. reflexivity.
Qed.

(** [trim] takes a blank beginning and a blank end away. *)
Lemma trim_decompose (s : string) :
  exists ws ws', s = ws ++ Js.trim s ++ ws' /\ blank ws /\ blank ws'.
Proof.
  destruct (trimStart_decompose s) as (ws & Hs & Hws & _).
  destruct (trimEnd_decompose (Js.trimStart s)) as (ws' & Ht & Hws').
  exists ws, ws'. unfold Js.trim. rewrite <- Ht. auto.
Qed.

(** The texts that [trim] empties are the blank ones. *)
Lemma trim_empty (s : string) : Js.trim s = "" <-> blank s.
Proof.
  split.
  - intros He. destruct (trim_decompose s) as (ws & ws' & Hs & Hws & Hws').
    rewrite He in Hs. cbn in Hs. rewrite Hs. apply blank_app; assumption.
  - intros Hb. unfold Js.trim.
    rewrite <- (append_empty s), (trimStart_blank s "" Hb). reflexivity.
Qed.

Lemma white_lead_first (w r : string) :
  In w white_space -> exists c r', w ++ r = String c r' /\ white_lead c = true.
Proof.
  intros Hin. cbv [white_space] in Hin.
  repeat (destruct Hin as [<- | Hin]; [eexists _, _; split; reflexivity|]). destruct Hin.
Qed.

Lemma blank_first (b : string) :
  blank b -> b = "" \/ exists c r, b = String c r /\ white_lead c = true.
Proof.
  intros Hb. destruct Hb as [|w s Hw Hs]; [left; reflexivity|].
  right. apply white_lead_first, Hw.
Qed.

Lemma white_lead_not_second (c1 c2 : ascii) :
  white_lead c2 = true ->
  Js.is_space2 c1 c2 = false /\ forall c3, Js.is_space3 c1 c2 c3 = false.
Proof.
  unfold white_lead, Js.is_space, Js.is_space2, Js.is_space3. cbv zeta. intros H.
  assert (Hc : Js.code c2 <> 160 /\ Js.code c2 <> 154 /\ Js.code c2 <> 128
               /\ Js.code c2 <> 129 /\ Js.code c2 <> 187) by (split_bool; lia).
  clear H. split; [bool_false|]. intros c3. bool_false.
Qed.

Lemma white_lead_not_third (c1 c2 c3 : ascii) :
  white_lead c3 = true -> Js.is_space3 c1 c2 c3 = false.
Proof.
  unfold white_lead, Js.is_space, Js.is_space3. cbv zeta. intros H.
  assert (Hc : Js.code c3 < 128 \/ Js.code c3 >= 194) by (split_bool; lia).
  clear H. bool_false.
Qed.

(** A text that does not begin with white space does not begin with it
    either when a blank text is put after it. *)
Lemma white_prefix_solid_app (c : ascii) (r b : string) :
  blank b ->
  Js.white_prefix (String c r) = None ->
  Js.white_prefix (String c (r ++ b)) = None.
Proof.
  intros Hb. destruct (blank_first b Hb) as [-> | (cb & rb & -> & Hlead)].
  { rewrite append_empty. auto. }
  destruct (white_lead_not_second c cb Hlead) as [Hs2 Hs3].
  destruct r as [|c2 [|c3 r3]].
  - change ("" ++ String cb rb) with (String cb rb). cbn.
    destruct (Js.is_space c); [discriminate|]. intros _. rewrite Hs2.
    destruct rb; [reflexivity|]. rewrite Hs3. reflexivity.
  - change (String c2 "" ++ String cb rb) with (String c2 (String cb rb)). cbn.
    destruct (Js.is_space c); [discriminate|].
    destruct (Js.is_space2 c c2); [discriminate|]. intros _.
    rewrite (white_lead_not_third c c2 cb Hlead). reflexivity.
  - rewrite !append_cons. cbn.
    destruct (Js.is_space c); [discriminate|].
    destruct (Js.is_space2 c c2); [discriminate|].
    destruct (Js.is_space3 c c2 c3); [discriminate | reflexivity].
Qed.

(** [trimEnd] takes a blank end away. *)
Lemma trimEnd_app_blank (t b : string) :
  blank b -> Js.trimEnd (t ++ b) = Js.trimEnd t.
Proof.
  intros Hb.
  assert (Hall : forall n t, String.length t <= n -> Js.trimEnd (t ++ b) = Js.trimEnd t).
  { clear t. induction n as [|n IH]; intros t Hlen.
    - destruct t; [|cbn in Hlen; lia]. cbn. apply trimEnd_blank, Hb.
    - destruct (Js.white_prefix t) as [r|] eqn:Hp.
      + pose proof (white_prefix_shorter _ _ Hp) as Hshort.
        apply white_prefix_Some in Hp as (w & Hw & ->).
        rewrite append_assoc, !(trimEnd_white w _ Hw), (IH r) by lia. reflexivity.
      + destruct t as [|c r]; [cbn; apply trimEnd_blank, Hb|].
        cbn in Hlen. rewrite append_cons.
        rewrite (trimEnd_solid c (r ++ b) (white_prefix_solid_app c r b Hb Hp)).
        rewrite (trimEnd_solid c r Hp), (IH r) by lia. reflexivity. }
  apply (Hall (String.length t)). lia.
Qed.

(** [trim] gives back a text that is put between two blank ones, when it
    neither begins nor ends with white space. *)
Lemma trim_between (ws ws' : string) (c : ascii) (r : string) :
  blank ws -> blank ws' ->
  Js.white_prefix (String c r) = None ->
  Js.trimEnd (String c r) = String c r ->
  Js.trim (ws ++ String c r ++ ws') = String c r.
Proof.
  intros Hws Hws' Hfirst Hlast. unfold Js.trim.
  rewrite (trimStart_blank ws _ Hws), append_cons, trimStart_step.
  rewrite (white_prefix_solid_app c r ws' Hws' Hfirst).
  rewrite <- append_cons, (trimEnd_app_blank _ ws' Hws'). exact Hlast.
Qed.

Lemma white_last (w x : string) (d : ascii) :
  In w white_space -> w = x ++ String d "" -> Js.code d < 128 -> Js.is_space d = true.
Proof.
  intros Hin. cbv [white_space] in Hin.
  repeat (destruct Hin as [<- | Hin];
          [destruct x as [|x1 [|x2 [|x3 x4]]]; intros Heq Hcode;
           try (destruct x4; discriminate Heq);
           inversion Heq; subst;
           first [reflexivity | exfalso; vm_compute in Hcode; lia]|]).
  destruct Hin.
Qed.

Lemma append_last_cases (a b t : string) (d : ascii) :
  a ++ b = t ++ String d "" ->
  (b = "" /\ a = t ++ String d "") \/ (exists b', b = b' ++ String d "" /\ t = a ++ b').
Proof.
  revert t. induction a as [|x a IH]; intros t Heq.
  - right. exists t. split; [exact Heq | reflexivity].
  - rewrite append_cons in Heq. destruct t as [|y t].
    + change ("" ++ String d "") with (String d "") in Heq. injection Heq as -> Hab.
      destruct a; [|discriminate]. change ("" ++ b) with b in Hab. subst b.
      left. split; reflexivity.
    + rewrite append_cons in Heq. injection Heq as -> Hab.
      destruct (IH t Hab) as [[-> ->] | (b' & -> & ->)].
      * left. split; reflexivity.
      * right. exists b'. split; reflexivity.
Qed.

(** [trimEnd] leaves a text alone that ends with an ASCII character other
    than white space. *)
Lemma trimEnd_solid_end (t : string) (d : ascii) :
  Js.code d < 128 -> Js.is_space d = false ->
  Js.trimEnd (t ++ String d "") = t ++ String d "".
Proof.
  intros Hd Hspace.
  assert (Hall : forall n t, String.length t <= n ->
            Js.trimEnd (t ++ String d "") = t ++ String d "").
  { clear t. induction n as [|n IH]; intros t Hlen.
    - destruct t; [|cbn in Hlen; lia].
      change ("" ++ String d "") with (String d ""). cbn. rewrite Hspace. reflexivity.
    - destruct (Js.white_prefix (t ++ String d "")) as [rest|] eqn:Hp.
      + apply white_prefix_Some in Hp as (w & Hw & Heq).
        symmetry in Heq. destruct (append_last_cases _ _ _ _ Heq) as [[-> Hwd] | (r' & -> & ->)].
        * pose proof (white_last w t d Hw Hwd Hd). congruence.
        * rewrite append_assoc, (trimEnd_white w _ Hw).
          rewrite length_append in Hlen. pose proof (white_not_empty w Hw).
          rewrite (IH r') by (destruct w; [congruence | cbn in Hlen; lia]).
          unfold Js.unless_last. destruct r'; reflexivity.
      + destruct t as [|c r].
        * change ("" ++ String d "") with (String d ""). cbn. rewrite Hspace. reflexivity.
        * rewrite append_cons in *. cbn in Hlen.
          rewrite (trimEnd_solid c _ Hp), (IH r) by lia. reflexivity. }
  apply (Hall (String.length t)). lia.
Qed.

(** [trim] leaves a text alone that begins and ends with ASCII characters
    other than white space, and gives it back from between two blank texts. *)
Lemma trim_fixed_between (ws ws' body : string) (c d : ascii) :
  blank ws -> blank ws' ->
  Js.code c < 128 -> Js.is_space c = false ->
  Js.code d < 128 -> Js.is_space d = false ->
  Js.trim (ws ++ String c (body ++ String d "") ++ ws') = String c (body ++ String d "").
Proof.
  intros Hws Hws' Hc Hcs Hd Hds. apply trim_between; try assumption.
  - assert (H2 : forall c2, Js.is_space2 c c2 = false).
    { intros c2. unfold Js.is_space2. bool_false. }
    assert (H3 : forall c2 c3, Js.is_space3 c c2 c3 = false).
    { intros c2 c3. unfold Js.is_space3. cbv zeta. bool_false. }
    cbn. rewrite Hcs. destruct (body ++ String d "") as [|c2 [|c3 r3]]; [reflexivity | |].
    + rewrite H2. reflexivity.
    + rewrite H2, H3. reflexivity.
  - rewrite <- append_cons. apply trimEnd_solid_end; assumption.
Qed.

Lemma trim_fixed (c d : ascii) (body : string) :
  Js.code c < 128 -> Js.is_space c = false ->
  Js.code d < 128 -> Js.is_space d = false ->
  Js.trim (String c (body ++ String d "")) = String c (body ++ String d "").
Proof.
  intros Hc Hcs Hd Hds.
  pose proof (trim_fixed_between "" "" body c d blank_empty blank_empty Hc Hcs Hd Hds) as H.
  rewrite append_empty in H. exact H.
Qed.


Lemma trimEnd_idempotent (s : string) : Js.trimEnd (Js.trimEnd s) = Js.trimEnd s.
Proof.
  destruct (trimEnd_decompose s) as (b & Hs & Hb).
  rewrite Hs at 2. rewrite (trimEnd_app_blank _ b Hb). reflexivity.
Qed.

Lemma trimEnd_shorter (s : string) : String.length (Js.trimEnd s) <= String.length s.
Proof.
  destruct (trimEnd_decompose s) as (b & Hs & _).
  rewrite Hs at 2. rewrite length_append. lia.
Qed.

(** [trim] returns the text without the white space at its two ends. *)
Lemma trim_trimmed (s : string) : trimmed s (Js.trim s).
Proof.
  split; [apply trim_decompose|]. intros w r Hw. split.
  - intros Heq.
    assert (Hnone : Js.white_prefix (Js.trim s) = None).
    { unfold Js.trim. destruct (trimStart_decompose s) as (ws & _ & _ & Hsolid).
      destruct (trimEnd_decompose (Js.trimStart s)) as (b & Ht & Hb).
      destruct (Js.white_prefix (Js.trimEnd (Js.trimStart s))) as [rest|] eqn:Hq;
        [|reflexivity].
      exfalso. apply white_prefix_Some in Hq as (w' & Hw' & Hq).
      rewrite Ht, Hq, append_assoc, (white_prefix_white w' _ Hw') in Hsolid.
      discriminate. }
    rewrite Heq, (white_prefix_white w r Hw) in Hnone. discriminate.
  - intros Heq.
    assert (Hfix : Js.trimEnd (Js.trim s) = Js.trim s) by apply trimEnd_idempotent.
    rewrite Heq in Hfix. rewrite (trimEnd_app_blank r w (blank_one w Hw)) in Hfix.
    pose proof (trimEnd_shorter r) as Hlen. rewrite Hfix, length_append in Hlen.
    pose proof (white_not_empty w Hw) as Hne. destruct w; [congruence | cbn in Hlen; lia].
Qed.

Lemma blank_last (b : string) :
  blank b -> b = "" \/ exists b' w, blank b' /\ In w white_space /\ b = b' ++ w.
Proof.
  intros Hb. induction Hb as [|w s Hw Hs IH]; [left; reflexivity|]. right.
  destruct IH as [-> | (b' & w' & Hb' & Hw' & ->)].
  - exists "", w. split; [constructor|]. split; [exact Hw|]. apply append_empty.
  - exists (w ++ b'), w'. split; [constructor; assumption|]. split; [exact Hw'|].
    symmetry. apply append_assoc.
Qed.

(** There is one text without the white space at the two ends of a text:
    what [trim] returns. *)
Lemma trimmed_unique (s core : string) : trimmed s core -> core = Js.trim s.
Proof.
  intros [(ws & ws' & Hs & Hws & Hws') Hsolid].
  destruct core as [|c r].
  - symmetry. apply trim_empty. rewrite Hs. apply blank_app; assumption.
  - rewrite Hs. symmetry. apply trim_between; try assumption.
    + destruct (Js.white_prefix (String c r)) as [rest|] eqn:Hp; [|reflexivity].
      exfalso. apply white_prefix_Some in Hp as (w & Hw & Hp).
      exact (proj1 (Hsolid w rest Hw) Hp).
    + destruct (trimEnd_decompose (String c r)) as (b & Hb & Hblank).
      destruct (blank_last b Hblank) as [-> | (b' & w & _ & Hw & ->)].
      * rewrite append_empty in Hb. symmetry. exact Hb.
      * exfalso. rewrite <- append_assoc in Hb.
        exact (proj2 (Hsolid w _ Hw) Hb).
Qed.

(** *** Arrays *)

(** The cut of [addToHistory], at a limit that is a natural number. *)
Lemma cut_at_limit {A : Type} (n : nat) (l : list A) :
  (if Js.length_gt (List.length l) (Finite (Z.of_nat n) 1)
   then Js.splice (Finite (Z.of_nat n) 1) l else l) = List.firstn n l.
Proof.
  unfold Js.length_gt, Js.splice, Js.splice_start. cbv zeta.
  rewrite Z.quot_1_r.
  destruct (Z.ltb_spec (Z.of_nat n) (Z.of_nat (List.length l) * 1)) as [Hlt | Hge].
  - destruct (Z.ltb_spec (Z.of_nat n) 0) as [Hneg | _]; [lia|].
    rewrite Nat2Z.id, Nat.min_l by lia. reflexivity.
  - symmetry. apply List.firstn_all2. lia.
Qed.

(** At a negative limit the cut counts from the end of the list. *)
Lemma cut_from_end {A : Type} (k : positive) (l : list A) :
  (if Js.length_gt (List.length l) (Finite (Z.neg k) 1)
   then Js.splice (Finite (Z.neg k) 1) l else l)
  = List.firstn (List.length l - Pos.to_nat k) l.
Proof.
  unfold Js.length_gt, Js.splice, Js.splice_start. cbv zeta.
  rewrite Z.quot_1_r.
  destruct (Z.ltb_spec (Z.neg k) (Z.of_nat (List.length l) * 1)) as [_ | Hge]; [|lia].
  destruct (Z.ltb_spec (Z.neg k) 0) as [_ | Hpos]; [|lia].
  f_equal. lia.
Qed.

(** Whatever the limit is, the cut keeps a beginning of the list. *)
Lemma cut_is_prefix {A : Type} (m : jsnumber) (l : list A) :
  exists dropped,
    l = ((if Js.length_gt (List.length l) m then Js.splice m l else l) ++ dropped)%list.
Proof.
  destruct (Js.length_gt (List.length l) m).
  - exists (List.skipn (Js.splice_start (List.length l) m) l).
    unfold Js.splice. symmetry. apply List.firstn_skipn.
  - exists []. symmetry. apply List.app_nil_r.
Qed.

Section UpperFacts.
Context {unicode : Unicode} {tables : UnicodeLaws unicode}.

Lemma upper_char_is (k c : ascii) :
  Js.is_upper k = true ->
  Ascii.eqb k (Js.upper_char c) = true <-> same_letter k c.
Proof.
  unfold Js.is_upper, Js.upper_char, Js.is_lower, Js.code, same_letter.
  intros Hk. apply andb_true_iff in Hk as [Hk1 Hk2].
  apply Nat.leb_le in Hk1, Hk2.
  rewrite Ascii.eqb_eq.
  destruct ((97 <=? nat_of_ascii c) && (nat_of_ascii c <=? 122)) eqn:Hlow.
  - apply andb_true_iff in Hlow as [Hc1 Hc2]. apply Nat.leb_le in Hc1, Hc2. split.
    + intros ->. right. rewrite nat_ascii_embedding by lia. lia.
    + intros [-> | Hc]; [lia|].
      replace (nat_of_ascii c - 32) with (nat_of_ascii k) by lia.
      symmetry. apply ascii_nat_embedding.
  - split.
    + intros ->. left. reflexivity.
    + intros [-> | Hc]; [reflexivity|]. exfalso.
      apply andb_false_iff in Hlow as [Hc1 | Hc2].
      * apply Nat.leb_gt in Hc1. lia.
      * apply Nat.leb_gt in Hc2. lia.
Qed.

Lemma same_letter_ascii (k c : ascii) :
  Js.is_upper k = true -> same_letter k c -> Js.code c < 128.
Proof.
  unfold Js.is_upper, Js.code, same_letter. intros Hk [-> | Hc]; split_bool; lia.
Qed.

Lemma startsWith_app (up u kw : string) :
  Js.startsWith (up ++ u) kw = true <->
  (exists rest, up = kw ++ rest) \/ (exists kw', kw = up ++ kw' /\ Js.startsWith u kw' = true).
Proof.
  revert kw. induction up as [|x up IH]; intros kw.
  - change ("" ++ u) with u. split.
    + intros H. destruct kw; [left; exists ""; reflexivity|].
      right. eexists. split; [reflexivity | exact H].
    + intros [[rest Hr] | (kw' & -> & H)]; [|exact H].
      destruct kw; [destruct u; reflexivity | discriminate].
  - rewrite append_cons. destruct kw as [|k kw]; cbn.
    + split; [|reflexivity]. intros _. left. eexists. reflexivity.
    + rewrite andb_true_iff, Ascii.eqb_eq, IH. split.
      * intros [-> [[rest ->] | (kw' & -> & H)]].
        -- left. exists rest. reflexivity.
        -- right. exists kw'. split; [reflexivity | exact H].
      * intros [[rest Hr] | (kw' & Hk & H)].
        -- rewrite append_cons in Hr. injection Hr as -> ->. split; [reflexivity|].
           left. eexists. reflexivity.
        -- rewrite append_cons in Hk. injection Hk as -> ->. split; [reflexivity|].
           right. eexists. split; [reflexivity | exact H].
Qed.

(** The upper case of the listed characters, as [Js.toUpperCase] has it. *)
Lemma toUpperCase_spelling (ch up s : string) :
  In (ch, up) spellings -> Js.toUpperCase (ch ++ s) = up ++ Js.toUpperCase s.
Proof.
  intros Hin. cbv [spellings] in Hin.
  repeat (destruct Hin as [Heq | Hin]; [injection Heq as <- <-; reflexivity|]).
  destruct Hin.
Qed.

Lemma upper2_cases (c1 c2 : ascii) :
  (exists up, In (String c1 (String c2 ""), up) spellings /\ Js.upper2 c1 c2 = up) \/
  ((forall up, ~ In (String c1 (String c2 ""), up) spellings) /\
   Js.upper2 c1 c2 = upper_beyond (String c1 (String c2 ""))).
Proof.
  unfold Js.upper2. cbv zeta.
  repeat match goal with
  | |- context [if ?b then _ else _] =>
      destruct b eqn:?;
      [left; split_bool;
       repeat match goal with H : Js.code ?c = _ |- _ => apply ascii_of_code in H; subst c end;
       eexists; split; [cbv [spellings]; cbn; tauto | reflexivity]|]
  end.
  right. split; [|reflexivity].
  intros up Hin. cbv [spellings] in Hin.
  repeat (destruct Hin as [Heq | Hin]; [inversion Heq; subst; cbn in *; discriminate|]).
  destruct Hin.
Qed.

Lemma upper3_cases (c1 c2 c3 : ascii) :
  (exists up, In (String c1 (String c2 (String c3 "")), up) spellings /\
              Js.upper3 c1 c2 c3 = up) \/
  ((forall up, ~ In (String c1 (String c2 (String c3 "")), up) spellings) /\
   Js.upper3 c1 c2 c3 = upper_beyond (String c1 (String c2 (String c3 "")))).
Proof.
  unfold Js.upper3. cbv zeta.
  repeat match goal with
  | |- context [if ?b then _ else _] =>
      destruct b eqn:?;
      [left; split_bool;
       repeat match goal with H : Js.code ?c = _ |- _ => apply ascii_of_code in H; subst c end;
       eexists; split; [cbv [spellings]; cbn; tauto | reflexivity]|]
  end.
  right. split; [|reflexivity].
  intros up Hin. cbv [spellings] in Hin.
  repeat (destruct Hin as [Heq | Hin]; [inversion Heq; subst; cbn in *; discriminate|]).
  destruct Hin.
Qed.

Lemma startsWith_beyond (ch u kw : string) (c : ascii) (r : string) :
  ch = String c r -> 128 <= Js.code c ->
  (forall up, ~ In (ch, up) spellings) ->
  all_upper kw = true -> kw <> "" ->
  Js.startsWith (upper_beyond ch ++ u) kw = false.
Proof.
  intros -> Hc Hno Hkw Hne. destruct (upper_beyond_lead c r Hc Hno) as (b & r' & -> & Hb).
  destruct kw as [|k kw]; [congruence|]. rewrite append_cons. cbn.
  cbn in Hkw. apply andb_true_iff in Hkw as [Hk _].
  destruct (Ascii.eqb_spec k b) as [-> | _]; [|reflexivity].
  unfold Js.is_upper in Hk. split_bool. lia.
Qed.

Lemma all_upper_app (a b : string) :
  all_upper (a ++ b) = true -> all_upper b = true.
Proof.
  induction a as [|x a IH]; [auto|]. rewrite append_cons. cbn.
  intros H. apply andb_true_iff in H as [_ H]. auto.
Qed.

(** The test of the code, on the text in upper case, is the reading of the
    keyword in the text. *)
Lemma startsWith_toUpperCase (kw s : string) :
  all_upper kw = true ->
  Js.startsWith (Js.toUpperCase s) kw = true <-> reads_as kw s.
Proof.
  intros Hkw. split.
  - assert (Hall : forall n s kw, String.length s <= n -> all_upper kw = true ->
              Js.startsWith (Js.toUpperCase s) kw = true -> reads_as kw s).
    { clear s kw Hkw. induction n as [|n IH]; intros s kw Hlen Hkw Hs.
      - destruct s; [|cbn in Hlen; lia]. destruct kw; [constructor | discriminate].
      - destruct kw as [|k kw']; [constructor|].
        assert (Hspecial : forall ch up r,
                  In (ch, up) spellings -> String.length r <= n ->
                  Js.startsWith (up ++ Js.toUpperCase r) (String k kw') = true ->
                  reads_as (String k kw') (ch ++ r)).
        { intros ch up r Hin Hr Hstarts.
          apply startsWith_app in Hstarts as [[rest Hup] | (kw2 & Hk & Hrest)].
          - eapply reads_spelling_last; [exact Hin | discriminate | exact Hup].
          - rewrite Hk. apply reads_spelling; [exact Hin|].
            apply IH; [exact Hr | | exact Hrest].
            rewrite Hk in Hkw. apply all_upper_app in Hkw. exact Hkw. }
        assert (Hk : Js.is_upper k = true).
        { cbn in Hkw. apply andb_true_iff in Hkw as [Hk _]. exact Hk. }
        assert (Hk128 : Js.code k < 128).
        { unfold Js.is_upper in Hk. split_bool. lia. }
        destruct s as [|c1 r1]; [discriminate|]. cbn [String.length] in Hlen.
        cbn [Js.toUpperCase] in Hs.
        destruct (Nat.ltb_spec (Js.code c1) 128) as [Hascii | Hhigh].
        { cbn in Hs. apply andb_true_iff in Hs as [Hc Hr].
          apply reads_letter; [apply upper_char_is; assumption|].
          apply IH; [lia | | exact Hr].
          cbn in Hkw. apply andb_true_iff in Hkw as [_ Hkw]. exact Hkw. }
        assert (Hlead : forall r, Js.startsWith (String c1 r) (String k kw') = false).
        { intros r. cbn. destruct (Ascii.eqb_spec k c1) as [-> | _]; [lia | reflexivity]. }
        destruct r1 as [|c2 r2]; [rewrite Hlead in Hs; discriminate|].
        cbn [String.length] in Hlen.
        destruct (Nat.ltb_spec (Js.code c1) 224) as [Htwo | Hmore].
        { destruct (upper2_cases c1 c2) as [(up & Hin & Hup) | Hbeyond].
          - rewrite Hup in Hs.
            apply (Hspecial (String c1 (String c2 "")) up r2 Hin); [lia | exact Hs].
          - destruct Hbeyond as [Hno Hbeyond]. rewrite Hbeyond in Hs.
            rewrite (startsWith_beyond _ _ _ c1 (String c2 "") eq_refl Hhigh Hno Hkw) in Hs
              by discriminate.
            discriminate. }
        destruct r2 as [|c3 r3]; [rewrite Hlead in Hs; discriminate|].
        cbn [String.length] in Hlen.
        destruct (Nat.ltb_spec (Js.code c1) 240) as [Hthree | Hfour].
        { destruct (upper3_cases c1 c2 c3) as [(up & Hin & Hup) | Hbeyond].
          - rewrite Hup in Hs.
            apply (Hspecial (String c1 (String c2 (String c3 ""))) up r3 Hin); [lia | exact Hs].
          - destruct Hbeyond as [Hno Hbeyond]. rewrite Hbeyond in Hs.
            rewrite (startsWith_beyond _ _ _ c1 (String c2 (String c3 "")) eq_refl Hhigh
                       Hno Hkw) in Hs by discriminate.
            discriminate. }
        destruct r3 as [|c4 r4]; [rewrite Hlead in Hs; discriminate|].
        assert (Hno : forall up,
                  ~ In (String c1 (String c2 (String c3 (String c4 ""))), up) spellings).
        { intros up Hin. cbv [spellings] in Hin.
          repeat (destruct Hin as [Heq | Hin]; [discriminate Heq|]). destruct Hin. }
        rewrite (startsWith_beyond _ _ _ c1 (String c2 (String c3 (String c4 "")))
                   eq_refl Hhigh Hno Hkw) in Hs by discriminate.
        discriminate. }
    apply (Hall (String.length s)); [lia | exact Hkw].
  - intros Hr. induction Hr as [s | k c kw s Hsame Hr IH | kw ch up rest s Hin Hne Hup
                               | kw ch up s Hin Hr IH].
    + destruct (Js.toUpperCase s); reflexivity.
    + cbn in Hkw. apply andb_true_iff in Hkw as [Hk Hkw].
      pose proof (same_letter_ascii k c Hk Hsame) as Hc.
      cbn [Js.toUpperCase]. destruct (Nat.ltb_spec (Js.code c) 128); [|lia].
      cbn. rewrite (proj2 (upper_char_is k c Hk) Hsame), (IH Hkw). reflexivity.
    + rewrite (toUpperCase_spelling ch up s Hin). apply startsWith_app.
      left. exists rest. exact Hup.
    + rewrite (toUpperCase_spelling ch up s Hin). apply startsWith_app.
      right. exists kw. split; [reflexivity|]. apply IH.
      apply all_upper_app in Hkw. exact Hkw.
Qed.


Lemma reads_as_app (kw s t : string) : reads_as kw s -> reads_as kw (s ++ t).
Proof.
  intros Hr. induction Hr as [s | k c kw s Hsame Hr IH | kw ch up rest s Hin Hne Hup
                             | kw ch up s Hin Hr IH].
  - constructor.
  - rewrite append_cons. constructor; assumption.
  - rewrite append_assoc. eapply reads_spelling_last; eassumption.
  - rewrite append_assoc. apply reads_spelling; assumption.
Qed.

Lemma white_prefix_ascii (c : ascii) (r : string) :
  Js.code c < 128 -> Js.is_space c = false -> Js.white_prefix (String c r) = None.
Proof.
  intros Hc Hs.
  assert (H2 : forall c2, Js.is_space2 c c2 = false).
  { intros c2. unfold Js.is_space2. bool_false. }
  assert (H3 : forall c2 c3, Js.is_space3 c c2 c3 = false).
  { intros c2 c3. unfold Js.is_space3. cbv zeta. bool_false. }
  cbn. rewrite Hs. destruct r as [|c2 [|c3 r3]]; [reflexivity | |].
  - rewrite H2. reflexivity.
  - rewrite H2, H3. reflexivity.
Qed.

Lemma white_prefix_spelling (ch up s : string) :
  In (ch, up) spellings -> Js.white_prefix (ch ++ s) = None.
Proof.
  intros Hin. cbv [spellings] in Hin.
  repeat (destruct Hin as [Heq | Hin];
          [injection Heq as <- <-; destruct s as [|? [|? ?]]; reflexivity|]).
  destruct Hin.
Qed.

Lemma letter_not_white (k c : ascii) :
  Js.is_upper k = true -> same_letter k c ->
  Js.code c < 128 /\ Js.is_space c = false /\ white_lead c = false.
Proof.
  unfold Js.is_upper, same_letter, white_lead, Js.is_space, Js.code. cbv zeta.
  intros Hk Hc. split_bool.
  assert (65 <= nat_of_ascii c <= 122) by (destruct Hc as [-> | Hc]; lia).
  split; [lia|]. split; bool_false.
Qed.

(** A text that is read as a keyword does not begin with white space. *)
Lemma reads_as_solid (k : ascii) (kw body : string) :
  Js.is_upper k = true -> reads_as (String k kw) body ->
  Js.white_prefix body = None /\ body <> "".
Proof.
  intros Hk Hr. inversion Hr as [| k' c kw' s Hsame Hr' | kw' ch up rest s Hin Hne Hup
                                | kw' ch up s Hin Hr']; subst.
  - destruct (letter_not_white k c Hk Hsame) as (Hc & Hs & _).
    split; [apply white_prefix_ascii; assumption | discriminate].
  - split; [eapply white_prefix_spelling; eassumption|].
    cbv [spellings] in Hin.
    repeat (destruct Hin as [Heq | Hin]; [injection Heq as <- <-; discriminate|]).
    destruct Hin.
  - split; [eapply white_prefix_spelling; eassumption|].
    cbv [spellings] in Hin.
    repeat (destruct Hin as [Heq | Hin]; [injection Heq as <- <-; discriminate|]).
    destruct Hin.
Qed.

Lemma blank_lead_false (c : ascii) (r : string) :
  blank (String c r) -> white_lead c = false -> False.
Proof.
  intros Hb Hc. destruct (blank_first _ Hb) as [He | (c' & r' & He & Hlead)].
  - discriminate.
  - injection He as <- <-. congruence.
Qed.

Lemma blank_spelling (ch up s : string) :
  In (ch, up) spellings -> blank (ch ++ s) -> False.
Proof.
  intros Hin Hb. pose proof (white_prefix_spelling ch up s Hin) as Hnone.
  inversion Hb as [He | w s0 Hw Hs0 He].
  - rewrite <- He in Hnone. cbv [spellings] in Hin.
    repeat (destruct Hin as [Heq | Hin]; [injection Heq as <- <-; discriminate He|]).
    destruct Hin.
  - rewrite <- He, (white_prefix_white w s0 Hw) in Hnone. discriminate.
Qed.

(** A listed character at the head of a text that ends blank lies before
    the blank end. *)
Lemma spelling_prefix (ch up s p b : string) :
  In (ch, up) spellings -> blank b -> ch ++ s = p ++ b ->
  exists p', p = ch ++ p' /\ s = p' ++ b.
Proof.
  intros Hin Hb Heq.
  destruct p as [|p1 p].
  { exfalso. change ("" ++ b) with b in Heq. subst b. eapply blank_spelling; eassumption. }
  cbv [spellings] in Hin.
  repeat (destruct Hin as [Hch | Hin];
    [injection Hch as <- <-;
     rewrite !append_cons in Heq; injection Heq as <- Heq;
     (destruct p as [|p2 p];
      [exfalso; change ("" ++ b) with b in Heq; subst b;
       eapply blank_lead_false; [exact Hb | reflexivity]|]);
     rewrite ?append_cons in Heq; injection Heq as <- Heq;
     first
       [ (* the character has two bytes *)
         change ("" ++ s) with s in Heq; exists p; split; [reflexivity | exact Heq]
       | (* the character has three bytes *)
         (destruct p as [|p3 p];
          [exfalso; change ("" ++ b) with b in Heq; subst b;
           eapply blank_lead_false; [exact Hb | reflexivity]|]);
         rewrite ?append_cons in Heq; injection Heq as <- Heq;
         change ("" ++ s) with s in Heq; exists p; split; [reflexivity | exact Heq] ]|]).
  destruct Hin.
Qed.

(** What is read as a keyword is read in the text without its blank end. *)
Lemma reads_as_unblank (kw p b : string) :
  all_upper kw = true -> blank b -> reads_as kw (p ++ b) -> reads_as kw p.
Proof.
  intros Hkw Hb Hr. remember (p ++ b) as s eqn:Hs. revert p Hs.
  induction Hr as [s | k c kw s Hsame Hr IH | kw ch up rest s Hin Hne Hup
                  | kw ch up s Hin Hr IH]; intros p Hs.
  - constructor.
  - cbn in Hkw. apply andb_true_iff in Hkw as [Hk Hkw].
    destruct p as [|c' p'].
    + exfalso. change ("" ++ b) with b in Hs. subst b.
      destruct (letter_not_white k c Hk Hsame) as (_ & _ & Hlead).
      eapply blank_lead_false; eassumption.
    + rewrite append_cons in Hs. injection Hs as <- ->.
      constructor; [exact Hsame | apply IH; [exact Hkw | reflexivity]].
  - destruct (spelling_prefix ch up s p b Hin Hb Hs) as (p' & -> & _).
    eapply reads_spelling_last; eassumption.
  - destruct (spelling_prefix ch up s p b Hin Hb Hs) as (p' & -> & ->).
    apply reads_spelling; [exact Hin|]. apply IH; [|reflexivity].
    apply all_upper_app in Hkw. exact Hkw.
Qed.

(** The statements that the test of [executeQuery] takes for read ones. *)
Lemma reads_trimmed (kw query : string) (k : ascii) (kw' : string) :
  kw = String k kw' -> all_upper kw = true ->
  Js.startsWith (Js.toUpperCase (Js.trim query)) kw = true <->
  exists ws body, query = ws ++ body /\ blank ws /\ reads_as kw body.
Proof.
  intros Hk Hkw. rewrite (startsWith_toUpperCase kw _ Hkw). split.
  - intros Hr. destruct (trim_decompose query) as (ws & ws' & Hq & Hws & _).
    exists ws, (Js.trim query ++ ws'). split; [exact Hq|]. split; [exact Hws|].
    apply reads_as_app, Hr.
  - intros (ws & body & -> & Hws & Hr).
    assert (Hupper : Js.is_upper k = true).
    { subst kw. cbn in Hkw. apply andb_true_iff in Hkw as [H _]. exact H. }
    pose proof Hr as Hsolid. rewrite Hk in Hsolid.
    apply (reads_as_solid k kw' body Hupper) in Hsolid as [Hnone _].
    unfold Js.trim. rewrite (trimStart_blank ws body Hws), trimStart_step, Hnone.
    destruct (trimEnd_decompose body) as (b & Hbody & Hb).
    apply (reads_as_unblank kw _ b Hkw Hb). rewrite <- Hbody. exact Hr.
Qed.

End UpperFacts.

(** ** Strings and their bytes *)

Section Utf8Facts.

Lemma utf8_bytes_copy (c : ascii) (r : string) :
  Js.code c <> 237 ->
  Js.utf8_bytes (String c r) = String c (Js.utf8_bytes r).
Proof.
  intros Hc. destruct r as [|c2 [|c3 r3]]; try reflexivity.
  cbn [Js.utf8_bytes]. unfold Js.is_surrogate.
  destruct (Nat.eqb_spec (Js.code c) 237); [contradiction | reflexivity].
Qed.

Lemma utf8_bytes_copy_ED (c c2 : ascii) (r : string) :
  Js.code c2 < 160 ->
  Js.utf8_bytes (String c (String c2 r)) = String c (Js.utf8_bytes (String c2 r)).
Proof.
  intros Hc2. destruct r as [|c3 r3]; try reflexivity.
  cbn [Js.utf8_bytes]. unfold Js.is_surrogate.
  destruct (Nat.leb_spec 160 (Js.code c2)); [lia|].
  rewrite andb_false_r. reflexivity.
Qed.

Lemma continuation_code (c : ascii) :
  Js.is_continuation c = true -> 128 <= Js.code c <= 191.
Proof.
  unfold Js.is_continuation. intros H. apply andb_true_iff in H as [H1 H2].
  apply Nat.leb_le in H1, H2. lia.
Qed.

Lemma second_byte_code (c1 c2 : ascii) :
  Js.second_byte c1 c2 = true ->
  128 <= Js.code c2 <= 191 /\ (Js.code c1 = 237 -> Js.code c2 < 160).
Proof.
  unfold Js.second_byte, Js.is_continuation.
  destruct (Nat.eqb_spec (Js.code c1) 224);
  [|destruct (Nat.eqb_spec (Js.code c1) 237);
    [|destruct (Nat.eqb_spec (Js.code c1) 240);
      [|destruct (Nat.eqb_spec (Js.code c1) 244)]]];
  intros H; apply andb_true_iff in H as [H1 H2]; apply Nat.leb_le in H1, H2; lia.
Qed.

(** A well-formed string is its own UTF-8. *)
Lemma utf8_bytes_well_formed (s : string) :
  Js.isWellFormed s = true -> Js.utf8_bytes s = s.
Proof.
  assert (Hall : forall n s, String.length s <= n ->
                   Js.isWellFormed s = true -> Js.utf8_bytes s = s).
  { clear s. induction n as [|n IH]; intros s Hlen Hwf.
    - destruct s; [reflexivity | cbn in Hlen; lia].
    - destruct s as [|c1 r1]; [reflexivity|].
      cbn [Js.isWellFormed] in Hwf. cbn [String.length] in Hlen.
      destruct (Nat.ltb_spec (Js.code c1) 128) as [Hascii | Hhigh].
      { rewrite utf8_bytes_copy by lia. rewrite (IH r1) by (lia || exact Hwf). reflexivity. }
      destruct r1 as [|c2 r2]; [discriminate|]. cbn [String.length] in Hlen.
      destruct ((194 <=? Js.code c1) && (Js.code c1 <=? 223)) eqn:Htwo.
      { apply andb_true_iff in Htwo as [H1 H2]. apply Nat.leb_le in H1, H2.
        apply andb_true_iff in Hwf as [Hc2 Hwf]. apply continuation_code in Hc2.
        rewrite utf8_bytes_copy by lia. rewrite utf8_bytes_copy by lia.
        rewrite (IH r2) by (lia || exact Hwf). reflexivity. }
      destruct r2 as [|c3 r3]; [discriminate|]. cbn [String.length] in Hlen.
      destruct ((224 <=? Js.code c1) && (Js.code c1 <=? 239)) eqn:Hthree.
      { apply andb_true_iff in Hwf as [Hwf Hr3]. apply andb_true_iff in Hwf as [Hc2 Hc3].
        apply second_byte_code in Hc2 as [Hc2 Hed]. apply continuation_code in Hc3.
        destruct (Nat.eq_dec (Js.code c1) 237) as [He | He].
        - rewrite utf8_bytes_copy_ED by (apply Hed, He).
          rewrite utf8_bytes_copy by lia. rewrite utf8_bytes_copy by lia.
          rewrite (IH r3) by (lia || exact Hr3). reflexivity.
        - rewrite utf8_bytes_copy by exact He.
          rewrite utf8_bytes_copy by lia. rewrite utf8_bytes_copy by lia.
          rewrite (IH r3) by (lia || exact Hr3). reflexivity. }
      destruct r3 as [|c4 r4]; [discriminate|]. cbn [String.length] in Hlen.
      apply andb_true_iff in Hwf as [Hwf Hr4]. apply andb_true_iff in Hwf as [Hwf Hc4].
      apply andb_true_iff in Hwf as [Hwf Hc3]. apply andb_true_iff in Hwf as [Hwf Hc2].
      apply andb_true_iff in Hwf as [H1 H2]. apply Nat.leb_le in H1, H2.
      apply second_byte_code in Hc2 as [Hc2 _].
      apply continuation_code in Hc3, Hc4.
      rewrite utf8_bytes_copy by lia. rewrite utf8_bytes_copy by lia.
      rewrite utf8_bytes_copy by lia. rewrite utf8_bytes_copy by lia.
      rewrite (IH r4) by (lia || exact Hr4). reflexivity. }
  apply (Hall (String.length s) s). lia.
Qed.

End Utf8Facts.

(** ** Envelope encryption *)

Section CryptoFacts.
Context {node : NodeCrypto} {codec : CodecLaws node}.

(** What [decrypt] computes on an envelope made by [encrypt]: the decipher is
    keyed from the second passphrase and the salt of the envelope, and is
    given the tag and the bytes of the cipher. *)
Lemma decrypt_encrypt_unfold (text p1 p2 salt iv : string) :
  Crypto.decrypt (Crypto.encrypt text p1 salt iv) p2 =
  match decipher_final (derived_key p2 salt) iv
          (cipher_getAuthTag (derived_key p1 salt) iv (Js.utf8_bytes text))
          (cipher_text (derived_key p1 salt) iv (Js.utf8_bytes text)) with
  | Throw e => Throw e
  | Ok tail =>
      Ok (decipher_update (derived_key p2 salt) iv
            (cipher_text (derived_key p1 salt) iv (Js.utf8_bytes text)) ++ tail)
  end.
Proof.
  unfold Crypto.decrypt, Crypto.encrypt, derived_key.
  rewrite base64_decode_encode, JSON_parse_stringify_envelope. simpl.
  rewrite !base64_decode_encode. reflexivity.
Qed.

(** When the tag of the envelope does not verify under the key derived from
    the second passphrase, which [final] reports by throwing, [decrypt]
    throws that error and returns no text: what [update] had released is
    dropped. *)
Lemma decrypt_rejects_unverified_tag (s p1 p2 salt iv : string) (e : JsError) :
  decipher_final (derived_key p2 salt) iv
    (cipher_getAuthTag (derived_key p1 salt) iv (Js.utf8_bytes s))
    (cipher_text (derived_key p1 salt) iv (Js.utf8_bytes s)) = Throw e ->
  Crypto.decrypt (Crypto.encrypt s p1 salt iv) p2 = Throw e.
Proof.
  intros Hfinal. rewrite decrypt_encrypt_unfold, Hfinal. reflexivity.
Qed.

Context {cipher : CipherLaws node}.

Lemma derived_key_length (password salt : string) :
  String.length (derived_key password salt) = 32.
Proof. unfold derived_key. rewrite scryptSync_length. reflexivity. Qed.

(** A passphrase that derives the key of the envelope opens it, and what
    comes out is the UTF-8 of the text. *)
Lemma decrypt_with_key_of_envelope (s p1 p2 salt iv : string) :
  String.length iv = Crypto.IV_LENGTH ->
  Js.isWellFormed (Js.utf8_bytes s) = true ->
  derived_key p2 salt = derived_key p1 salt ->
  Crypto.decrypt (Crypto.encrypt s p1 salt iv) p2 = Ok (Js.utf8_bytes s).
Proof.
  intros Hiv Hwf Hkey. rewrite decrypt_encrypt_unfold, Hkey.
  destruct (gcm_decipher_cipher (derived_key p1 salt) iv (Js.utf8_bytes s))
    as (tail & Hfinal & Htext).
  - apply derived_key_length.
  - exact Hiv.
  - exact Hwf.
  - rewrite Hfinal, Htext. reflexivity.
Qed.

(** A passphrase that derives the key of the envelope opens it. *)
Lemma decrypt_with_same_key (s p1 p2 salt iv : string) :
  String.length iv = Crypto.IV_LENGTH ->
  Js.isWellFormed s = true ->
  derived_key p2 salt = derived_key p1 salt ->
  Crypto.decrypt (Crypto.encrypt s p1 salt iv) p2 = Ok s.
Proof.
  intros Hiv Hwf Hkey.
  rewrite <- (utf8_bytes_well_formed s Hwf) at 2.
  apply decrypt_with_key_of_envelope; [exact Hiv | | exact Hkey].
  rewrite (utf8_bytes_well_formed s Hwf). exact Hwf.
Qed.


(** A passphrase followed by a NUL character opens what the passphrase sealed. *)
Lemma decrypt_with_nul_suffix {keying : ScryptKeying node} (s p salt iv : string) :
  String.length p < 64 ->
  Js.utf8_bytes p = p ->
  Js.utf8_bytes (p ++ String zero "") = p ++ String zero "" ->
  String.length iv = Crypto.IV_LENGTH ->
  Js.isWellFormed s = true ->
  Crypto.decrypt (Crypto.encrypt s p salt iv) (p ++ String zero "") = Ok s.
Proof.
  intros Hp Hbytes Hbytes' Hiv Hwf. apply decrypt_with_same_key; [exact Hiv | exact Hwf |].
  unfold derived_key. rewrite Hbytes, Hbytes'.
  apply scryptSync_hmac_key_padding, Hp.
Qed.

Context {authentication : GcmAuthentication node}.


End CryptoFacts.

(** ** Credential store *)

Section StoreFacts.
Context {node : NodeCrypto}.

Lemma getConfig_recognized (config : ConnectionConfig) :
  recognized (cfg_type config) ->
  matching_payload config (SecureStore.getConfig config (cfg_type config)).
Proof.
  unfold SecureStore.getConfig.
  intros [Ht | [Ht | [Ht | Ht]]]; rewrite Ht; cbn.
  - apply payload_postgresql, Ht.
  - apply payload_mongodb, Ht.
  - apply payload_mysql, Ht.
  - apply payload_sqlite3, Ht.
Qed.

Lemma getConfig_unrecognized (config : ConnectionConfig) :
  ~ recognized (cfg_type config) ->
  SecureStore.getConfig config (cfg_type config) = VNull.
Proof.
  unfold recognized, SecureStore.getConfig. intros Hn.
  repeat match goal with
  | |- context [String.eqb ?a ?b] =>
      destruct (String.eqb_spec a b); [exfalso; apply Hn; auto | ]
  end.
  reflexivity.
Qed.

Lemma recognized_dec (dbType : string) : recognized dbType \/ ~ recognized dbType.
Proof.
  unfold recognized.
  destruct (string_dec dbType POSTGRESQL); [auto|].
  destruct (string_dec dbType MONGODB); [auto|].
  destruct (string_dec dbType MYSQL); [auto|].
  destruct (string_dec dbType SQLITE3); [auto|].
  right. intuition.
Qed.

Lemma getConfig_defined (config : ConnectionConfig) :
  payload_present config ->
  SecureStore.getConfig config (cfg_type config) <> VUndefined.
Proof.
  intros Hp. destruct (recognized_dec (cfg_type config)) as [Hr | Hn].
  - apply Hp, getConfig_recognized, Hr.
  - rewrite (getConfig_unrecognized _ Hn). discriminate.
Qed.

Lemma records_with_id_app (id : string) (store extra : SecureStore.Store) :
  records_with_id id (store ++ extra)%list = records_with_id id store + records_with_id id extra.
Proof.
  unfold records_with_id. rewrite List.filter_app, List.length_app. reflexivity.
Qed.

Context {laws : StringifyLaws node}.

(** C9. Saving a configuration whose payload is present keeps every stored
    record where it was and puts exactly one record after them, with the id,
    name and type of the configuration; ids are not compared, so a second
    save under the same id puts a second record with that id after the first. *)
Theorem saveEncrypted_appends_one_record
    (config : ConnectionConfig) (encryptionKey salt iv : string) (store : SecureStore.Store) :
  payload_present config ->
  exists record,
    SecureStore.saveEncryptedConnection config encryptionKey salt iv store
      = Ok (store ++ [record])%list /\
    sc_id record = cfg_id config /\
    sc_name record = cfg_name config /\
    sc_type record = cfg_type config /\
    records_with_id (cfg_id config) (store ++ [record])%list =
      S (records_with_id (cfg_id config) store) /\
    forall config' encryptionKey' salt' iv',
      payload_present config' ->
      cfg_id config' = cfg_id config ->
      exists record',
        SecureStore.saveEncryptedConnection config' encryptionKey' salt' iv' (store ++ [record])%list
          = Ok (store ++ [record; record'])%list /\
        sc_id record' = sc_id record /\
        records_with_id (cfg_id config) (store ++ [record; record'])%list =
          S (S (records_with_id (cfg_id config) store)).
Proof.
  intros Hp.
  assert (Hsave : forall cfg key s i st, payload_present cfg ->
            exists r, SecureStore.saveEncryptedConnection cfg key s i st = Ok (st ++ [r])%list /\
                      sc_id r = cfg_id cfg /\ sc_name r = cfg_name cfg /\ sc_type r = cfg_type cfg).
  { intros cfg key s i st Hcfg. unfold SecureStore.saveEncryptedConnection.
    destruct (JSON_stringify_defined _ (getConfig_defined cfg Hcfg)) as [text Htext].
    rewrite Htext. eexists. split; [reflexivity|]. cbn. auto. }
  destruct (Hsave config encryptionKey salt iv store Hp) as (record & Hs & Hid & Hname & Htype).
  exists record. repeat split; try assumption.
  - rewrite records_with_id_app. unfold records_with_id at 2. cbn.
    rewrite Hid, String.eqb_refl. cbn. lia.
  - intros config' key' salt' iv' Hp' Hsame.
    destruct (Hsave config' key' salt' iv' (store ++ [record])%list Hp')
      as (record' & Hs' & Hid' & _ & _).
    exists record'. rewrite Hs', <- List.app_assoc. cbn. repeat split.
    + congruence.
    + change (store ++ [record; record'])%list with (store ++ ([record] ++ [record']))%list.
      rewrite !records_with_id_app. unfold records_with_id at 2 3. cbn.
      rewrite Hid, Hid', Hsame, String.eqb_refl. cbn. lia.
Qed.

End StoreFacts.

(** ** Handlers *)

Section HandlerFacts.
Import ErrorHandler.
Context {node : NodeCrypto} {C : Type} `{DatabaseClient C}.

(** An error without a code is always translated: [handleDatabaseError] throws
    only on a numeric code. *)
Lemma handleDatabaseError_without_code (error : JsError) (context : option ErrorContext) :
  err_code error = None ->
  exists appError, handleDatabaseError error context = Ok appError.
Proof.
  intros Hcode. unfold handleDatabaseError, code_is. rewrite Hcode. cbn.
  repeat match goal with
  | |- context [if ?b then _ else _] => destruct b
  end; eexists; reflexivity.
Qed.

Lemma respond_database_error_without_code (error : JsError) (context : ErrorContext) :
  err_code error = None ->
  is_failure (Handlers.respond_database_error error context).
Proof.
  intros Hcode. unfold Handlers.respond_database_error.
  destruct (handleDatabaseError_without_code error (Some context) Hcode) as [appError ->].
  unfold is_failure, formatErrorResponse. repeat eexists.
Qed.

Lemma createDatabaseClient_unrecognized (config : ConnectionConfig) :
  ~ recognized (cfg_type config) ->
  Db.createDatabaseClient (C := C) config =
    Throw (Error ("Unsupported database type: " ++ cfg_type config)).
Proof.
  unfold recognized, Db.createDatabaseClient. intros Hn.
  repeat match goal with
  | |- context [String.eqb ?a ?b] =>
      destruct (String.eqb_spec a b); [exfalso; apply Hn; auto | ]
  end.
  reflexivity.
Qed.

(** C4, as amended. For a configuration of one of the four types,
    [saveEncryptedConnection] encrypts the payload of that type and no other
    (and throws, storing nothing, when [JSON.stringify] has no text for it).
    A configuration of any other type is refused on the save path by the
    client factory: SAVE_CONNECTION answers with a failure and leaves the
    process state as it was. *)
Theorem save_routes_payload_by_type
    (config : ConnectionConfig) (encryptionKey salt iv : string) :
  (recognized (cfg_type config) ->
   forall store : SecureStore.Store,
   exists payload,
     matching_payload config payload /\
     SecureStore.saveEncryptedConnection config encryptionKey salt iv store =
     match JSON_stringify payload with
     | Some text =>
         Ok (store ++ [ {| sc_id := cfg_id config; sc_name := cfg_name config;
                           sc_type := cfg_type config;
                           sc_encryptedConfig := Crypto.encrypt text encryptionKey salt iv |} ])%list
     | None => Throw SecureStore.invalid_data_argument
     end) /\
  (~ recognized (cfg_type config) ->
   forall w : World C,
     is_failure (fst (Handlers.SAVE_CONNECTION config encryptionKey salt iv w)) /\
     snd (Handlers.SAVE_CONNECTION config encryptionKey salt iv w) = w).
Proof.
  split.
  - intros Hr store. exists (SecureStore.getConfig config (cfg_type config)).
    split; [apply getConfig_recognized, Hr|].
    unfold SecureStore.saveEncryptedConnection.
    destruct (JSON_stringify _); reflexivity.
  - intros Hn w. unfold Handlers.SAVE_CONNECTION.
    rewrite (createDatabaseClient_unrecognized config Hn). cbn [fst snd].
    split; [|reflexivity].
    destruct (_ || _).
    + unfold is_failure, formatErrorResponse. repeat eexists.
    + apply respond_database_error_without_code. reflexivity.
Qed.

(** The [catch] block of CONNECT_DB never answers with a success. *)
Ltac caught_is_no_success :=
  let Heq := fresh "Heq" in
  let Hr := fresh "Hr" in
  intros Heq; injection Heq as Hr _; revert Hr;
  destruct (_ || _); [discriminate|];
  unfold Handlers.respond_database_error;
  destruct (handleDatabaseError _ _); discriminate.

(** The first of two connects: a fresh connect leaves a live entry that holds
    the schema it answered with, constructs one client and keeps the store. *)
Lemma connect_installs_entry (id encryptionKey : string) (w w1 : World C) (tables : jsval) :
  Handlers.CONNECT_DB id encryptionKey w =
    (Ok (Success [("tables", tables)] (Some "Connected successfully")), w1) ->
  connections w1 = connections w /\
  clients_constructed w1 = S (clients_constructed w) /\
  exists instance, ACTIVE_CLIENTS w1 !! id = Some instance /\ ci_tables instance = tables.
Proof.
  unfold Handlers.CONNECT_DB.
  destruct (SecureStore.getDecryptedConnection _ _ _) as [config | e].
  2: caught_is_no_success.
  destruct (Manager.getActiveClient id w); [discriminate|].
  unfold Manager.getSchemaVisualization.
  destruct (Db.createDatabaseClient config) as [client | e].
  2: caught_is_no_success.
  destruct (client_connect client) as [[[] | e] client'].
  2: caught_is_no_success.
  destruct (client_getSchemaVisualization client') as [[tables' | e] client''].
  2: caught_is_no_success.
  intros Heq. injection Heq as Ht Hw. subst w1 tables'. cbn.
  split; [reflexivity|]. split.
  - unfold clients_constructed. cbn. rewrite !List.filter_app, !List.length_app. cbn. lia.
  - eexists. rewrite lookup_insert_eq. split; reflexivity.
Qed.

(** The errors of [getDecryptedConnection] carry no code. *)
Lemma getDecryptedConnection_error (id encryptionKey : string) (store : SecureStore.Store)
    (e : JsError) :
  SecureStore.getDecryptedConnection id encryptionKey store = Throw e -> err_code e = None.
Proof.
  unfold SecureStore.getDecryptedConnection.
  destruct (List.find _ _) as [conn|]; [|intros Heq; injection Heq as <-; reflexivity].
  destruct (Crypto.decrypt _ _) as [text|]; [|intros Heq; injection Heq as <-; reflexivity].
  destruct (JSON_parse text); [discriminate|].
  intros Heq; injection Heq as <-; reflexivity.
Qed.

(** C3, as amended. While an id has a live entry, the connect path constructs
    no client and leaves the registry, and the whole process state, as it
    was, whatever it answers; when the stored record of the id decrypts under
    the given key, the answer is the schema cached in the entry
    ([tables || []], the cached value itself when it is an array), and when
    it does not, or the record is gone, the answer is an error response. *)
Theorem connect_reuses_live_client
    (id encryptionKey : string) (w : World C) (existing : ClientInstance C) :
  ACTIVE_CLIENTS w !! id = Some existing ->
  snd (Handlers.CONNECT_DB id encryptionKey w) = w /\
  clients_constructed (snd (Handlers.CONNECT_DB id encryptionKey w)) = clients_constructed w /\
  (forall config,
     SecureStore.getDecryptedConnection id encryptionKey (connections w) = Ok config ->
     fst (Handlers.CONNECT_DB id encryptionKey w) =
       Ok (Success [("tables", Handlers.tables_or_empty existing)] None)) /\
  (forall e,
     SecureStore.getDecryptedConnection id encryptionKey (connections w) = Throw e ->
     is_failure (fst (Handlers.CONNECT_DB id encryptionKey w))) /\
  (isArray (ci_tables existing) = true ->
   Handlers.tables_or_empty existing = ci_tables existing).
Proof.
  intros Hlive.
  assert (Hsame : snd (Handlers.CONNECT_DB id encryptionKey w) = w).
  { unfold Handlers.CONNECT_DB, Manager.getActiveClient.
    destruct (SecureStore.getDecryptedConnection _ _ _); [|reflexivity].
    rewrite Hlive. reflexivity. }
  split; [exact Hsame|]. split; [rewrite Hsame; reflexivity|]. split; [|split].
  - intros config Hconfig. unfold Handlers.CONNECT_DB, Manager.getActiveClient.
    rewrite Hconfig, Hlive. reflexivity.
  - intros e He. pose proof (getDecryptedConnection_error _ _ _ _ He) as Hcode.
    unfold Handlers.CONNECT_DB. rewrite He. cbn [fst].
    destruct (_ || _).
    + unfold is_failure, formatErrorResponse. repeat eexists.
    + apply respond_database_error_without_code. exact Hcode.
  - unfold Handlers.tables_or_empty, or_else.
    destruct (ci_tables existing); cbn; congruence.
Qed.

(** Two connects in succession with the same key: the second answers with the
    schema of the first and constructs nothing. *)
Lemma connect_twice (id encryptionKey : string) (w w1 : World C) (tables : jsval) :
  Handlers.CONNECT_DB id encryptionKey w =
    (Ok (Success [("tables", tables)] (Some "Connected successfully")), w1) ->
  Handlers.CONNECT_DB id encryptionKey w1 =
    (Ok (Success [("tables", or_else tables (VArr []))] None), w1).
Proof.
  intros Hfirst.
  destruct (connect_installs_entry _ _ _ _ _ Hfirst) as (Hstore & _ & instance & Hlive & Htables).
  assert (Hdec : exists config,
            SecureStore.getDecryptedConnection id encryptionKey (connections w1) = Ok config).
  { rewrite Hstore. revert Hfirst. unfold Handlers.CONNECT_DB.
    destruct (SecureStore.getDecryptedConnection _ _ _) as [config | e]; [eauto|].
    caught_is_no_success. }
  destruct Hdec as [config Hconfig].
  unfold Handlers.CONNECT_DB, Manager.getActiveClient.
  rewrite Hconfig, Hlive. unfold Handlers.tables_or_empty. rewrite Htables. reflexivity.
Qed.

(** After [removeActiveClient(id)] the id has no live entry, whatever
    [disconnect] did. *)
Lemma removeActiveClient_removes (id : string) (w : World C) :
  Manager.getActiveClient id (Manager.removeActiveClient id w) = None.
Proof.
  unfold Manager.getActiveClient, Manager.removeActiveClient.
  destruct (ACTIVE_CLIENTS w !! id) as [instance|] eqn:Hlive; [|exact Hlive].
  cbn. destruct (String.eqb (ci_type instance) POSTGRESQL).
  - destruct (client_disconnect (ci_client instance)) as [? ?]. cbn. apply lookup_delete_eq.
  - apply lookup_delete_eq.
Qed.

(** C7. Without a live entry for the id, RUN_QUERY answers at once with the
    error of code NO_ACTIVE_CONNECTION, flagged retryable; it constructs no
    client, runs nothing and leaves the registry, the history and the rest of
    the process state as they were. *)
Theorem run_query_without_live_client (id query elapsed : string) (w : World C) :
  ACTIVE_CLIENTS w !! id = None ->
  Handlers.RUN_QUERY id query elapsed w =
    (Ok (Failure "No active database connection found. Please connect to a database first."
           CONNECTION_ERROR (Some (CodeStr "NO_ACTIVE_CONNECTION")) true None), w) /\
  clients_constructed (snd (Handlers.RUN_QUERY id query elapsed w)) = clients_constructed w /\
  ACTIVE_CLIENTS (snd (Handlers.RUN_QUERY id query elapsed w)) = ACTIVE_CLIENTS w.
Proof.
  intros Habsent.
  assert (Hrun : Handlers.RUN_QUERY id query elapsed w =
                 (Ok (formatErrorResponse (Handlers.no_active_connection id)), w)).
  { unfold Handlers.RUN_QUERY, Manager.getActiveClient. rewrite Habsent. reflexivity. }
  rewrite Hrun. cbn. auto.
Qed.


End HandlerFacts.

(** ** MongoDB query interpreter *)

Section MongoFacts.
Context {driver : MongoDriver}.

(** A query that the find pattern does not match and that no accepted
    aggregate call matches is refused before the driver is asked anything. *)
Lemma executeQuery_refused (query : string) :
  Mongodb.parse_query query = Throw Mongodb.invalid_format ->
  Mongodb.executeQuery query = (Throw Mongodb.invalid_format, []).
Proof.
  intros Hparse. unfold Mongodb.executeQuery. rewrite Hparse. reflexivity.
Qed.

(** C5, as amended. A query that matches the generic pattern with a method
    other than [aggregate], and not the find pattern, is refused before the
    collection is opened: no call reaches the driver. The error is the one
    thrown for a query that matches neither pattern, with the same message;
    there is no separate error for an unsupported operation. *)
Theorem unsupported_operation_refused
    (query collectionName operation paramsStr : string) :
  Mongodb.match_collection (Js.trim query) = Some (collectionName, operation, paramsStr) ->
  operation <> "aggregate" ->
  Mongodb.match_find (Js.trim query) = None ->
  Mongodb.executeQuery query =
    (Throw (Error "Invalid MongoDB query format. Supported operations: find, aggregate"), []) /\
  forall other : string,
    Mongodb.match_collection (Js.trim other) = None ->
    Mongodb.match_find (Js.trim other) = None ->
    Mongodb.executeQuery other = Mongodb.executeQuery query.
Proof.
  intros Hgeneric Hop Hfind.
  assert (Hq : Mongodb.executeQuery query = (Throw Mongodb.invalid_format, [])).
  { apply executeQuery_refused. unfold Mongodb.parse_query. rewrite Hfind, Hgeneric.
    destruct (String.eqb_spec operation "aggregate"); [contradiction|reflexivity]. }
  split; [exact Hq|].
  intros other Hgeneric' Hfind'. rewrite Hq.
  apply executeQuery_refused. unfold Mongodb.parse_query. rewrite Hfind', Hgeneric'. reflexivity.
Qed.

End MongoFacts.

(** ** SQLite and MySQL clients *)

Section SQLiteFacts.
Context {unicode : Unicode} {tables : UnicodeLaws unicode} {driver : BetterSqlite3}.

(** The test of the code, on the trimmed and upper-cased text, is the test
    of the specification, on the text. *)
Lemma returns_rows_spec (query : string) :
  SQLite.returns_rows query = true <-> read_statement query.
Proof.
  unfold SQLite.returns_rows, read_statement. cbv zeta.
  rewrite !orb_true_iff.
  rewrite (reads_trimmed "SELECT" query "S" "ELECT" eq_refl eq_refl).
  rewrite (reads_trimmed "WITH" query "W" "ITH" eq_refl eq_refl).
  rewrite (reads_trimmed "PRAGMA" query "P" "RAGMA" eq_refl eq_refl).
  split.
  - intros [[(ws & body & Hq & Hws & Hr) | (ws & body & Hq & Hws & Hr)]
           | (ws & body & Hq & Hws & Hr)]; exists ws, body; auto.
  - intros (ws & body & Hq & Hws & [Hr | [Hr | Hr]]);
      [left; left | left; right | right]; exists ws, body; auto.
Qed.

(** A keyword written in letters of either case is read as that keyword. *)
Lemma begins_with_reads_as (kw s : string) : begins_with kw s -> reads_as kw s.
Proof.
  revert s. induction kw as [|k kw IH]; intros s Hs; [constructor|].
  destruct s as [|c s]; [destruct Hs|]. destruct Hs as [Hc Hs].
  constructor; [exact Hc | apply IH, Hs].
Qed.


Lemma sqlite_new_has_no_handle (config : SQLiteConfig) : SQLite.db (SQLite.new config) = None.
Proof. reflexivity. Qed.

Lemma sqlite_disconnect_clears_handle (c c' : SQLite.SQLite) :
  SQLite.disconnect c = (Ok tt, c') -> SQLite.db c' = None.
Proof.
  unfold SQLite.disconnect. destruct (SQLite.db c) as [h|] eqn:Hdb.
  - destruct (db_close h); intros Heq; inversion Heq; reflexivity.
  - intros Heq. inversion Heq. subst. exact Hdb.
Qed.

(** A connect that cannot open the file leaves the client as it was. *)
Lemma sqlite_connect_open_failure (c : SQLite.SQLite) (e : JsError) :
  Database_new (filePath (SQLite.config c)) (default false (readonly (SQLite.config c))) = Throw e ->
  snd (SQLite.connect c) = c.
Proof.
  intros Hopen. unfold SQLite.connect.
  destruct (ensure_directory _); [|reflexivity]. rewrite Hopen. reflexivity.
Qed.

End SQLiteFacts.

Section MySQLFacts.
Context {driver : Mysql2}.

Lemma mysql_new_has_no_handle (config : MySQLConfig) :
  MySQL.connection (MySQL.new config) = None.
Proof. reflexivity. Qed.

Lemma mysql_disconnect_clears_handle (c c' : MySQL.MySQL) :
  MySQL.disconnect c = (Ok tt, c') -> MySQL.connection c' = None.
Proof.
  unfold MySQL.disconnect. destruct (MySQL.connection c) as [h|] eqn:Hc.
  - destruct (conn_end h); intros Heq; inversion Heq; reflexivity.
  - intros Heq. inversion Heq. subst. exact Hc.
Qed.

Lemma mysql_connect_open_failure (c : MySQL.MySQL) (e : JsError) :
  createConnection (MySQL.config c) = Throw e ->
  snd (MySQL.connect c) = c.
Proof.
  intros Hopen. unfold MySQL.connect. rewrite Hopen. reflexivity.
Qed.

End MySQLFacts.

Section HandleGuards.
Context {unicode : Unicode} {sqlite : BetterSqlite3} {mysql : Mysql2}.

(** C10, as amended. While the handle of a SQLite or MySQL client is absent
    (on a new client, after a connect that could not open it, after a
    disconnect that cleared it), [executeQuery] and [getSchemaVisualization]
    throw the error "connection not established", touch no handle and leave
    the client as it was: no other outcome is possible. *)
Theorem absent_handle_is_refused (query : string) (s : SQLite.SQLite) (m : MySQL.MySQL) :
  SQLite.db s = None ->
  MySQL.connection m = None ->
  SQLite.executeQuery query s = (Throw (Error "SQLite connection not established"), s) /\
  SQLite.getSchemaVisualization s = (Throw (Error "SQLite connection not established"), s) /\
  MySQL.executeQuery query m = (Throw (Error "MySQL connection not established"), m) /\
  MySQL.getSchemaVisualization m = (Throw (Error "MySQL connection not established"), m).
Proof.
  intros Hs Hm.
  unfold SQLite.executeQuery, SQLite.getSchemaVisualization,
    MySQL.executeQuery, MySQL.getSchemaVisualization.
  rewrite Hs, Hm. repeat split.
Qed.

End HandleGuards.

(** ** More of the credential store *)

Section StoreOperations.

Lemma records_with_id_zero (id : string) (store : SecureStore.Store) :
  records_with_id id store = 0 <->
  forall conn, In conn store -> String.eqb (sc_id conn) id = false.
Proof.
  unfold records_with_id. induction store as [|c rest IH]; cbn.
  - split; [intros _ conn [] | reflexivity].
  - destruct (String.eqb (sc_id c) id) eqn:E; cbn.
    + split; [discriminate|]. intros Hall. specialize (Hall c (or_introl eq_refl)). congruence.
    + rewrite IH. split.
      * intros Hall conn [<- | Hin]; [exact E | apply Hall, Hin].
      * intros Hall conn Hin. apply Hall. right. exact Hin.
Qed.

(** X1. [updateEncryptedConnection] changes names and nothing else: the ids,
    types and ciphertexts stay where they were, every record of the id gets
    the new name, every other record is kept as it is, and for an id that no
    record has the store is unchanged. *)
Theorem updateEncryptedConnection_renames_only (id name : string) (store : SecureStore.Store) :
  List.map sc_id (SecureStore.updateEncryptedConnection id name store) = List.map sc_id store /\
  List.map sc_type (SecureStore.updateEncryptedConnection id name store)
    = List.map sc_type store /\
  List.map sc_encryptedConfig (SecureStore.updateEncryptedConnection id name store)
    = List.map sc_encryptedConfig store /\
  (forall conn, In conn (SecureStore.updateEncryptedConnection id name store) ->
                sc_id conn = id -> sc_name conn = name) /\
  (forall conn, In conn store -> sc_id conn <> id ->
                In conn (SecureStore.updateEncryptedConnection id name store)) /\
  (records_with_id id store = 0 -> SecureStore.updateEncryptedConnection id name store = store).
Proof.
  unfold SecureStore.updateEncryptedConnection, SecureStore.getAllConnections.
  repeat split.
  - induction store as [|c rest IH]; cbn; [reflexivity|].
    rewrite IH. destruct (String.eqb (sc_id c) id); reflexivity.
  - induction store as [|c rest IH]; cbn; [reflexivity|].
    rewrite IH. destruct (String.eqb (sc_id c) id); reflexivity.
  - induction store as [|c rest IH]; cbn; [reflexivity|].
    rewrite IH. destruct (String.eqb (sc_id c) id); reflexivity.
  - intros conn Hin Hid. apply List.in_map_iff in Hin as (c & Hc & _).
    destruct (String.eqb_spec (sc_id c) id) as [_ | Hne].
    + subst conn. reflexivity.
    + subst conn. contradiction.
  - intros conn Hin Hne. apply List.in_map_iff. exists conn. split; [|exact Hin].
    destruct (String.eqb_spec (sc_id conn) id); [contradiction | reflexivity].
  - intros Hnone. rewrite records_with_id_zero in Hnone.
    induction store as [|c rest IH]; cbn; [reflexivity|].
    rewrite (Hnone c (or_introl eq_refl)), IH; [reflexivity|].
    intros conn Hin. apply Hnone. right. exact Hin.
Qed.

(** X2. How deleting and renaming compose: renaming the records of an id and
    then deleting the id is deleting it, deleting and then renaming is
    deleting it too, and a deletion and a renaming of two different ids can be
    done in either order. *)
Theorem delete_and_update_compose (id other name : string) (store : SecureStore.Store) :
  SecureStore.deleteConnection id (SecureStore.updateEncryptedConnection id name store)
    = SecureStore.deleteConnection id store /\
  SecureStore.updateEncryptedConnection id name (SecureStore.deleteConnection id store)
    = SecureStore.deleteConnection id store /\
  (other <> id ->
   SecureStore.deleteConnection other (SecureStore.updateEncryptedConnection id name store)
     = SecureStore.updateEncryptedConnection id name (SecureStore.deleteConnection other store)).
Proof.
  unfold SecureStore.deleteConnection, SecureStore.updateEncryptedConnection,
    SecureStore.getAllConnections.
  repeat split.
  - induction store as [|c rest IH]; cbn; [reflexivity|].
    destruct (String.eqb (sc_id c) id) eqn:E; cbn; rewrite E; cbn; rewrite IH; reflexivity.
  - induction store as [|c rest IH]; cbn; [reflexivity|].
    destruct (String.eqb (sc_id c) id) eqn:E; cbn; [exact IH|].
    rewrite E, IH. reflexivity.
  - intros Hne. induction store as [|c rest IH]; cbn; [reflexivity|].
    destruct (String.eqb (sc_id c) id) eqn:E; cbn.
    + apply String.eqb_eq in E.
      destruct (String.eqb_spec (sc_id c) other) as [Ho | Ho]; [congruence|]. cbn.
      rewrite (proj2 (String.eqb_eq _ _) E), IH. reflexivity.
    + destruct (String.eqb (sc_id c) other); cbn; [exact IH|].
      rewrite E, IH. reflexivity.
Qed.

Context {node : NodeCrypto}.

Lemma find_by_id_app (id : string) (store extra : SecureStore.Store) :
  records_with_id id store <> 0 ->
  List.find (fun conn => String.eqb (sc_id conn) id) (store ++ extra)%list =
  List.find (fun conn => String.eqb (sc_id conn) id) store.
Proof.
  unfold records_with_id. induction store as [|c rest IH]; cbn; [congruence|].
  destruct (String.eqb (sc_id c) id); cbn; [reflexivity | exact IH].
Qed.

Lemma find_by_id_fresh (id : string) (store extra : SecureStore.Store) :
  records_with_id id store = 0 ->
  List.find (fun conn => String.eqb (sc_id conn) id) (store ++ extra)%list =
  List.find (fun conn => String.eqb (sc_id conn) id) extra.
Proof.
  unfold records_with_id. induction store as [|c rest IH]; cbn; [reflexivity|].
  destruct (String.eqb (sc_id c) id); cbn; [discriminate | exact IH].
Qed.

(** X3. The first record of an id is the one that is read: once an id is in
    the store, records put after it, such as a second save under the same
    id, change nothing of what [getDecryptedConnection] returns for the id. *)
Theorem getDecryptedConnection_reads_first_record
    (id encryptionKey : string) (store extra : SecureStore.Store) :
  records_with_id id store <> 0 ->
  SecureStore.getDecryptedConnection id encryptionKey (store ++ extra)%list =
  SecureStore.getDecryptedConnection id encryptionKey store.
Proof.
  intros Hsome. unfold SecureStore.getDecryptedConnection, SecureStore.getAllConnections.
  rewrite (find_by_id_app id store extra Hsome). reflexivity.
Qed.


Context {codec : CodecLaws node} {cipher : CipherLaws node}.

(** X5. What is saved can be read back: after a configuration is saved under
    an id that was not in the store, and under a type that does not name a
    property of the stored record itself, [getDecryptedConnection] with the
    same key returns its id, name and type, with the payload that
    [JSON.parse] reads from the text [JSON.stringify] wrote (a well-formed
    text, as [JSON.stringify] writes them since ECMAScript 2019), in the
    property named by the type. *)
Theorem saved_connection_is_read_back
    (config : ConnectionConfig) (encryptionKey salt iv text : string) (payload : jsval)
    (store : SecureStore.Store) :
  String.length iv = 12 ->
  records_with_id (cfg_id config) store = 0 ->
  SecureStore.own_property (cfg_type config) = false ->
  JSON_stringify (SecureStore.getConfig config (cfg_type config)) = Some text ->
  Js.isWellFormed text = true ->
  JSON_parse text = Ok payload ->
  exists store',
    SecureStore.saveEncryptedConnection config encryptionKey salt iv store = Ok store' /\
    SecureStore.getDecryptedConnection (cfg_id config) encryptionKey store' =
      Ok {| cfg_id := cfg_id config;
            cfg_name := cfg_name config;
            cfg_type := cfg_type config;
            cfg_postgresql :=
              if String.eqb (cfg_type config) POSTGRESQL then Some payload else None;
            cfg_mongodb := if String.eqb (cfg_type config) MONGODB then Some payload else None;
            cfg_mysql := if String.eqb (cfg_type config) MYSQL then Some payload else None;
            cfg_sqlite3 :=
              if String.eqb (cfg_type config) SQLITE3 then Some payload else None |}.
Proof.
  intros Hiv Hfresh _ Htext Hwf Hparse.
  unfold SecureStore.saveEncryptedConnection. rewrite Htext.
  eexists. split; [reflexivity|].
  unfold SecureStore.getDecryptedConnection, SecureStore.getAllConnections.
  rewrite (find_by_id_fresh _ store _ Hfresh). cbn [List.find sc_id].
  rewrite String.eqb_refl. cbn [sc_encryptedConfig].
  rewrite (decrypt_with_same_key text encryptionKey encryptionKey salt iv Hiv Hwf eq_refl).
  rewrite Hparse. reflexivity.
Qed.

End StoreOperations.

(** ** More of the registry of live clients and of the handlers *)

Section RegistryFacts.
Import ErrorHandler.
Context {node : NodeCrypto} {C : Type} `{DatabaseClient C}.

Lemma removeActiveClient_registry (id : string) (w : World C) :
  ACTIVE_CLIENTS (Manager.removeActiveClient id w) = delete id (ACTIVE_CLIENTS w).
Proof.
  unfold Manager.removeActiveClient.
  destruct (ACTIVE_CLIENTS w !! id) as [instance|] eqn:Hlive.
  - destruct (String.eqb (ci_type instance) POSTGRESQL); [|reflexivity].
    destruct (client_disconnect (ci_client instance)). reflexivity.
  - symmetry. apply delete_id. exact Hlive.
Qed.

Lemma removeActiveClient_rest (id : string) (w : World C) :
  connections (Manager.removeActiveClient id w) = connections w /\
  history (Manager.removeActiveClient id w) = history w /\
  maxHistoryItems (Manager.removeActiveClient id w) = maxHistoryItems w /\
  clients_constructed (Manager.removeActiveClient id w) = clients_constructed w.
Proof.
  unfold Manager.removeActiveClient, clients_constructed.
  destruct (ACTIVE_CLIENTS w !! id) as [instance|]; [|auto].
  destruct (String.eqb (ci_type instance) POSTGRESQL).
  - destruct (client_disconnect (ci_client instance)). cbn.
    rewrite !List.filter_app, !List.length_app. cbn. repeat split; lia.
  - cbn. rewrite !List.filter_app, !List.length_app. cbn. repeat split; lia.
Qed.

Lemma removeActiveClient_absent (id : string) (w : World C) :
  ACTIVE_CLIENTS w !! id = None -> Manager.removeActiveClient id w = w.
Proof. unfold Manager.removeActiveClient. intros ->. reflexivity. Qed.

(** X6. [removeActiveClient(id)] takes the entry of the id out of the registry
    and touches nothing else: the other entries, the stored connections and
    the history stay, and without an entry for the id the process state is
    unchanged. [disconnect] is called on the client only when the entry is of
    type postgresql; the client of any other type is dropped still connected. *)
Theorem removeActiveClient_frame (id : string) (w : World C) :
  ACTIVE_CLIENTS (Manager.removeActiveClient id w) !! id = None /\
  (forall other, other <> id ->
     ACTIVE_CLIENTS (Manager.removeActiveClient id w) !! other = ACTIVE_CLIENTS w !! other) /\
  connections (Manager.removeActiveClient id w) = connections w /\
  history (Manager.removeActiveClient id w) = history w /\
  (ACTIVE_CLIENTS w !! id = None -> Manager.removeActiveClient id w = w) /\
  (forall instance, ACTIVE_CLIENTS w !! id = Some instance ->
     effects (Manager.removeActiveClient id w) =
       (effects w
          ++ (if String.eqb (ci_type instance) POSTGRESQL then [DisconnectCalled id] else [])
          ++ [RegistryDelete id])%list).
Proof.
  rewrite removeActiveClient_registry.
  split; [apply lookup_delete_eq|].
  split; [intros other Hne; apply lookup_delete_ne; congruence|].
  split; [apply removeActiveClient_rest|].
  split; [apply removeActiveClient_rest|].
  unfold Manager.removeActiveClient. split.
  - intros ->. reflexivity.
  - intros instance ->.
    destruct (String.eqb (ci_type instance) POSTGRESQL); [|reflexivity].
    destruct (client_disconnect (ci_client instance)). cbn.
    rewrite <- List.app_assoc. reflexivity.
Qed.

Lemma remove_all_registry (ids : list string) (w : World C) :
  let w' := List.fold_left (fun w id => Manager.removeActiveClient id w) ids w in
  (forall id, ACTIVE_CLIENTS w' !! id =
              if List.existsb (String.eqb id) ids then None else ACTIVE_CLIENTS w !! id) /\
  connections w' = connections w /\
  history w' = history w.
Proof.
  revert w. induction ids as [|k ids IH]; intros w; cbn; [auto|].
  destruct (IH (Manager.removeActiveClient k w)) as (Hreg & Hstore & Hhist).
  destruct (removeActiveClient_rest k w) as (Hs & Hh & _).
  split; [|split; congruence].
  intros id. rewrite Hreg, removeActiveClient_registry.
  destruct (String.eqb_spec id k) as [-> | Hne]; cbn.
  - rewrite lookup_delete_eq. destruct (List.existsb _ ids); reflexivity.
  - rewrite lookup_delete_ne by congruence. reflexivity.
Qed.

(** X7. [clearAllClients()] leaves no live entry at all, and keeps the stored
    connections and the history. *)
Theorem clearAllClients_empties_registry (w : World C) :
  ACTIVE_CLIENTS (Manager.clearAllClients w) = ∅ /\
  connections (Manager.clearAllClients w) = connections w /\
  history (Manager.clearAllClients w) = history w.
Proof.
  unfold Manager.clearAllClients.
  destruct (remove_all_registry (List.map fst (map_to_list (ACTIVE_CLIENTS w))) w)
    as (Hreg & Hstore & Hhist).
  split; [|split; assumption].
  apply map_eq. intros id. rewrite Hreg, lookup_empty.
  destruct (List.existsb _ _) eqn:Hin; [reflexivity|].
  destruct (ACTIVE_CLIENTS w !! id) as [instance|] eqn:Hlive; [|reflexivity].
  exfalso. apply elem_of_map_to_list in Hlive.
  assert (Hex : List.existsb (String.eqb id) (List.map fst (map_to_list (ACTIVE_CLIENTS w)))
                = true).
  { apply List.existsb_exists. exists id. split; [|apply String.eqb_refl].
    apply List.in_map_iff. exists (id, instance). split; [reflexivity|].
    apply list_elem_of_In. exact Hlive. }
  congruence.
Qed.

(** X8. [getSchemaVisualization(id, config)] of the manager writes the
    registry only when the client was made, connected and gave its schema:
    then the entry of the id holds the type of the configuration, the new
    client and the schema returned, replacing the entry that was there. A
    failure leaves the registry as it was. The other entries and the stored
    connections are never touched. *)
Theorem manager_getSchemaVisualization_registry
    (id : string) (config : ConnectionConfig) (w : World C) :
  let w' := snd (Manager.getSchemaVisualization id config w) in
  connections w' = connections w /\
  (forall other, other <> id -> ACTIVE_CLIENTS w' !! other = ACTIVE_CLIENTS w !! other) /\
  match fst (Manager.getSchemaVisualization id config w) with
  | Throw _ => ACTIVE_CLIENTS w' = ACTIVE_CLIENTS w
  | Ok tables =>
      clients_constructed w' = S (clients_constructed w) /\
      exists client,
        ACTIVE_CLIENTS w' !! id =
          Some {| ci_type := cfg_type config; ci_client := client; ci_tables := tables |}
  end.
Proof.
  unfold Manager.getSchemaVisualization.
  destruct (Db.createDatabaseClient config) as [client | e]; [|cbn; auto].
  destruct (client_connect client) as [[[] | e] client1]; [|cbn; auto].
  destruct (client_getSchemaVisualization client1) as [[tables | e] client2]; [|cbn; auto].
  cbn. split; [reflexivity|].
  split; [intros other Hne; apply lookup_insert_ne; congruence|].
  split.
  - unfold clients_constructed. cbn. rewrite !List.filter_app, !List.length_app. cbn. lia.
  - exists client2. apply lookup_insert_eq.
Qed.

Lemma respond_database_error_no_success (error : JsError) (context : ErrorContext)
    (data : list (string * jsval)) (msg : option string) :
  Handlers.respond_database_error error context <> Ok (Success data msg).
Proof.
  unfold Handlers.respond_database_error.
  destruct (handleDatabaseError _ _); discriminate.
Qed.

(** X9. CONNECT_DB never writes the credential store and never touches the
    entry of another id; when it does not answer with a success, the registry
    is as it was, and when it answers with a success the id has a live
    entry. *)
Theorem connect_db_frame (id encryptionKey : string) (w : World C) :
  let w' := snd (Handlers.CONNECT_DB id encryptionKey w) in
  connections w' = connections w /\
  history w' = history w /\
  (forall other, other <> id -> ACTIVE_CLIENTS w' !! other = ACTIVE_CLIENTS w !! other) /\
  ((forall data msg, fst (Handlers.CONNECT_DB id encryptionKey w) <> Ok (Success data msg)) ->
   ACTIVE_CLIENTS w' = ACTIVE_CLIENTS w) /\
  (forall data msg, fst (Handlers.CONNECT_DB id encryptionKey w) = Ok (Success data msg) ->
   is_Some (ACTIVE_CLIENTS w' !! id)).
Proof.
  unfold Handlers.CONNECT_DB, Manager.getActiveClient.
  destruct (SecureStore.getDecryptedConnection _ _ _) as [config | e].
  2:{ cbn. repeat split; auto. intros data msg.
      destruct (_ || _); [discriminate|].
      intros Hs. exfalso. exact (respond_database_error_no_success _ _ _ _ Hs). }
  destruct (ACTIVE_CLIENTS w !! id) as [existing|] eqn:Hlive.
  { cbn. rewrite Hlive. repeat split; eauto. }
  unfold Manager.getSchemaVisualization.
  destruct (Db.createDatabaseClient config) as [client | e].
  2:{ cbn. repeat split; auto. intros data msg.
      destruct (_ || _); [discriminate|].
      intros Hs. exfalso. exact (respond_database_error_no_success _ _ _ _ Hs). }
  destruct (client_connect client) as [[[] | e] client1].
  2:{ cbn. repeat split; auto. intros data msg.
      destruct (_ || _); [discriminate|].
      intros Hs. exfalso. exact (respond_database_error_no_success _ _ _ _ Hs). }
  destruct (client_getSchemaVisualization client1) as [[tables | e] client2].
  2:{ cbn. repeat split; auto. intros data msg.
      destruct (_ || _); [discriminate|].
      intros Hs. exfalso. exact (respond_database_error_no_success _ _ _ _ Hs). }
  cbn. split; [reflexivity|]. split; [reflexivity|].
  split; [intros other Hne; apply lookup_insert_ne; congruence|].
  split.
  - intros Hnever. exfalso. exact (Hnever _ _ eq_refl).
  - intros _ _ _. rewrite lookup_insert_eq. eauto.
Qed.

(** X10. DISCONNECT_DB always answers with a success, for an id without a
    live entry too, and doing it twice is doing it once. After it a query on
    the id is refused with the error of code NO_ACTIVE_CONNECTION. *)
Theorem disconnect_db_then_query (id : string) (w : World C) :
  fst (Handlers.DISCONNECT_DB id w) =
    Ok (Success [] (Some "Database disconnected successfully")) /\
  Handlers.DISCONNECT_DB id (snd (Handlers.DISCONNECT_DB id w)) = Handlers.DISCONNECT_DB id w /\
  (forall query elapsed,
     Handlers.RUN_QUERY id query elapsed (snd (Handlers.DISCONNECT_DB id w)) =
       (Ok (Failure "No active database connection found. Please connect to a database first."
              CONNECTION_ERROR (Some (CodeStr "NO_ACTIVE_CONNECTION")) true None),
        snd (Handlers.DISCONNECT_DB id w))).
Proof.
  unfold Handlers.DISCONNECT_DB. cbn [fst snd].
  assert (Hgone : ACTIVE_CLIENTS (Manager.removeActiveClient id w) !! id = None).
  { rewrite removeActiveClient_registry. apply lookup_delete_eq. }
  split; [reflexivity|]. split.
  - rewrite (removeActiveClient_absent id _ Hgone). reflexivity.
  - intros query elapsed. unfold Handlers.RUN_QUERY, Manager.getActiveClient.
    rewrite Hgone. reflexivity.
Qed.

(** X11. TEST_CONNECTION leaves the registry, the stored connections and the
    history as they were, and it answers with a success only when the client
    was made, connected and disconnected without an error. *)
Theorem test_connection_frame (config : ConnectionConfig) (w : World C) :
  let w' := snd (Handlers.TEST_CONNECTION config w) in
  ACTIVE_CLIENTS w' = ACTIVE_CLIENTS w /\
  connections w' = connections w /\
  history w' = history w /\
  (forall data msg,
     fst (Handlers.TEST_CONNECTION config w) = Ok (Success data msg) ->
     exists db db1 db2,
       Db.createDatabaseClient config = Ok db /\
       client_connect db = (Ok tt, db1) /\
       client_disconnect db1 = (Ok tt, db2)).
Proof.
  unfold Handlers.TEST_CONNECTION.
  destruct (Db.createDatabaseClient config) as [db | e].
  2:{ cbn. repeat split. intros data msg Hs.
      exfalso. exact (respond_database_error_no_success _ _ _ _ Hs). }
  destruct (client_connect db) as [[[] | e] db1] eqn:Hc.
  2:{ cbn. repeat split. intros data msg Hs.
      exfalso. exact (respond_database_error_no_success _ _ _ _ Hs). }
  destruct (client_disconnect db1) as [[[] | e] db2] eqn:Hd.
  2:{ cbn. repeat split. intros data msg Hs.
      exfalso. exact (respond_database_error_no_success _ _ _ _ Hs). }
  cbn. split; [reflexivity|]. split; [reflexivity|]. split; [reflexivity|].
  intros _ _ _. exists db, db1, db2. auto.
Qed.

Lemma trim_blank (name : string) :
  String.eqb name "" || (Js.length (Js.trim name) =? 0) = true <-> Js.trim name = "".
Proof.
  split.
  - intros Hb. apply orb_true_iff in Hb as [Hb | Hb].
    + apply String.eqb_eq in Hb. subst name. reflexivity.
    + apply Nat.eqb_eq in Hb. destruct (Js.trim name) as [|c1 r1]; [reflexivity|].
      exfalso. cbn [Js.length] in Hb.
      destruct (Js.code c1 <? 128); [discriminate|].
      destruct r1 as [|c2 r2]; [discriminate|].
      destruct (Js.code c1 <? 224); [discriminate|].
      destruct r2 as [|c3 r3]; [discriminate|].
      destruct (Js.code c1 <? 240); [discriminate|].
      destruct r3 as [|c4 r4]; discriminate.
  - intros ->. apply orb_true_r.
Qed.

(** X12. UPDATE_CONNECTION refuses a name that is empty or nothing but white
    space (the white space of ECMAScript, U+00A0 and U+FEFF among it) with a
    validation error and writes nothing; any other name is stored without
    the white space at its two ends, on every record of the id, and the
    answer is a success, for an id that no record has too. The registry is
    never touched. *)
Theorem update_connection_outcomes (id name : string) (w : World C) :
  (blank name ->
   Handlers.UPDATE_CONNECTION id name w =
     (Ok (Failure "Connection name cannot be empty" VALIDATION_ERROR None false
            (Some "Please provide a valid connection name")), w)) /\
  (~ blank name ->
   fst (Handlers.UPDATE_CONNECTION id name w) =
     Ok (Success [] (Some "Connection updated successfully")) /\
   (exists stored,
      trimmed name stored /\
      connections (snd (Handlers.UPDATE_CONNECTION id name w)) =
        SecureStore.updateEncryptedConnection id stored (connections w)) /\
   ACTIVE_CLIENTS (snd (Handlers.UPDATE_CONNECTION id name w)) = ACTIVE_CLIENTS w).
Proof.
  unfold Handlers.UPDATE_CONNECTION. split.
  - intros Hblank. apply trim_empty, trim_blank in Hblank. rewrite Hblank. reflexivity.
  - intros Hname.
    destruct (String.eqb name "" || (Js.length (Js.trim name) =? 0)) eqn:Hb.
    + apply trim_blank, trim_empty in Hb. contradiction.
    + cbn. split; [reflexivity|]. split; [|reflexivity].
      exists (Js.trim name). split; [apply trim_trimmed | reflexivity].
Qed.

End RegistryFacts.

(** ** Saving, querying and importing *)

Section SaveQueryImport.
Import ErrorHandler.
Context {node : NodeCrypto} {C : Type} `{DatabaseClient C}.

Lemma save_caught_no_success (config : ConnectionConfig) (error : JsError)
    (data : list (string * jsval)) (msg : option string) :
  (if Js.includes (err_message error) "encrypt" || Js.includes (err_message error) "key"
   then Ok (formatErrorResponse
              (handleEncryptionError error
                 (Some [("action", VStr "SAVE_CONNECTION");
                        ("connectionId", VStr (cfg_id config))])))
   else Handlers.respond_database_error error
          [("action", VStr "SAVE_CONNECTION"); ("dbType", VStr (cfg_type config));
           ("connectionId", VStr (cfg_id config))])
  <> Ok (Success data msg).
Proof.
  destruct (_ || _); [discriminate|].
  unfold Handlers.respond_database_error. destruct (handleDatabaseError _ _); discriminate.
Qed.

Lemma saveEncryptedConnection_appends (config : ConnectionConfig)
    (encryptionKey salt iv : string) (store store' : SecureStore.Store) :
  SecureStore.saveEncryptedConnection config encryptionKey salt iv store = Ok store' ->
  exists record,
    store' = (store ++ [record])%list /\
    sc_id record = cfg_id config /\ sc_name record = cfg_name config /\
    sc_type record = cfg_type config.
Proof.
  unfold SecureStore.saveEncryptedConnection, SecureStore.getAllConnections.
  destruct (JSON_stringify _); [|discriminate].
  intros Heq. injection Heq as <-. eexists. repeat split.
Qed.

(** X13. SAVE_CONNECTION never touches the registry or the history: no live
    entry is made for the client it connects to read the schema. The stored
    connections are as before or have one more record at the end, with the
    id, name and type of the configuration, and after a success they have
    that record. *)
Theorem save_connection_frame
    (config : ConnectionConfig) (encryptionKey salt iv : string) (w : World C) :
  let r := Handlers.SAVE_CONNECTION config encryptionKey salt iv w in
  ACTIVE_CLIENTS (snd r) = ACTIVE_CLIENTS w /\
  history (snd r) = history w /\
  (connections (snd r) = connections w \/
   exists record,
     connections (snd r) = (connections w ++ [record])%list /\
     sc_id record = cfg_id config /\ sc_name record = cfg_name config /\
     sc_type record = cfg_type config) /\
  (forall data msg,
     fst r = Ok (Success data msg) ->
     exists record,
       connections (snd r) = (connections w ++ [record])%list /\ sc_id record = cfg_id config).
Proof.
  unfold Handlers.SAVE_CONNECTION.
  destruct (Db.createDatabaseClient config) as [db | e].
  2:{ cbn [fst snd]. split; [reflexivity|]. split; [reflexivity|]. split; [left; reflexivity|].
      intros data msg Hs. exfalso. exact (save_caught_no_success _ _ _ _ Hs). }
  destruct (client_connect db) as [[[] | e] db1].
  2:{ cbn [fst snd]. split; [reflexivity|]. split; [reflexivity|]. split; [left; reflexivity|].
      intros data msg Hs. exfalso. exact (save_caught_no_success _ _ _ _ Hs). }
  destruct (client_getSchemaVisualization db1) as [[tables | e] db2].
  2:{ cbn [fst snd]. split; [reflexivity|]. split; [reflexivity|]. split; [left; reflexivity|].
      intros data msg Hs. exfalso. exact (save_caught_no_success _ _ _ _ Hs). }
  cbn [connections Manager.log_effect].
  destruct (SecureStore.saveEncryptedConnection _ _ _ _ _) as [store | e] eqn:Hsave.
  2:{ cbn [fst snd]. split; [reflexivity|]. split; [reflexivity|]. split; [left; reflexivity|].
      intros data msg Hs. exfalso. exact (save_caught_no_success _ _ _ _ Hs). }
  apply saveEncryptedConnection_appends in Hsave as (record & -> & Hid & Hname & Htype).
  destruct (client_disconnect db2) as [[[] | e] db3]; cbn.
  - split; [reflexivity|]. split; [reflexivity|]. split; [right|]; eauto.
  - split; [reflexivity|]. split; [reflexivity|]. split; [right; eauto|].
    intros data msg Hs. exfalso. exact (save_caught_no_success _ _ _ _ Hs).
Qed.

(** X14. A failure answered by SAVE_CONNECTION does not mean that nothing was
    stored: the record is written before the client is disconnected, so when
    [disconnect] throws the answer is no success and the new record is in the
    store all the same. *)
Theorem save_connection_failed_disconnect
    (config : ConnectionConfig) (encryptionKey salt iv : string) (w : World C)
    (db db1 db2 db3 : C) (tables : jsval) (store : SecureStore.Store) (error : JsError) :
  Db.createDatabaseClient config = Ok db ->
  client_connect db = (Ok tt, db1) ->
  client_getSchemaVisualization db1 = (Ok tables, db2) ->
  SecureStore.saveEncryptedConnection config encryptionKey salt iv (connections w) = Ok store ->
  client_disconnect db2 = (Throw error, db3) ->
  (forall data msg,
     fst (Handlers.SAVE_CONNECTION config encryptionKey salt iv w) <> Ok (Success data msg)) /\
  connections (snd (Handlers.SAVE_CONNECTION config encryptionKey salt iv w)) = store /\
  store <> connections w.
Proof.
  intros Hnew Hconnect Hschema Hsave Hdisconnect.
  unfold Handlers.SAVE_CONNECTION.
  rewrite Hnew, Hconnect, Hschema. cbn [connections Manager.log_effect].
  rewrite Hsave, Hdisconnect. cbn [fst snd].
  split; [intros data msg; apply save_caught_no_success|].
  split; [reflexivity|].
  apply saveEncryptedConnection_appends in Hsave as (record & -> & _).
  intros Heq. apply (f_equal (@List.length _)) in Heq.
  rewrite List.length_app in Heq. cbn in Heq. lia.
Qed.

(** X15. RUN_QUERY on an id with a live entry records every query, failed or
    not, as one history item put first, with the id and the text of the
    query without the white space at its two ends (the white space of
    ECMAScript, U+00A0 and U+FEFF among it). The history is then a beginning
    of the list with the new item first; under a limit that is a natural
    number it is the first that many items, so never longer than the limit.
    The handler constructs no client, keeps the stored connections and the
    other entries, and the entry of the id keeps its type and its cached
    schema. *)
Theorem run_query_on_live_client
    (id query elapsed : string) (w : World C) (instance : ClientInstance C) :
  ACTIVE_CLIENTS w !! id = Some instance ->
  let w' := snd (Handlers.RUN_QUERY id query elapsed w) in
  connections w' = connections w /\
  clients_constructed w' = clients_constructed w /\
  (forall other, other <> id -> ACTIVE_CLIENTS w' !! other = ACTIVE_CLIENTS w !! other) /\
  (exists client,
     ACTIVE_CLIENTS w' !! id =
       Some {| ci_type := ci_type instance; ci_client := client;
               ci_tables := ci_tables instance |}) /\
  (exists item,
     (exists dropped, item :: history w = (history w' ++ dropped)%list) /\
     (forall n : nat, maxHistoryItems w = Finite (Z.of_nat n) 1 ->
        history w' = List.firstn n (item :: history w) /\ List.length (history w') <= n) /\
     h_connectionId item = id /\
     h_query item = Js.trim query /\
     trimmed query (h_query item) /\
     (h_success item = true <->
      exists result, fst (client_executeQuery query (ci_client instance)) = Ok result)).
Proof.
  intros Hlive. unfold Handlers.RUN_QUERY, Manager.getActiveClient. rewrite Hlive.
  destruct (client_executeQuery query (ci_client instance)) as [[result | e] client];
    cbn [snd fst]; unfold Handlers.addToHistory;
    cbn [connections ACTIVE_CLIENTS history maxHistoryItems effects
         Manager.set_clients clients_constructed].
  - split; [reflexivity|]. split; [reflexivity|].
    split; [intros other Hne; apply lookup_insert_ne; congruence|].
    split; [exists client; apply lookup_insert_eq|].
    eexists. split; [apply cut_is_prefix|].
    split.
    { intros n Hn. rewrite Hn, cut_at_limit.
      split; [reflexivity | rewrite List.length_firstn; lia]. }
    cbn. split; [reflexivity|]. split; [reflexivity|]. split; [apply trim_trimmed|].
    split; eauto.
  - split; [reflexivity|]. split; [reflexivity|].
    split; [intros other Hne; apply lookup_insert_ne; congruence|].
    split; [exists client; apply lookup_insert_eq|].
    eexists. split; [apply cut_is_prefix|].
    split.
    { intros n Hn. rewrite Hn, cut_at_limit.
      split; [reflexivity | rewrite List.length_firstn; lia]. }
    cbn. split; [reflexivity|]. split; [reflexivity|]. split; [apply trim_trimmed|].
    split; [discriminate|]. intros [result Hr]. discriminate.
Qed.

Lemma records_with_id_append (id : string) (a b : SecureStore.Store) :
  records_with_id id (a ++ b)%list = records_with_id id a + records_with_id id b.
Proof. unfold records_with_id. rewrite List.filter_app, List.length_app. reflexivity. Qed.

Lemma existsb_ids (id : string) (store : SecureStore.Store) :
  List.existsb (String.eqb id) (List.map sc_id store) = negb (records_with_id id store =? 0).
Proof.
  unfold records_with_id. induction store as [|c rest IH]; cbn; [reflexivity|].
  rewrite IH, (String.eqb_sym id). destruct (String.eqb (sc_id c) id); reflexivity.
Qed.


(** X17. The [switch] over the import strategy has no default case: with a
    strategy that is none of "replace", "merge" and "skip-duplicates" the
    import stores the empty list, so every stored connection is lost, and
    still answers with a success that reports the imported count. *)
Theorem import_unknown_strategy_empties_store
    (strategy : string) (imported : list StoredConnection) (clock : nat -> string)
    (w : World C) :
  strategy <> "replace" -> strategy <> "merge" -> strategy <> "skip-duplicates" ->
  connections (snd (Handlers.IMPORT_CONNECTIONS_validated strategy imported clock w)) = [] /\
  fst (Handlers.IMPORT_CONNECTIONS_validated strategy imported clock w) =
    Ok (Success [("importedCount", VNum (Z.of_nat (List.length imported)));
                 ("totalConnections", VNum 0);
                 ("strategy", VStr strategy)]
          (Some ("Successfully imported " ++ pretty (List.length imported)
                   ++ " connection(s)"))).
Proof.
  intros Hr Hm Hs. unfold Handlers.IMPORT_CONNECTIONS_validated, Handlers.resultConnections.
  destruct (String.eqb_spec strategy "replace"); [contradiction|].
  destruct (String.eqb_spec strategy "merge"); [contradiction|].
  destruct (String.eqb_spec strategy "skip-duplicates"); [contradiction|].
  split; reflexivity.
Qed.

Lemma rename_duplicates_each (imported : list StoredConnection) (clock : nat -> string) :
  forall idMap i,
    List.Forall2 stored_as imported (Handlers.rename_duplicates idMap i imported clock).
Proof.
  induction imported as [|c rest IH]; intros idMap i; cbn; [constructor|].
  destruct (List.existsb _ idMap); constructor; try apply IH.
  - right. eexists. reflexivity.
  - left. reflexivity.
Qed.

(** X18. Import under the strategy "skip-duplicates" skips nothing: every
    imported record is stored, in the order of the file and before the
    existing records, which are all kept; a stored record is the imported one
    or the imported one under the id "<id>-<time>" and the name
    "<name> (Imported)", with the same type and ciphertext. *)
Theorem import_skip_duplicates_keeps_all
    (imported : list StoredConnection) (clock : nat -> string) (w : World C) :
  exists renamed,
    connections (snd (Handlers.IMPORT_CONNECTIONS_validated "skip-duplicates" imported
                        clock w))
      = (renamed ++ connections w)%list /\
    List.Forall2 stored_as imported renamed /\
    List.map sc_encryptedConfig renamed = List.map sc_encryptedConfig imported.
Proof.
  cbn. unfold SecureStore.storeConnections, SecureStore.getAllConnections.
  eexists. split; [reflexivity|]. split; [apply rename_duplicates_each|].
  generalize (List.map sc_id (connections w)) 0.
  induction imported as [|c rest IH]; intros idMap i; cbn; [reflexivity|].
  destruct (List.existsb _ idMap); cbn; rewrite IH; reflexivity.
Qed.

End SaveQueryImport.

(** ** Error translation *)

Section ErrorTranslation.
Import ErrorHandler.

(** X19. [handleDatabaseError] does not survive a numeric error code: the
    test for the PostgreSQL codes calls [startsWith] on the code, so with any
    number other than 0 it throws a TypeError instead of returning an error
    to show, and the branch for the code 18 of a MongoServerError, which
    comes later, is never reached. *)
Theorem handleDatabaseError_numeric_code
    (error : JsError) (n : Z) (context : option ErrorContext) :
  err_code error = Some (CodeNum n) ->
  n <> 0%Z ->
  handleDatabaseError error context = Throw not_a_function.
Proof.
  intros Hcode Hn. unfold handleDatabaseError, code_is. rewrite Hcode. cbn.
  destruct (Z.eqb_spec n 0); [contradiction | reflexivity].
Qed.

(** X20. What [handleDatabaseError] returns, when it returns: the error is of
    one of six types and carries the context given; a connection or timeout
    error is always flagged retryable, an authentication, query or file error
    never; and a timeout error is only made from a message that contains
    "timeout", never from the code ETIMEDOUT, which gives a connection
    error. *)
Theorem handleDatabaseError_classification (error : JsError) (context : option ErrorContext) :
  match handleDatabaseError error context with
  | Throw e => e = not_a_function
  | Ok appError =>
      ErrorHandler.context appError = context /\
      (type appError = CONNECTION_ERROR \/ type appError = TIMEOUT_ERROR ->
       retryable appError = true) /\
      (type appError = AUTHENTICATION_ERROR \/ type appError = QUERY_ERROR \/
       type appError = FILE_ERROR -> retryable appError = false) /\
      (type appError = CONNECTION_ERROR \/ type appError = TIMEOUT_ERROR \/
       type appError = AUTHENTICATION_ERROR \/ type appError = QUERY_ERROR \/
       type appError = FILE_ERROR \/ type appError = DATABASE_ERROR) /\
      (type appError = TIMEOUT_ERROR ->
       Js.includes (err_message error) "timeout" = true /\
       err_code error <> Some (CodeStr "ETIMEDOUT"))
  end.
Proof.
  unfold handleDatabaseError.
  destruct (code_is error "ER_ACCESS_DENIED_ERROR" || code_is error "ER_DBACCESS_DENIED_ERROR").
  { cbn. intuition (discriminate || auto). }
  destruct (code_is error "ER_BAD_DB_ERROR").
  { cbn. intuition (discriminate || auto 7). }
  destruct (code_is error "ECONNREFUSED" || code_is error "ENOTFOUND"
            || code_is error "ETIMEDOUT") eqn:Hnet.
  { cbn. intuition (discriminate || auto). }
  destruct (code_is error "ER_PARSE_ERROR" || code_is error "ER_SYNTAX_ERROR").
  { cbn. intuition (discriminate || auto 7). }
  assert (Hcode : err_code error <> Some (CodeStr "ETIMEDOUT")).
  { intros Hc. unfold code_is in Hnet. rewrite Hc in Hnet. cbn in Hnet. discriminate. }
  assert (Hnot : code_is error "ETIMEDOUT" = false).
  { apply orb_false_iff in Hnet as [_ Ht]. exact Ht. }
  clear Hnet.
  assert (Htail :
    match
      (if Js.includes (err_message error) "SQLITE_"
          && Js.includes (err_message error) "SQLITE_CANTOPEN"
       then Ok (createError FILE_ERROR
                  "Cannot open SQLite database file. Please check the file path and permissions."
                  (Some (err_message error)) (Some (CodeStr "SQLITE_CANTOPEN")) false context)
       else if Js.includes (err_message error) "SQLITE_"
               && Js.includes (err_message error) "SQLITE_LOCKED"
       then Ok (createError DATABASE_ERROR "Database is locked. Please try again later."
                  (Some (err_message error)) (Some (CodeStr "SQLITE_LOCKED")) true context)
       else if String.eqb (err_name error) "MongoServerError"
               && match err_code error with Some (CodeNum 18) => true | _ => false end
       then Ok (createError AUTHENTICATION_ERROR
                  "MongoDB authentication failed. Please check your credentials."
                  (Some (err_message error)) (Some (CodeStr "18")) false context)
       else if Js.includes (err_message error) "timeout" || code_is error "ETIMEDOUT"
       then Ok (createError TIMEOUT_ERROR
                  "Connection timeout. Please check your network connection."
                  (Some (err_message error)) (err_code error) true context)
       else if Js.includes (err_message error) "connect" || code_is error "ECONNREFUSED"
       then Ok (createError CONNECTION_ERROR
                  "Failed to connect to database. Please check your connection settings."
                  (Some (err_message error)) (err_code error) true context)
       else Ok (createError DATABASE_ERROR
                  (nonempty_or (err_message error) "An unexpected database error occurred.")
                  (err_stack error) (err_code error) false context))
    with
    | Throw e => e = not_a_function
    | Ok appError =>
        ErrorHandler.context appError = context /\
        (type appError = CONNECTION_ERROR \/ type appError = TIMEOUT_ERROR ->
         retryable appError = true) /\
        (type appError = AUTHENTICATION_ERROR \/ type appError = QUERY_ERROR \/
         type appError = FILE_ERROR -> retryable appError = false) /\
        (type appError = CONNECTION_ERROR \/ type appError = TIMEOUT_ERROR \/
         type appError = AUTHENTICATION_ERROR \/ type appError = QUERY_ERROR \/
         type appError = FILE_ERROR \/ type appError = DATABASE_ERROR) /\
        (type appError = TIMEOUT_ERROR ->
         Js.includes (err_message error) "timeout" = true /\
         err_code error <> Some (CodeStr "ETIMEDOUT"))
    end).
  { rewrite Hnot, orb_false_r.
    destruct (Js.includes (err_message error) "SQLITE_"
              && Js.includes (err_message error) "SQLITE_CANTOPEN");
      [cbn; intuition (discriminate || auto 7)|].
    destruct (Js.includes (err_message error) "SQLITE_"
              && Js.includes (err_message error) "SQLITE_LOCKED");
      [cbn; intuition (discriminate || auto 7)|].
    destruct (String.eqb (err_name error) "MongoServerError" && _);
      [cbn; intuition (discriminate || auto 7)|].
    destruct (Js.includes (err_message error) "timeout");
      [cbn; intuition (discriminate || auto 7)|].
    destruct (Js.includes (err_message error) "connect" || code_is error "ECONNREFUSED");
      cbn; intuition (discriminate || auto 7). }
  destruct (err_code error) as [[c | n]|] eqn:Hc.
  - destruct (Js.startsWith c "28"); [cbn; intuition (discriminate || auto 7) | exact Htail].
  - destruct (Z.eqb_spec n 0); [exact Htail | reflexivity].
  - exact Htail.
Qed.

End ErrorTranslation.

(** ** The life of an SQLite and of a MySQL client *)

Section SQLiteLifecycle.
Context {unicode : Unicode} {driver : BetterSqlite3}.

(** X21. After a [disconnect] that succeeded, the SQLite client refuses a
    query and a request for the schema with "SQLite connection not
    established", a second [disconnect] does nothing, and the configuration
    is the one it had. While the client is connected a statement never
    costs it its handle, even when the statement fails. *)
Theorem sqlite_lifecycle (c c1 : SQLite.SQLite) :
  SQLite.disconnect c = (Ok tt, c1) ->
  SQLite.config c1 = SQLite.config c /\
  SQLite.disconnect c1 = (Ok tt, c1) /\
  SQLite.getSchemaVisualization c1 = (Throw (Error "SQLite connection not established"), c1) /\
  (forall query,
     SQLite.executeQuery query c1 = (Throw (Error "SQLite connection not established"), c1)) /\
  (forall query, is_Some (SQLite.db c) ->
     is_Some (SQLite.db (snd (SQLite.executeQuery query c))) /\
     SQLite.config (snd (SQLite.executeQuery query c)) = SQLite.config c).
Proof.
  intros Hd.
  assert (Hnone : SQLite.db c1 = None /\ SQLite.config c1 = SQLite.config c).
  { revert Hd. unfold SQLite.disconnect.
    destruct (SQLite.db c) as [h|] eqn:Hdb.
    - destruct (db_close h); [|discriminate]. intros Heq. injection Heq as <-. auto.
    - intros Heq. injection Heq as <-. auto. }
  destruct Hnone as [Hnone Hconfig].
  split; [exact Hconfig|].
  unfold SQLite.disconnect, SQLite.getSchemaVisualization, SQLite.executeQuery.
  rewrite Hnone. repeat split.
  - destruct H as [h ->]. destruct (SQLite.returns_rows query).
    + destruct (stmt_all h query). cbn. eauto.
    + destruct (stmt_run h query). cbn. eauto.
  - destruct H as [h ->]. destruct (SQLite.returns_rows query).
    + destruct (stmt_all h query). reflexivity.
    + destruct (stmt_run h query). reflexivity.
Qed.

(** [connect] of the SQLite client reports every failure, of the
    directory, of the file or of a pragma, as "SQLite connection failed: "
    followed by the message of the cause, and when it succeeds the client has
    a handle; the configuration is never changed. *)
Lemma sqlite_connect_outcomes (c : SQLite.SQLite) :
  SQLite.config (snd (SQLite.connect c)) = SQLite.config c /\
  match fst (SQLite.connect c) with
  | Ok _ => is_Some (SQLite.db (snd (SQLite.connect c)))
  | Throw e =>
      exists cause, e = Error ("SQLite connection failed: " ++ err_message cause)
  end.
Proof.
  unfold SQLite.connect.
  destruct (ensure_directory _) as [[] | e]; [|cbn; eauto].
  destruct (Database_new _ _) as [h | e]; [|cbn; eauto].
  destruct (SQLite.run_pragmas h SQLite.connect_pragmas) as [[[] | e] h']; cbn; eauto.
Qed.

End SQLiteLifecycle.

Section MySQLLifecycle.
Context {driver : Mysql2}.


(** What [executeQuery] of a connected MySQL client returns: the rows
    themselves when the driver gives an array, and otherwise exactly one row
    made from the result header, in which a missing [changedRows] reads 0 and
    a missing or empty [info] reads "Query executed successfully". An error
    of the driver is thrown on as it is. *)
Lemma mysql_executeQuery_shapes (query : string) (c : MySQL.MySQL) (h : Connection) :
  MySQL.connection c = Some h ->
  match fst (conn_execute h query) with
  | Throw e => fst (MySQL.executeQuery query c) = Throw e
  | Ok (VArr rows) => fst (MySQL.executeQuery query c) = Ok rows
  | Ok header =>
      exists changedRows message,
        fst (MySQL.executeQuery query c) =
          Ok [VObj [("affectedRows", get_prop header "affectedRows");
                    ("insertId", get_prop header "insertId");
                    ("changedRows", changedRows);
                    ("message", message)]] /\
        (truthy (get_prop header "changedRows") = false -> changedRows = VNum 0) /\
        (truthy (get_prop header "info") = false ->
         message = VStr "Query executed successfully")
  end.
Proof.
  intros Hc. unfold MySQL.executeQuery. rewrite Hc.
  destruct (conn_execute h query) as [[rows | e] h']; [|reflexivity].
  cbn [fst].
  destruct rows; try reflexivity;
    (eexists _, _; split; [reflexivity|]; unfold or_else; split; intros ->; reflexivity).
Qed.

End MySQLLifecycle.

(** ** The reference instances meet the laws *)

Section ReferenceCodecs.
Import Reference.

Lemma string_ind_by_three (P : string -> Prop) :
  P "" ->
  (forall a, P (String a "")) ->
  (forall a b, P (String a (String b ""))) ->
  (forall a b c r, P r -> P (String a (String b (String c r)))) ->
  forall s, P s.
Proof.
  intros H0 H1 H2 H3 s.
  enough (Hs : P s /\ (forall a, P (String a s)) /\ (forall a b, P (String a (String b s))))
    by apply Hs.
  induction s as [|c r (IH0 & IH1 & IH2)].
  - auto.
  - repeat split; auto.
Qed.

Lemma b64_value_char (m5 m4 m3 m2 m1 m0 : bool) :
  Ascii.eqb (b64_char (sextet m5 m4 m3 m2 m1 m0)) "="%char = false /\
  b64_value (b64_char (sextet m5 m4 m3 m2 m1 m0)) = Some (sextet m5 m4 m3 m2 m1 m0).
Proof.
  destruct m5, m4, m3, m2, m1, m0; split; reflexivity.
Qed.

Lemma sextets_cons (m5 m4 m3 m2 m1 m0 : bool) (r : string) :
  sextets (String (b64_char (sextet m5 m4 m3 m2 m1 m0)) r) =
  sextet m5 m4 m3 m2 m1 m0 :: sextets r.
Proof.
  destruct (b64_value_char m5 m4 m3 m2 m1 m0) as [Hpad Hvalue].
  cbn [sextets]. rewrite Hpad, Hvalue. reflexivity.
Qed.

Lemma decode_encode3 (a b c : ascii) (r : string) :
  base64_decode (encode3 a b c ++ r) = String a (String b (String c (base64_decode r))).
Proof.
  destruct a, b, c. unfold base64_decode. cbv [encode3 String.append].
  rewrite !sextets_cons. reflexivity.
Qed.

Lemma decode_encode2 (a b : ascii) : base64_decode (encode2 a b) = String a (String b "").
Proof.
  destruct a, b. unfold base64_decode. cbv [encode2].
  rewrite !sextets_cons. reflexivity.
Qed.

Lemma decode_encode1 (a : ascii) : base64_decode (encode1 a) = String a "".
Proof.
  destruct a. unfold base64_decode. cbv [encode1].
  rewrite !sextets_cons. reflexivity.
Qed.

Lemma reference_base64_roundtrip (s : string) : base64_decode (base64_encode s) = s.
Proof.
  induction s as [| a | a b | a b c r IH] using string_ind_by_three.
  - reflexivity.
  - apply decode_encode1.
  - apply decode_encode2.
  - cbn [base64_encode]. rewrite decode_encode3, IH. reflexivity.
Qed.

Lemma strip_prefix_app (p s : string) : Js.strip_prefix p (p ++ s) = Some s.
Proof.
  induction p as [|c p IH]; [reflexivity|].
  rewrite append_cons. cbn [Js.strip_prefix]. rewrite Ascii.eqb_refl. exact IH.
Qed.

Lemma read_literal_escape (s rest : string) :
  read_literal (escape s ++ String dquote rest) = Some (s, rest).
Proof.
  induction s as [|c s IH]; cbn [escape].
  - change ("" ++ String dquote rest) with (String dquote rest). reflexivity.
  - destruct (Ascii.eqb c dquote) eqn:Hq; cbn [orb].
    + rewrite !append_cons. cbn [read_literal]. rewrite IH. reflexivity.
    + destruct (Ascii.eqb c backslash) eqn:Hb.
      * rewrite !append_cons. cbn [read_literal]. rewrite IH. reflexivity.
      * rewrite append_cons. cbn [read_literal]. rewrite Hq, Hb, IH. reflexivity.
Qed.

Lemma read_field_stringified (first : bool) (k text rest : string) :
  read_field first k (key_prefix first k ++ escape text ++ String dquote rest)
  = Some (text, rest).
Proof.
  unfold read_field. rewrite strip_prefix_app. apply read_literal_escape.
Qed.

Lemma reference_envelope_roundtrip (env : Envelope) :
  Reference.JSON_parse_envelope (Reference.JSON_stringify_envelope env) = Ok env.
Proof.
  destruct env as [s i t e].
  unfold Reference.JSON_parse_envelope, Reference.JSON_stringify_envelope.
  cbn [salt iv authTag encrypted].
  rewrite !read_field_stringified. reflexivity.
Qed.

Lemma take_pad_length (n : nat) (s : string) : String.length (take_pad n s) = n.
Proof.
  revert s. induction n as [|n IH]; intros s; cbn; [reflexivity|].
  destruct s; cbn; rewrite IH; reflexivity.
Qed.

Lemma xor_strings_length (a b : string) : String.length (xor_strings a b) = String.length a.
Proof.
  revert b. induction a as [|x a IH]; intros b; cbn; [reflexivity|].
  destruct b; cbn; [reflexivity|]. rewrite IH. reflexivity.
Qed.

Lemma length_append_nul (password : string) :
  String.length (password ++ String zero "") = S (String.length password).
Proof.
  induction password as [|c p IH]; [reflexivity|].
  rewrite append_cons. cbn [String.length]. rewrite IH. reflexivity.
Qed.

Lemma append_nul_zeros (password : string) (n : nat) :
  (password ++ String zero "") ++ zeros n = password ++ zeros (S n).
Proof.
  induction password as [|c p IH]; [reflexivity|].
  rewrite !append_cons, IH. reflexivity.
Qed.

Lemma key_block_nul (password : string) :
  String.length password < 64 ->
  key_block (password ++ String zero "") = key_block password.
Proof.
  unfold key_block. intros Hlen. rewrite length_append_nul.
  replace (64 - String.length password) with (S (64 - S (String.length password))) by lia.
  apply append_nul_zeros.
Qed.

Lemma xor_char_twice (c m : ascii) : xor_char (xor_char c m) m = c.
Proof.
  destruct c, m. cbn.
  repeat match goal with
  | |- context [xorb (xorb ?x ?y) ?y] =>
      replace (xorb (xorb x y) y) with x by (destruct x, y; reflexivity)
  end.
  reflexivity.
Qed.

Lemma mask_with_twice (m : ascii) (s : string) : mask_with m (mask_with m s) = s.
Proof.
  induction s as [|c s IH]; cbn; [reflexivity|].
  rewrite xor_char_twice, IH. reflexivity.
Qed.

End ReferenceCodecs.

Lemma reference_codec_laws : CodecLaws Reference.node.
Proof.
  constructor.
  - exact reference_base64_roundtrip.
  - exact reference_envelope_roundtrip.
Qed.

Lemma reference_cipher_laws : CipherLaws Reference.node.
Proof.
  constructor.
  - intros password salt keylen. cbn. unfold Reference.scryptSync.
    rewrite xor_strings_length. apply take_pad_length.
  - intros key iv text _ _. exists "". cbn.
    unfold Reference.decipher_final, Reference.decipher_update, Reference.cipher_text.
    rewrite mask_with_twice, String.eqb_refl. split; [reflexivity|].
    apply append_empty.
Qed.

Lemma reference_scrypt_keying : ScryptKeying Reference.node.
Proof.
  constructor. intros password salt keylen Hlen. cbn. unfold Reference.scryptSync.
  rewrite key_block_nul by exact Hlen. reflexivity.
Qed.

Lemma reference_stringify_laws : StringifyLaws Reference.node.
Proof.
  constructor. intros v Hv. destruct v; try (eexists; reflexivity).
  exfalso. apply Hv. reflexivity.
Qed.

Lemma append_same_length (a b x y : string) :
  String.length a = String.length b -> a ++ x = b ++ y -> a = b.
Proof.
  revert b. induction a as [|c a IH]; intros [|d b] Hlen Heq; try discriminate Hlen.
  - reflexivity.
  - rewrite !append_cons in Heq. injection Heq as -> Heq.
    injection Hlen as Hlen. rewrite (IH b Hlen Heq). reflexivity.
Qed.

Lemma reference_gcm_authentication : GcmAuthentication Reference.node.
Proof.
  constructor. intros key key' iv text Hkey Hkey' _ Hne.
  exists Reference.unable_to_authenticate. cbn.
  unfold Reference.decipher_final, Reference.cipher_getAuthTag.
  match goal with
  | |- context [String.eqb ?a ?b] => destruct (String.eqb_spec a b) as [Heq | _]
  end; [|reflexivity].
  exfalso. apply Hne. symmetry. eapply append_same_length; [|exact Heq]. congruence.
Qed.

Lemma reference_unicode_laws : UnicodeLaws Reference.no_letters_beyond.
Proof. constructor. intros c r Hc _. exists c, r. split; [reflexivity | exact Hc]. Qed.

(** ** The language of the MongoDB interpreter *)

Section StringFacts.

Lemma strip_prefix_Some (p s r : string) : Js.strip_prefix p s = Some r -> s = p ++ r.
Proof.
  revert s. induction p as [|a p IH]; intros s; cbn.
  - intros Heq. injection Heq as ->. reflexivity.
  - destruct s as [|b s]; [discriminate|].
    destruct (Ascii.eqb_spec a b) as [-> | _]; [|discriminate].
    intros Hs. rewrite append_cons, <- (IH s Hs). reflexivity.
Qed.

Lemma strip_last_app (c : ascii) (a : string) : Js.strip_last c (a ++ String c "") = Some a.
Proof.
  induction a as [|x a IH].
  - change (Js.strip_last c (String c "") = Some ""). cbn.
    rewrite Ascii.eqb_refl. reflexivity.
  - rewrite append_cons. destruct a as [|y a].
    + change (option_map (String x) (Js.strip_last c (String c "")) = Some (String x "")).
      cbn. rewrite Ascii.eqb_refl. reflexivity.
    + rewrite append_cons in *.
      change (option_map (String x) (Js.strip_last c (String y (a ++ String c "")))
              = Some (String x (String y a))).
      rewrite IH. reflexivity.
Qed.

Lemma strip_last_Some (c : ascii) (s r : string) :
  Js.strip_last c s = Some r -> s = r ++ String c "".
Proof.
  revert r. induction s as [|x s IH]; intros r; [discriminate|].
  destruct s as [|y s].
  - cbn. destruct (Ascii.eqb_spec x c) as [-> | _]; [|discriminate].
    intros Heq. injection Heq as <-. reflexivity.
  - change (Js.strip_last c (String x (String y s)))
      with (option_map (String x) (Js.strip_last c (String y s))).
    destruct (Js.strip_last c (String y s)) as [r'|]; [|discriminate].
    intros Heq. injection Heq as <-. rewrite append_cons, <- (IH r' eq_refl). reflexivity.
Qed.

Lemma span_word_app (w : string) (x : ascii) (r : string) :
  all_word w = true -> Js.is_word x = false ->
  Js.span_word (w ++ String x r) = (w, String x r).
Proof.
  intros Hw Hx. induction w as [|c w IH].
  - change (Js.span_word (String x r) = ("", String x r)). cbn. rewrite Hx. reflexivity.
  - cbn in Hw. apply andb_true_iff in Hw as [Hc Hw].
    rewrite append_cons. cbn [Js.span_word]. rewrite Hc, (IH Hw). reflexivity.
Qed.

Lemma span_word_Some (s w r : string) :
  Js.span_word s = (w, r) -> s = w ++ r /\ all_word w = true.
Proof.
  revert w r. induction s as [|c s IH]; intros w r; cbn.
  - intros Heq. injection Heq as <- <-. auto.
  - destruct (Js.is_word c) eqn:Hc.
    + destruct (Js.span_word s) as [w' r'].
      intros Heq. injection Heq as <- <-.
      destruct (IH w' r' eq_refl) as [-> Hw]. cbn. rewrite Hc, Hw. auto.
    + intros Heq. injection Heq as <- <-. auto.
Qed.

End StringFacts.

Section MongoLanguage.
Context {driver : MongoDriver}.

Lemma match_find_shape (name args : string) :
  name <> "" -> all_word name = true ->
  Mongodb.match_find ("db." ++ name ++ ".find(" ++ args ++ ")") = Some (name, args).
Proof.
  intros Hne Hw. unfold Mongodb.match_find.
  rewrite strip_prefix_app.
  change (".find(" ++ args ++ ")") with (String "." ("find(" ++ args ++ ")")).
  rewrite (span_word_app name "." _ Hw eq_refl).
  destruct (String.eqb_spec name ""); [contradiction|].
  change (String "." ("find(" ++ args ++ ")")) with (".find(" ++ (args ++ ")")).
  rewrite strip_prefix_app, strip_last_app. reflexivity.
Qed.

Lemma match_find_Some (s name args : string) :
  Mongodb.match_find s = Some (name, args) ->
  s = "db." ++ name ++ ".find(" ++ args ++ ")" /\ name <> "" /\ all_word name = true.
Proof.
  unfold Mongodb.match_find.
  destruct (Js.strip_prefix "db." s) as [rest|] eqn:H1; [|discriminate].
  destruct (Js.span_word rest) as [w rest1] eqn:H2.
  destruct (String.eqb_spec w ""); [discriminate|].
  destruct (Js.strip_prefix ".find(" rest1) as [rest2|] eqn:H3; [|discriminate].
  destruct (Js.strip_last ")" rest2) as [p|] eqn:H4; [|discriminate].
  intros Heq. injection Heq as <- <-.
  apply strip_prefix_Some in H1, H3. apply strip_last_Some in H4.
  apply span_word_Some in H2 as [H2 Hw]. subst. auto.
Qed.

Lemma match_collection_shape (name operation args : string) :
  name <> "" -> all_word name = true -> operation <> "" -> all_word operation = true ->
  Mongodb.match_collection ("db." ++ name ++ "." ++ operation ++ "(" ++ args ++ ")")
    = Some (name, operation, args).
Proof.
  intros Hne Hw Hone How. unfold Mongodb.match_collection.
  rewrite strip_prefix_app.
  change ("." ++ operation ++ "(" ++ args ++ ")")
    with (String "." (operation ++ "(" ++ args ++ ")")).
  rewrite (span_word_app name "." _ Hw eq_refl).
  destruct (String.eqb_spec name ""); [contradiction|].
  cbn [Js.strip_prefix]. cbn.
  change ("(" ++ args ++ ")") with (String "(" (args ++ ")")).
  rewrite (span_word_app operation "(" _ How eq_refl).
  destruct (String.eqb_spec operation ""); [contradiction|].
  cbn. rewrite strip_last_app. reflexivity.
Qed.

Lemma match_collection_Some (s name operation args : string) :
  Mongodb.match_collection s = Some (name, operation, args) ->
  s = "db." ++ name ++ "." ++ operation ++ "(" ++ args ++ ")" /\
  name <> "" /\ all_word name = true.
Proof.
  unfold Mongodb.match_collection.
  destruct (Js.strip_prefix "db." s) as [rest|] eqn:H1; [|discriminate].
  destruct (Js.span_word rest) as [w rest1] eqn:H2.
  destruct (String.eqb_spec w ""); [discriminate|].
  destruct (Js.strip_prefix "." rest1) as [rest2|] eqn:H3; [|discriminate].
  destruct (Js.span_word rest2) as [o rest3] eqn:H4.
  destruct (String.eqb_spec o ""); [discriminate|].
  destruct (Js.strip_prefix "(" rest3) as [rest4|] eqn:H5; [|discriminate].
  destruct (Js.strip_last ")" rest4) as [p|] eqn:H6; [|discriminate].
  intros Heq. injection Heq as <- <- <-.
  apply strip_prefix_Some in H1, H3, H5. apply strip_last_Some in H6.
  apply span_word_Some in H2 as [H2 Hw]. apply span_word_Some in H4 as [H4 _].
  subst. auto.
Qed.

Lemma match_find_not_aggregate (name args : string) :
  all_word name = true ->
  Mongodb.match_find ("db." ++ name ++ ".aggregate(" ++ args ++ ")") = None.
Proof.
  intros Hw. unfold Mongodb.match_find.
  rewrite strip_prefix_app.
  change (".aggregate(" ++ args ++ ")") with (String "." ("aggregate(" ++ args ++ ")")).
  rewrite (span_word_app name "." _ Hw eq_refl).
  destruct (String.eqb name ""); reflexivity.
Qed.

Lemma query_text_ends (name operation args : string) :
  "db." ++ name ++ "." ++ operation ++ "(" ++ args ++ ")" =
  String "d" (("b." ++ name ++ "." ++ operation ++ "(" ++ args) ++ String ")" "").
Proof.
  change ("db." ++ name ++ "." ++ operation ++ "(" ++ args ++ ")")
    with (String "d" ("b." ++ (name ++ ("." ++ (operation ++ ("(" ++ (args ++ ")"))))))).
  rewrite !append_assoc. reflexivity.
Qed.

(** White space around a query text is trimmed away, and nothing else. *)
Lemma trim_query_text (ws ws' name operation args : string) :
  blank ws -> blank ws' ->
  Js.trim (ws ++ ("db." ++ name ++ "." ++ operation ++ "(" ++ args ++ ")") ++ ws')
  = "db." ++ name ++ "." ++ operation ++ "(" ++ args ++ ")".
Proof.
  intros Hws Hws'. rewrite query_text_ends.
  apply trim_fixed_between; try assumption;
    try (apply Nat.ltb_lt; reflexivity); reflexivity.
Qed.

(** X23. The queries the MongoDB interpreter accepts, exactly: the query is
    [db.<name>.find(<args>)] or [db.<name>.aggregate(<args>)], with or
    without white space before and after it (the white space of ECMAScript,
    U+00A0 and U+FEFF among it), with a name of one or more letters, digits
    and underscores, and it is read as that collection, that operation and
    that text of arguments, whatever the text is. Every other query is
    refused. *)
Theorem parse_query_accepts_exactly (query name operation args : string) :
  Mongodb.parse_query query = Ok (name, operation, args) <->
  (exists ws ws',
     query = ws ++ ("db." ++ name ++ "." ++ operation ++ "(" ++ args ++ ")") ++ ws' /\
     blank ws /\ blank ws') /\
  name <> "" /\ all_word name = true /\
  (operation = "find" \/ operation = "aggregate").
Proof.
  split.
  - unfold Mongodb.parse_query.
    destruct (trim_decompose query) as (ws & ws' & Hq & Hws & Hws').
    destruct (Mongodb.match_find (Js.trim query)) as [[n p]|] eqn:Hf.
    + intros Heq. injection Heq as <- <- <-.
      apply match_find_Some in Hf as (Hs & Hne & Hw).
      split; [|auto]. exists ws, ws'. rewrite Hs in Hq. auto.
    + destruct (Mongodb.match_collection (Js.trim query)) as [[[n o] p]|] eqn:Hc;
        [|discriminate].
      destruct (String.eqb_spec o "aggregate") as [-> | _]; [|discriminate].
      intros Heq. injection Heq as <- <- <-.
      apply match_collection_Some in Hc as (Hs & Hne & Hw).
      split; [|auto]. exists ws, ws'. rewrite Hs in Hq. auto.
  - intros ((ws & ws' & Hq & Hws & Hws') & Hne & Hw & Hop).
    unfold Mongodb.parse_query.
    rewrite Hq, (trim_query_text ws ws' name operation args Hws Hws').
    destruct Hop as [-> | ->].
    + change ("db." ++ name ++ "." ++ "find" ++ "(" ++ args ++ ")")
        with ("db." ++ name ++ ".find(" ++ args ++ ")").
      rewrite (match_find_shape name args Hne Hw). reflexivity.
    + change ("db." ++ name ++ "." ++ "aggregate" ++ "(" ++ args ++ ")")
        with ("db." ++ name ++ ".aggregate(" ++ args ++ ")").
      rewrite (match_find_not_aggregate name args Hw).
      change ("db." ++ name ++ ".aggregate(" ++ args ++ ")")
        with ("db." ++ name ++ "." ++ "aggregate" ++ "(" ++ args ++ ")").
      rewrite (match_collection_shape name "aggregate" args Hne Hw); [reflexivity | | ];
        [discriminate | reflexivity].
Qed.

Lemma parse_query_operation (query name operation args : string) :
  Mongodb.parse_query query = Ok (name, operation, args) ->
  operation = "find" \/ operation = "aggregate".
Proof.
  unfold Mongodb.parse_query.
  destruct (Mongodb.match_find (Js.trim query)) as [[n p]|].
  - intros Heq. injection Heq as _ <- _. left. reflexivity.
  - destruct (Mongodb.match_collection (Js.trim query)) as [[[n o] p]|]; [|discriminate].
    destruct (String.eqb_spec o "aggregate") as [-> | _]; [|discriminate].
    intros Heq. injection Heq as _ <- _. right. reflexivity.
Qed.

(** The arguments are evaluated unless they are blank. *)
Lemma arguments_given (args : string) :
  negb (String.eqb args "") && negb (String.eqb (Js.trim args) "") = false <-> blank args.
Proof.
  rewrite <- trim_empty. split.
  - intros Hb. apply andb_false_iff in Hb as [Hb | Hb]; apply negb_false_iff in Hb;
      apply String.eqb_eq in Hb; [subst; reflexivity | exact Hb].
  - intros ->. rewrite String.eqb_refl, andb_false_r. reflexivity.
Qed.

(** X24. What [executeQuery] asks of the MongoDB driver. For a query that
    [parse_query] refuses it throws the error of the refusal and asks
    nothing. For an accepted one it opens the collection; arguments that
    are not blank are evaluated, and when that fails the error is "Invalid
    parameters syntax: " with the message of the cause and no data is asked
    for; otherwise there is one more call, a [find] on the collection for
    the operation find and an [aggregate] for the operation aggregate, and
    its result is the result. The filter of a [find] is the value of the
    arguments unless that is missing or falsy, when it is the empty object;
    the pipeline of an [aggregate] is the value when it is an array, and
    else the array of that one value ([undefined] for blank arguments). *)
Theorem executeQuery_calls (query : string) :
  (forall e, Mongodb.parse_query query = Throw e ->
     Mongodb.executeQuery query = (Throw e, [])) /\
  (forall name operation args,
     Mongodb.parse_query query = Ok (name, operation, args) ->
     (forall cause,
        ~ blank args -> eval_params args = Throw cause ->
        Mongodb.executeQuery query =
          (Throw (Error ("Invalid parameters syntax: " ++ err_message cause)),
           [CallCollection name])) /\
     (forall params,
        (blank args /\ params = VUndefined) \/ (~ blank args /\ eval_params args = Ok params) ->
        (operation = "find" ->
         exists filter,
           Mongodb.executeQuery query =
             (coll_find name filter, [CallCollection name; CallFind name filter]) /\
           truthy filter = true /\
           (truthy params = true -> filter = params) /\
           (truthy params = false -> filter = VObj [])) /\
        (operation = "aggregate" ->
         exists pipeline,
           Mongodb.executeQuery query =
             (coll_aggregate name pipeline,
              [CallCollection name; CallAggregate name pipeline]) /\
           isArray pipeline = true /\
           (isArray params = true -> pipeline = params) /\
           (isArray params = false -> pipeline = VArr [params])))).
Proof.
  unfold Mongodb.executeQuery. split.
  - intros e ->. reflexivity.
  - intros name operation args ->. split.
    + intros cause Hgiven Hcause.
      destruct (negb (String.eqb args "") && negb (String.eqb (Js.trim args) "")) eqn:Hb.
      * rewrite Hcause. reflexivity.
      * exfalso. apply Hgiven, arguments_given, Hb.
    + intros params Hparams.
      assert (Hparsed :
                (if negb (String.eqb args "") && negb (String.eqb (Js.trim args) "")
                 then match eval_params args with
                      | Ok v => Ok v
                      | Throw e =>
                          Throw (Error ("Invalid parameters syntax: " ++ err_message e))
                      end
                 else Ok VUndefined) = Ok params).
      { destruct Hparams as [[Hblank ->] | [Hgiven Hvalue]].
        - apply arguments_given in Hblank. rewrite Hblank. reflexivity.
        - destruct (negb (String.eqb args "") && negb (String.eqb (Js.trim args) ""))
            eqn:Hb.
          + rewrite Hvalue. reflexivity.
          + exfalso. apply Hgiven, arguments_given, Hb. }
      rewrite Hparsed. split.
      * intros ->. cbn. unfold or_else. eexists. split; [reflexivity|].
        destruct (truthy params) eqn:E.
        -- split; [exact E|]. split; [reflexivity | discriminate].
        -- split; [reflexivity|]. split; [discriminate | reflexivity].
      * intros ->. cbn. eexists. split; [reflexivity|].
        destruct (isArray params) eqn:E.
        -- split; [exact E|]. split; [reflexivity | discriminate].
        -- split; [reflexivity|]. split; [discriminate | reflexivity].
Qed.

(** X25. A [find] without arguments, or with nothing but white space between
    the parentheses, asks for every document: the filter is the empty
    object, and nothing is evaluated. *)
Theorem find_without_arguments (name args : string) :
  name <> "" -> all_word name = true -> blank args ->
  Mongodb.executeQuery ("db." ++ name ++ ".find(" ++ args ++ ")") =
    (coll_find name (VObj []), [CallCollection name; CallFind name (VObj [])]).
Proof.
  intros Hne Hw Hblank. unfold Mongodb.executeQuery.
  assert (Hp : Mongodb.parse_query ("db." ++ name ++ ".find(" ++ args ++ ")")
               = Ok (name, "find", args)).
  { pose proof (trim_query_text "" "" name "find" args blank_empty blank_empty) as Ht.
    rewrite append_empty in Ht.
    unfold Mongodb.parse_query.
    change ("db." ++ name ++ ".find(" ++ args ++ ")")
      with ("" ++ "db." ++ name ++ "." ++ "find" ++ "(" ++ args ++ ")").
    rewrite Ht.
    change ("db." ++ name ++ "." ++ "find" ++ "(" ++ args ++ ")")
      with ("db." ++ name ++ ".find(" ++ args ++ ")").
    rewrite (match_find_shape name args Hne Hw). reflexivity. }
  apply arguments_given in Hblank. rewrite Hp, Hblank. reflexivity.
Qed.

End MongoLanguage.

(** ** The query history *)

Section QueryHistoryFacts.

(** X26. [addToHistory] puts the new item first, not bookmarked, under the
    id it returns, and cuts the list: what is kept is a beginning of the
    list. Under a limit that is a natural number the history is the first
    that many items, so never longer than the limit, and with a limit of 0
    the item is dropped at once; under a negative whole limit as many items
    as its size are dropped from the end; under NaN or Infinity nothing is
    dropped. The bookmarks are not touched. *)
Theorem addToHistory_newest_first_and_bounded
    (item : QueryHistory.NewItem) (newId now : string) (st : QueryHistory.Store) :
  let st' := snd (QueryHistory.addToHistory item newId now st) in
  fst (QueryHistory.addToHistory item newId now st) = newId /\
  (exists historyItem,
     (exists dropped,
        historyItem :: QueryHistory.history st = (QueryHistory.history st' ++ dropped)%list) /\
     (forall n : nat,
        QueryHistory.maxHistoryItems st = Finite (Z.of_nat n) 1 ->
        QueryHistory.history st' = List.firstn n (historyItem :: QueryHistory.history st) /\
        List.length (QueryHistory.history st') <= n) /\
     (forall k : positive,
        QueryHistory.maxHistoryItems st = Finite (Z.neg k) 1 ->
        QueryHistory.history st' =
          List.firstn (S (List.length (QueryHistory.history st)) - Pos.to_nat k)
            (historyItem :: QueryHistory.history st)) /\
     (QueryHistory.maxHistoryItems st = NaN \/ QueryHistory.maxHistoryItems st = Infinity ->
      QueryHistory.history st' = historyItem :: QueryHistory.history st) /\
     QueryHistory.qh_id historyItem = newId /\
     QueryHistory.qh_query historyItem = QueryHistory.new_query item /\
     QueryHistory.qh_connectionId historyItem = QueryHistory.new_connectionId item /\
     QueryHistory.qh_isBookmarked historyItem = false) /\
  QueryHistory.bookmarks st' = QueryHistory.bookmarks st.
Proof.
  unfold QueryHistory.addToHistory. cbn [fst snd QueryHistory.set_history
    QueryHistory.history QueryHistory.bookmarks].
  split; [reflexivity|]. split; [|reflexivity].
  eexists. split; [apply cut_is_prefix|].
  split.
  { intros n Hn. rewrite Hn, cut_at_limit.
    split; [reflexivity | rewrite List.length_firstn; lia]. }
  split.
  { intros k Hk. rewrite Hk, cut_from_end. reflexivity. }
  split.
  { intros [Hm | Hm]; rewrite Hm; reflexivity. }
  cbn. auto.
Qed.

Lemma remove_first_length {A} (p : A -> bool) (l : list A) :
  List.existsb p l = true ->
  S (List.length (QueryHistory.remove_first p l)) = List.length l.
Proof.
  induction l as [|x r IH]; cbn; [discriminate|].
  destruct (p x); cbn; [reflexivity|]. intros Hr. rewrite (IH Hr). reflexivity.
Qed.

Lemma remove_first_filter {A} (p q : A -> bool) (l : list A) :
  (forall x, p x = true -> q x = false) ->
  List.filter q (QueryHistory.remove_first p l) = List.filter q l.
Proof.
  intros Hpq. induction l as [|x r IH]; cbn; [reflexivity|].
  destruct (p x) eqn:Hp; cbn.
  - rewrite (Hpq x Hp). reflexivity.
  - rewrite IH. reflexivity.
Qed.

(** X27. [deleteHistoryItem(id)] returns true exactly when some item has the
    id, and then the history is one item shorter; the items of every other
    id are kept, in order. When it returns false the store is unchanged. The
    bookmarks are never touched, so a bookmark made from the item stays. *)
Theorem deleteHistoryItem_outcomes (id : string) (st : QueryHistory.Store) :
  let deleted := fst (QueryHistory.deleteHistoryItem id st) in
  let st' := snd (QueryHistory.deleteHistoryItem id st) in
  (deleted = true <->
   exists item, In item (QueryHistory.history st) /\ QueryHistory.qh_id item = id) /\
  (deleted = true ->
   S (List.length (QueryHistory.history st')) = List.length (QueryHistory.history st)) /\
  (deleted = false -> st' = st) /\
  (forall other, other <> id ->
     List.filter (fun item => String.eqb (QueryHistory.qh_id item) other)
       (QueryHistory.history st') =
     List.filter (fun item => String.eqb (QueryHistory.qh_id item) other)
       (QueryHistory.history st)) /\
  QueryHistory.bookmarks st' = QueryHistory.bookmarks st.
Proof.
  unfold QueryHistory.deleteHistoryItem.
  destruct (List.existsb _ (QueryHistory.history st)) eqn:Hex; cbn.
  - split.
    { split; [|reflexivity]. intros _.
      apply List.existsb_exists in Hex as (item & Hin & Hid).
      apply String.eqb_eq in Hid. eauto. }
    split; [intros _; apply remove_first_length; exact Hex|].
    split; [discriminate|].
    split; [|reflexivity].
    intros other Hne. apply remove_first_filter.
    intros item Hid. apply String.eqb_eq in Hid.
    destruct (String.eqb_spec (QueryHistory.qh_id item) other); congruence.
  - split.
    { split; [discriminate|]. intros (item & Hin & Hid).
      assert (List.existsb (fun item => String.eqb (QueryHistory.qh_id item) id)
                (QueryHistory.history st) = true); [|congruence].
      apply List.existsb_exists. exists item. split; [exact Hin|].
      apply String.eqb_eq. exact Hid. }
    split; [discriminate|]. auto.
Qed.

Lemma filter_filter_same {A} (p : A -> bool) (l : list A) :
  List.filter p (List.filter (fun x => negb (p x)) l) = [].
Proof.
  induction l as [|x r IH]; cbn; [reflexivity|].
  destruct (p x) eqn:Hp; cbn; [exact IH|]. rewrite Hp. exact IH.
Qed.

Lemma filter_filter_other {A} (p q : A -> bool) (l : list A) :
  (forall x, p x = true -> q x = false) ->
  List.filter p (List.filter (fun x => negb (q x)) l) = List.filter p l.
Proof.
  intros Hpq. induction l as [|x r IH]; cbn; [reflexivity|].
  destruct (q x) eqn:Hq; cbn.
  - destruct (p x) eqn:Hp; [|exact IH]. rewrite (Hpq x Hp) in Hq. discriminate.
  - rewrite IH. reflexivity.
Qed.

(** X28. [clearHistory(c)] and [getHistory] together: after the history of a
    connection is cleared, [getHistory] has nothing for that connection and
    what it had for every other one; without an id, or with the empty string
    for it, the whole history goes. The bookmarks stay in every case. *)
Theorem clearHistory_then_getHistory
    (c : string) (limit : option nat) (st : QueryHistory.Store) :
  (c <> "" ->
   QueryHistory.getHistory (Some c) limit (QueryHistory.clearHistory (Some c) st) = [] /\
   forall other, other <> c -> other <> "" ->
     QueryHistory.getHistory (Some other) limit (QueryHistory.clearHistory (Some c) st) =
     QueryHistory.getHistory (Some other) limit st) /\
  QueryHistory.history (QueryHistory.clearHistory None st) = [] /\
  QueryHistory.history (QueryHistory.clearHistory (Some "") st) = [] /\
  QueryHistory.bookmarks (QueryHistory.clearHistory (Some c) st) = QueryHistory.bookmarks st.
Proof.
  split; [|split; [reflexivity|split; [reflexivity|]]].
  - intros Hc. unfold QueryHistory.getHistory, QueryHistory.clearHistory, QueryHistory.given.
    destruct (String.eqb_spec c ""); [contradiction|].
    cbn [QueryHistory.history QueryHistory.set_history]. split.
    + rewrite (filter_filter_same
                 (fun item => String.eqb (QueryHistory.qh_connectionId item) c)).
      destruct limit as [[|k]|]; reflexivity.
    + intros other Hne Ho. destruct (String.eqb_spec other ""); [contradiction|].
      rewrite (filter_filter_other
                 (fun item => String.eqb (QueryHistory.qh_connectionId item) other)
                 (fun item => String.eqb (QueryHistory.qh_connectionId item) c));
        [reflexivity|].
      intros item Hi. apply String.eqb_eq in Hi.
      destruct (String.eqb_spec (QueryHistory.qh_connectionId item) c); congruence.
  - unfold QueryHistory.clearHistory. destruct (QueryHistory.given (Some c)); reflexivity.
Qed.

Lemma In_firstn {A} (n : nat) (l : list A) (x : A) : In x (List.firstn n l) -> In x l.
Proof.
  revert l. induction n as [|n IH]; intros [|y r]; cbn; try tauto.
  intros [-> | Hin]; [left; reflexivity | right; apply IH, Hin].
Qed.

(** What [getHistory] returns: with a connection id, items of that
    connection only, in the order of the history; with a positive limit, at
    most that many. A limit of 0 is no limit, and the empty string for the id
    is no filter. *)
Lemma getHistory_filter_and_limit
    (connectionId : option string) (limit : option nat) (st : QueryHistory.Store) :
  (forall c item,
     connectionId = Some c -> c <> "" ->
     In item (QueryHistory.getHistory connectionId limit st) ->
     QueryHistory.qh_connectionId item = c /\ In item (QueryHistory.history st)) /\
  (forall n, limit = Some (S n) ->
     List.length (QueryHistory.getHistory connectionId limit st) <= S n) /\
  QueryHistory.getHistory connectionId (Some 0) st =
    QueryHistory.getHistory connectionId None st /\
  QueryHistory.getHistory (Some "") limit st = QueryHistory.getHistory None limit st.
Proof.
  split; [|split; [|split; reflexivity]].
  - intros c item -> Hc. unfold QueryHistory.getHistory, QueryHistory.given.
    destruct (String.eqb_spec c ""); [contradiction|].
    intros Hin.
    assert (Hin' : In item
                     (List.filter
                        (fun item => String.eqb (QueryHistory.qh_connectionId item) c)
                        (QueryHistory.history st))).
    { destruct limit as [[|k]|]; [exact Hin | | exact Hin].
      eapply In_firstn, Hin. }
    apply List.filter_In in Hin' as [Hh Hid]. apply String.eqb_eq in Hid. auto.
  - intros n ->. unfold QueryHistory.getHistory.
    rewrite List.length_firstn. lia.
Qed.

Lemma flip_flip (item : QueryHistory.QueryHistoryItem) :
  QueryHistory.flip (QueryHistory.flip item) = item.
Proof. destruct item. unfold QueryHistory.flip. cbn. rewrite negb_involutive. reflexivity. Qed.

Lemma flip_first_twice (id : string) (l : list QueryHistory.QueryHistoryItem) :
  QueryHistory.flip_first id (QueryHistory.flip_first id l) = l.
Proof.
  induction l as [|item r IH]; cbn; [reflexivity|].
  destruct (String.eqb (QueryHistory.qh_id item) id) eqn:Hid; cbn.
  - rewrite Hid, flip_flip. reflexivity.
  - rewrite Hid, IH. reflexivity.
Qed.

Lemma find_flip_first (id : string) (l : list QueryHistory.QueryHistoryItem)
    (item : QueryHistory.QueryHistoryItem) :
  List.find (fun item => String.eqb (QueryHistory.qh_id item) id) l = Some item ->
  List.find (fun item => String.eqb (QueryHistory.qh_id item) id)
    (QueryHistory.flip_first id l) = Some (QueryHistory.flip item).
Proof.
  induction l as [|x r IH]; cbn; [discriminate|].
  destruct (String.eqb (QueryHistory.qh_id x) id) eqn:Hid; cbn.
  - rewrite Hid. intros Heq. injection Heq as ->. reflexivity.
  - rewrite Hid. exact IH.
Qed.

Lemma remove_first_last {A} (p : A -> bool) (l : list A) (x : A) :
  List.existsb p l = false -> p x = true ->
  QueryHistory.remove_first p (l ++ [x])%list = l.
Proof.
  intros Hl Hx. induction l as [|y r IH]; cbn.
  - rewrite Hx. reflexivity.
  - cbn in Hl. apply orb_false_iff in Hl as [Hy Hr]. rewrite Hy, (IH Hr). reflexivity.
Qed.

(** X29. Bookmarking a history item and taking the bookmark back: for an item
    that is not bookmarked, when no bookmark has its id as its own id or as
    the id of its history item, [toggleHistoryBookmark] returns true and then
    false, and after the two calls the store is what it was. *)
Theorem toggleHistoryBookmark_twice
    (historyId newId now day newId' now' day' : string) (st : QueryHistory.Store)
    (historyItem : QueryHistory.QueryHistoryItem) :
  List.find (fun item => String.eqb (QueryHistory.qh_id item) historyId)
    (QueryHistory.history st) = Some historyItem ->
  QueryHistory.qh_isBookmarked historyItem = false ->
  List.existsb (QueryHistory.bookmark_matches historyId) (QueryHistory.bookmarks st) = false ->
  let first := QueryHistory.toggleHistoryBookmark historyId newId now day st in
  fst first = true /\
  QueryHistory.toggleHistoryBookmark historyId newId' now' day' (snd first) = (false, st).
Proof.
  intros Hfind Hflag Hnone.
  assert (Hid : QueryHistory.qh_id historyItem = historyId).
  { apply List.find_some in Hfind as [_ Hid]. apply String.eqb_eq in Hid. exact Hid. }
  pose (bookmark :=
    {| QueryHistory.bm_id := newId;
       QueryHistory.bm_historyId := QueryHistory.qh_id historyItem;
       QueryHistory.bm_name := "Query from " ++ QueryHistory.qh_connectionName historyItem;
       QueryHistory.bm_query := QueryHistory.qh_query historyItem;
       QueryHistory.bm_description := Some ("Bookmarked from history on " ++ day);
       QueryHistory.bm_connectionId := Some (QueryHistory.qh_connectionId historyItem);
       QueryHistory.bm_createdAt := now |}).
  assert (Hfirst :
    QueryHistory.toggleHistoryBookmark historyId newId now day st =
    (true,
     {| QueryHistory.history := QueryHistory.flip_first historyId (QueryHistory.history st);
        QueryHistory.bookmarks := (QueryHistory.bookmarks st ++ [bookmark])%list;
        QueryHistory.maxHistoryItems := QueryHistory.maxHistoryItems st |})).
  { unfold QueryHistory.toggleHistoryBookmark. rewrite Hfind, Hflag. reflexivity. }
  assert (Hnew : QueryHistory.bookmark_matches historyId bookmark = true).
  { unfold QueryHistory.bookmark_matches. cbn. rewrite Hid, String.eqb_refl.
    apply orb_true_r. }
  cbv zeta. rewrite Hfirst. cbn [fst snd]. split; [reflexivity|].
  unfold QueryHistory.toggleHistoryBookmark.
  cbn [QueryHistory.history].
  rewrite (find_flip_first _ _ _ Hfind).
  cbn [QueryHistory.flip QueryHistory.qh_isBookmarked]. rewrite Hflag. cbn [negb].
  unfold QueryHistory.deleteBookmark.
  cbn [QueryHistory.history QueryHistory.bookmarks QueryHistory.set_bookmarks
       QueryHistory.set_history].
  rewrite List.existsb_app, Hnone. cbn [List.existsb orb].
  rewrite Hnew. cbn [orb snd].
  rewrite (remove_first_last _ _ _ Hnone Hnew), flip_first_twice.
  destruct st. reflexivity.
Qed.

Lemma filter_partition_length {A} (p : A -> bool) (l : list A) :
  List.length (List.filter p l) + List.length (List.filter (fun x => negb (p x)) l)
    = List.length l.
Proof.
  induction l as [|x r IH]; cbn; [reflexivity|].
  destruct (p x); cbn; lia.
Qed.

(** The counters of [getStatistics] add up: every query counted is
    counted as successful or as failed and not as both, no more queries are
    counted than the history has, and the recent activity is the first ten
    of the queries counted, or all of them when they are fewer. *)
Lemma getStatistics_counters (connectionId : option string) (st : QueryHistory.Store) :
  let stats := QueryHistory.getStatistics connectionId st in
  QueryHistory.totalQueries stats =
    QueryHistory.successfulQueries stats + QueryHistory.failedQueries stats /\
  QueryHistory.totalQueries stats <= List.length (QueryHistory.history st) /\
  List.length (QueryHistory.recentActivity stats) = Nat.min 10 (QueryHistory.totalQueries stats) /\
  QueryHistory.recentActivity stats =
    List.firstn 10 (QueryHistory.getHistory connectionId None st).
Proof.
  cbn. split; [symmetry; apply filter_partition_length|].
  split; [|split; [apply List.length_firstn | reflexivity]].
  unfold QueryHistory.getHistory. destruct (QueryHistory.given connectionId); [|lia].
  apply List.filter_length_le.
Qed.

End QueryHistoryFacts.

Section HistoryImport.

Lemma identical_refl (t : QueryHistory.Timestamp) : QueryHistory.identical t t = true.
Proof. destruct t; cbn; [apply String.eqb_refl | reflexivity | apply Nat.eqb_refl]. Qed.

Lemma identical_trans (a b c : QueryHistory.Timestamp) :
  QueryHistory.identical a b = true -> QueryHistory.identical b c = true ->
  QueryHistory.identical a c = true.
Proof.
  destruct a, b, c; cbn; try discriminate; try reflexivity.
  - rewrite !String.eqb_eq. congruence.
  - rewrite !Nat.eqb_eq. congruence.
Qed.

Lemma same_entry_refl (a : QueryHistory.QueryHistoryItem) : QueryHistory.same_entry a a = true.
Proof.
  unfold QueryHistory.same_entry. rewrite !String.eqb_refl, identical_refl. reflexivity.
Qed.

Lemma same_entry_spec (a b : QueryHistory.QueryHistoryItem) :
  QueryHistory.same_entry a b = true <->
  QueryHistory.qh_query a = QueryHistory.qh_query b /\
  QueryHistory.qh_connectionId a = QueryHistory.qh_connectionId b /\
  QueryHistory.identical (QueryHistory.qh_timestamp a) (QueryHistory.qh_timestamp b) = true.
Proof.
  unfold QueryHistory.same_entry. rewrite !andb_true_iff, !String.eqb_eq. tauto.
Qed.

Lemma same_entry_trans (a b c : QueryHistory.QueryHistoryItem) :
  QueryHistory.same_entry a b = true -> QueryHistory.same_entry b c = true ->
  QueryHistory.same_entry a c = true.
Proof.
  rewrite !same_entry_spec. intros (-> & -> & Hab) (-> & -> & Hbc).
  split; [reflexivity|]. split; [reflexivity|]. eapply identical_trans; eassumption.
Qed.

(** The store changes nothing of an item whose timestamp is no object. *)
Lemma written_kept (item : QueryHistory.QueryHistoryItem) :
  (forall identity json, QueryHistory.qh_timestamp item <> QueryHistory.DateObject identity json) ->
  QueryHistory.written item = item.
Proof.
  intros Hno. destruct item as [i c n q e t s m r k]. unfold QueryHistory.written. cbn in *.
  destruct t as [text | | identity json]; [reflexivity | reflexivity|].
  exfalso. exact (Hno identity json eq_refl).
Qed.

Lemma findIndex_bound {A} (p : A -> bool) (l : list A) (k : nat) :
  QueryHistory.findIndex p l = Some k -> k < List.length l.
Proof.
  revert k. induction l as [|x r IH]; intros k; cbn; [discriminate|].
  destruct (p x); [intros Heq; injection Heq as <-; lia|].
  destruct (QueryHistory.findIndex p r) as [j|]; [|discriminate].
  intros Heq. injection Heq as <-. specialize (IH j eq_refl). lia.
Qed.

Lemma findIndex_app {A} (p : A -> bool) (pre l : list A) :
  QueryHistory.findIndex p (pre ++ l)%list =
  match QueryHistory.findIndex p pre with
  | Some k => Some k
  | None => option_map (Nat.add (List.length pre)) (QueryHistory.findIndex p l)
  end.
Proof.
  induction pre as [|x r IH]; cbn.
  - destruct (QueryHistory.findIndex p l); reflexivity.
  - destruct (p x); [reflexivity|]. rewrite IH.
    destruct (QueryHistory.findIndex p r); [reflexivity|].
    destruct (QueryHistory.findIndex p l); reflexivity.
Qed.

Lemma findIndex_existsb {A} (p : A -> bool) (l : list A) :
  QueryHistory.findIndex p l = None <-> List.existsb p l = false.
Proof.
  induction l as [|x r IH]; cbn; [tauto|].
  destruct (p x); cbn; [split; discriminate|].
  rewrite <- IH. destruct (QueryHistory.findIndex p r); cbn; split; congruence.
Qed.

(** The test of the filter of [importData], at the place of [item]. *)
Lemma first_copy_test (pre r : list QueryHistory.QueryHistoryItem)
    (item : QueryHistory.QueryHistoryItem) :
  match QueryHistory.findIndex (fun i => QueryHistory.same_entry i item)
          (pre ++ item :: r)%list with
  | Some k => k =? List.length pre
  | None => false
  end = negb (List.existsb (fun i => QueryHistory.same_entry i item) pre).
Proof.
  rewrite findIndex_app.
  destruct (QueryHistory.findIndex _ pre) as [k|] eqn:Hk.
  - pose proof (findIndex_bound _ _ _ Hk) as Hlt.
    destruct (List.existsb _ pre) eqn:Hex.
    + cbn. apply Nat.eqb_neq. lia.
    + apply findIndex_existsb in Hex. congruence.
  - apply findIndex_existsb in Hk. rewrite Hk. cbn. rewrite same_entry_refl. cbn.
    apply Nat.eqb_eq. lia.
Qed.

Lemma filter_indexed_first_copies (merged : list QueryHistory.QueryHistoryItem) :
  forall suf pre,
    merged = (pre ++ suf)%list ->
    QueryHistory.filter_indexed
      (fun item index =>
         match QueryHistory.findIndex (fun i => QueryHistory.same_entry i item) merged with
         | Some k => k =? index
         | None => false
         end)
      (List.length pre) suf = first_copies pre suf.
Proof.
  induction suf as [|x r IH]; intros pre Hm; cbn; [reflexivity|].
  assert (Hm' : merged = ((pre ++ [x]) ++ r)%list) by (rewrite <- List.app_assoc; exact Hm).
  specialize (IH (pre ++ [x])%list Hm').
  rewrite List.length_app, Nat.add_1_r in IH. rewrite IH.
  rewrite Hm at 1. rewrite first_copy_test.
  destruct (List.existsb _ pre); reflexivity.
Qed.

Lemma first_copies_sub (suf pre : list QueryHistory.QueryHistoryItem)
    (item : QueryHistory.QueryHistoryItem) :
  In item (first_copies pre suf) -> In item suf.
Proof.
  revert pre. induction suf as [|x r IH]; intros pre; cbn; [tauto|].
  destruct (List.existsb _ pre); cbn.
  - intros Hin. right. exact (IH _ Hin).
  - intros [-> | Hin]; [left; reflexivity | right; exact (IH _ Hin)].
Qed.

Lemma first_copies_cover (suf : list QueryHistory.QueryHistoryItem) :
  forall pre item,
    In item suf ->
    (exists kept, In kept (first_copies pre suf) /\ QueryHistory.same_entry kept item = true) \/
    (exists seen, In seen pre /\ QueryHistory.same_entry seen item = true).
Proof.
  induction suf as [|x r IH]; intros pre item; cbn; [tauto|].
  intros [-> | Hin].
  - destruct (List.existsb _ pre) eqn:Hex.
    + right. apply List.existsb_exists in Hex. exact Hex.
    + left. exists item. split; [left; reflexivity | apply same_entry_refl].
  - destruct (IH (pre ++ [x])%list item Hin) as [(kept & Hk & Hs) | (seen & Hseen & Hs)].
    + left. exists kept. split; [|exact Hs].
      destruct (List.existsb _ pre); [exact Hk | right; exact Hk].
    + apply List.in_app_or in Hseen as [Hpre | [<- | []]].
      * right. eauto.
      * destruct (List.existsb _ pre) eqn:Hex.
        -- right. apply List.existsb_exists in Hex as (seen' & Hin' & Hs').
           exists seen'. split; [exact Hin' | eapply same_entry_trans; eassumption].
        -- left. exists x. split; [left; reflexivity | exact Hs].
Qed.

Lemma first_copies_distinct (suf : list QueryHistory.QueryHistoryItem) :
  forall pre,
    (forall kept seen, In kept (first_copies pre suf) -> In seen pre ->
       QueryHistory.same_entry seen kept = false) /\
    List.ForallOrdPairs (fun a b => QueryHistory.same_entry a b = false) (first_copies pre suf).
Proof.
  induction suf as [|x r IH]; intros pre; cbn.
  - split; [tauto | constructor].
  - destruct (IH (pre ++ [x])%list) as [Hseen Hpairs].
    destruct (List.existsb _ pre) eqn:Hex.
    + split; [|exact Hpairs].
      intros kept seen Hk Hs. apply Hseen; [exact Hk|]. apply List.in_or_app. left. exact Hs.
    + split.
      * intros kept seen [<- | Hk] Hs.
        -- destruct (QueryHistory.same_entry seen x) eqn:E; [|reflexivity].
           assert (List.existsb (fun i => QueryHistory.same_entry i x) pre = true);
             [|congruence].
           apply List.existsb_exists. eauto.
        -- apply Hseen; [exact Hk|]. apply List.in_or_app. left. exact Hs.
      * constructor; [|exact Hpairs].
        apply List.Forall_forall. intros kept Hk.
        apply Hseen; [exact Hk|]. apply List.in_or_app. right. left. reflexivity.
Qed.


End HistoryImport.

(** * Closed examples

    The theorems above, run on the reference instances. *)

Section ClosedExamples.
Import Examples.
#[local] Existing Instance Reference.counting_client.





Lemma connect_reuses_live_client_witness :
  ACTIVE_CLIENTS connected !! "c1" = Some live_entry /\
  snd (Handlers.CONNECT_DB (node := Reference.node) "c1" "k1" connected) = connected /\
  fst (Handlers.CONNECT_DB (node := Reference.node) "c1" "k1" connected) =
    Ok (ErrorHandler.Success [("tables", Reference.users_schema)] None).
Proof.
  assert (Hlive : ACTIVE_CLIENTS connected !! "c1" = Some live_entry) by (vm_compute; reflexivity).
  destruct (connect_reuses_live_client (node := Reference.node) "c1" "k1" connected live_entry Hlive)
    as (Hsame & _ & Hschema & _ & Harray).
  split; [exact Hlive|]. split; [exact Hsame|].
  rewrite (Hschema (SecureStore.with_payload
                      {| sc_id := "c1"; sc_name := "shop"; sc_type := MONGODB;
                         sc_encryptedConfig := "" |}
                      (VStr "mongodb://localhost:27017/shop"))).
  - rewrite Harray; reflexivity.
  - vm_compute. reflexivity.
Defined.

(** C3, the claim as written fails: [c1] has a live entry, and the connect
    path answers with a failure, not with the cached schema, when the key
    does not decrypt the stored record or when the record is gone (as after
    an import that replaced the stored list). *)
Lemma connect_with_live_client_can_fail :
  ACTIVE_CLIENTS connected !! "c1" = Some live_entry /\
  fst (Handlers.CONNECT_DB (node := Reference.node) "c1" "k2" connected) =
    Ok (ErrorHandler.Failure
          "Failed to encrypt/decrypt data. Please check your encryption key."
          ErrorHandler.ENCRYPTION_ERROR None false
          (Some "Failed to decrypt configuration. Wrong encryption key?")) /\
  fst (Handlers.CONNECT_DB (node := Reference.node) "c1" "k1"
         {| ACTIVE_CLIENTS := ACTIVE_CLIENTS connected; connections := [];
            history := []; maxHistoryItems := Finite 1000 1; effects := effects connected |}) =
    Ok (ErrorHandler.Failure "Connection not found: c1"
          ErrorHandler.DATABASE_ERROR None false None).
Proof.
  repeat split; vm_compute; reflexivity.
Qed.

(** C4, the claim as written fails: for a type outside [DbType],
    [saveEncryptedConnection] does not fail; it stores a record whose
    ciphertext is that of the JSON text [null]. *)
Lemma unrecognized_type_is_stored :
  ~ recognized (cfg_type oracle) /\
  SecureStore.saveEncryptedConnection (node := Reference.node) oracle "k1" salt0 iv0 saved =
    Ok (saved ++
        [ {| sc_id := "c9"; sc_name := "legacy"; sc_type := "oracle";
             sc_encryptedConfig :=
               Crypto.encrypt (node := Reference.node) "null" "k1" salt0 iv0 |} ])%list.
Proof.
  split.
  - unfold recognized. cbn. intuition discriminate.
  - reflexivity.
Qed.

Lemma unsupported_operation_refused_witness :
  Mongodb.executeQuery (driver := Reference.empty_mongo) "db.users.deleteMany({})" =
    (Throw (Error "Invalid MongoDB query format. Supported operations: find, aggregate"), []).
Proof.
  assert (Hop : "deleteMany" <> "aggregate") by discriminate.
  destruct (unsupported_operation_refused (driver := Reference.empty_mongo)
              "db.users.deleteMany({})" "users" "deleteMany" "{}" eq_refl Hop eq_refl)
    as [Hrefused _].
  exact Hrefused.
Defined.

(** C5, the claim as written fails: the call of an unsupported method and a
    text that matches neither pattern are refused with one and the same
    error. *)
Lemma unsupported_operation_error_not_distinct :
  Mongodb.match_collection (Js.trim "db.users.deleteMany({})") =
    Some ("users", "deleteMany", "{}") /\
  Mongodb.match_collection (Js.trim "show collections") = None /\
  Mongodb.match_find (Js.trim "show collections") = None /\
  fst (Mongodb.executeQuery (driver := Reference.empty_mongo) "db.users.deleteMany({})") =
  fst (Mongodb.executeQuery (driver := Reference.empty_mongo) "show collections").
Proof.
  repeat split.
Qed.



(** A byte order mark is white space to [trim]: the statement after it is
    read. *)
Example marked_select_is_read :
  SQLite.returns_rows (unicode := Reference.no_letters_beyond) marked_select = true.
Proof. reflexivity. Qed.


Lemma run_query_without_live_client_witness :
  Handlers.RUN_QUERY (H := Reference.counting_client) "c1" "select 1" "0.10" started =
    (Ok (ErrorHandler.Failure
           "No active database connection found. Please connect to a database first."
           ErrorHandler.CONNECTION_ERROR (Some (CodeStr "NO_ACTIVE_CONNECTION")) true None),
     started).
Proof.
  apply (run_query_without_live_client (H := Reference.counting_client)
           "c1" "select 1" "0.10" started).
  reflexivity.
Defined.

Lemma saveEncrypted_appends_one_record_witness :
  exists record,
    SecureStore.saveEncryptedConnection (node := Reference.node) shop "k1" salt0 iv0 saved =
      Ok [ {| sc_id := "c1"; sc_name := "shop"; sc_type := MONGODB;
              sc_encryptedConfig := sc_encryptedConfig record |}; record ] /\
    records_with_id "c1" (saved ++ [record])%list = 2.
Proof.
  assert (Hp : payload_present shop).
  { intros payload Hm. inversion Hm as [Ht | Ht | Ht | Ht]; try discriminate Ht.
    discriminate. }
  destruct (saveEncrypted_appends_one_record (laws := reference_stringify_laws)
              shop "k1" salt0 iv0 saved Hp) as (record & Hsave & _ & _ & _ & Hcount & _).
  exists record. split; [|exact Hcount].
  rewrite Hsave. vm_compute in Hsave. injection Hsave as <-. reflexivity.
Defined.

Lemma absent_handle_is_refused_witness :
  SQLite.executeQuery (unicode := Reference.no_letters_beyond)
    (driver := Reference.memory_sqlite) "select 1" (SQLite.new notes) =
    (Throw (Error "SQLite connection not established"), SQLite.new notes) /\
  MySQL.executeQuery (driver := Reference.memory_mysql) "select 1" (MySQL.new local_mysql) =
    (Throw (Error "MySQL connection not established"), MySQL.new local_mysql).
Proof.
  destruct (absent_handle_is_refused (unicode := Reference.no_letters_beyond)
              (sqlite := Reference.memory_sqlite)
              (mysql := Reference.memory_mysql) "select 1"
              (SQLite.new notes) (MySQL.new local_mysql) eq_refl eq_refl)
    as (Hs & _ & Hm & _).
  split; [exact Hs | exact Hm].
Defined.

(** C10, the claim as written fails: a connect that opens the file and then
    fails on the first pragma ends with an exception and leaves the handle in
    place; no connect has succeeded, and [executeQuery] and
    [getSchemaVisualization] go to the driver instead of throwing
    "connection not established". *)
Lemma failed_connect_keeps_handle :
  let c := SQLite.new (driver := Reference.not_a_database) notes in
  fst (SQLite.connect c) = Throw (Error "SQLite connection failed: file is not a database") /\
  SQLite.db (snd (SQLite.connect c)) = Some tt /\
  fst (SQLite.executeQuery (unicode := Reference.no_letters_beyond) "select 1"
         (snd (SQLite.connect c))) =
    Throw (Error "file is not a database") /\
  fst (SQLite.getSchemaVisualization (snd (SQLite.connect c))) =
    Throw (Error "file is not a database") /\
  Error "file is not a database" <> Error "SQLite connection not established".
Proof.
  cbv zeta. repeat split. discriminate.
Qed.

(** [saved] is what saving [shop] into an empty store leaves. *)
Example saved_by_saveEncryptedConnection :
  SecureStore.saveEncryptedConnection (node := Reference.node) shop "k1" salt0 iv0 [] = Ok saved.
Proof. reflexivity. Qed.

(** The interpreter on the two supported calls. *)
Example mongo_find_without_filter :
  Mongodb.executeQuery (driver := Reference.empty_mongo) "db.users.find()" =
    (Ok [], [CallCollection "users"; CallFind "users" (VObj [])]).
Proof. reflexivity. Qed.

Example mongo_aggregate_single_stage :
  Mongodb.executeQuery (driver := Reference.empty_mongo) "db.orders.aggregate({})" =
    (Ok [], [CallCollection "orders"; CallAggregate "orders" (VArr [VObj []])]).
Proof. reflexivity. Qed.

(** The code units of a text: U+1F600 is two of them, and a cut between
    the two leaves the first, U+D83D. *)
Example code_units :
  Js.length (Js.bytes [240; 159; 152; 128]) = 2 /\
  Js.substring_to 1 (Js.bytes [240; 159; 152; 128]) = Js.bytes [237; 160; 189] /\
  Js.substring_to 2 (Js.bytes [97; 195; 169; 98]) = Js.bytes [97; 195; 169].
Proof. repeat split. Qed.

(** The test vectors of RFC 4648, section 10. *)
Example base64_test_vectors :
  Reference.base64_encode "f" = "Zg==" /\
  Reference.base64_encode "fo" = "Zm8=" /\
  Reference.base64_encode "foo" = "Zm9v" /\
  Reference.base64_encode "foobar" = "Zm9vYmFy" /\
  Reference.base64_decode "Zm9vYmFy" = "foobar".
Proof. repeat split. Qed.

End ClosedExamples.

(** * More closed examples *)

Section MoreClosedExamples.
Import Examples.

Lemma getDecryptedConnection_reads_first_record_witness :
  SecureStore.getDecryptedConnection (node := Reference.node) "c1" "k1" (saved ++ [shadow])%list =
  SecureStore.getDecryptedConnection (node := Reference.node) "c1" "k1" saved.
Proof.
  apply (getDecryptedConnection_reads_first_record (node := Reference.node)
           "c1" "k1" saved [shadow]).
  cbn. discriminate.
Defined.

Lemma saved_connection_is_read_back_witness :
  exists store',
    SecureStore.saveEncryptedConnection (node := Reference.node) shop "k1" salt0 iv0 [] =
      Ok store' /\
    SecureStore.getDecryptedConnection (node := Reference.node) "c1" "k1" store' = Ok shop.
Proof.
  exact (saved_connection_is_read_back (codec := reference_codec_laws)
           (cipher := reference_cipher_laws)
           shop "k1" salt0 iv0
           (Reference.stringify (VStr "mongodb://localhost:27017/shop"))
           (VStr "mongodb://localhost:27017/shop") []
           eq_refl eq_refl eq_refl eq_refl eq_refl eq_refl).
Defined.

Lemma save_connection_failed_disconnect_witness :
  connections
    (snd (Handlers.SAVE_CONNECTION (node := Reference.node) (H := Reference.hanging_client)
            shop "k1" salt0 iv0 started)) = (saved ++ saved)%list.
Proof.
  destruct (save_connection_failed_disconnect (node := Reference.node)
              (H := Reference.hanging_client) shop "k1" salt0 iv0 started
              0 0 0 0 Reference.users_schema (saved ++ saved)%list (Error "socket hang up")
              eq_refl eq_refl eq_refl eq_refl eq_refl) as (_ & Hstore & _).
  exact Hstore.
Defined.

Lemma run_query_on_live_client_witness :
  let w' := snd (Handlers.RUN_QUERY (H := Reference.counting_client)
                   "c1" "  db.users.find({})" "0.10" connected) in
  connections w' = connections connected /\
  clients_constructed w' = clients_constructed connected /\
  (exists item, List.firstn 1 (history w') = [item] /\ h_query item = "db.users.find({})") /\
  List.length (history w') <= 1000.
Proof.
  assert (Hlive : ACTIVE_CLIENTS connected !! "c1" = Some live_entry) by (vm_compute; reflexivity).
  pose proof (run_query_on_live_client (H := Reference.counting_client)
                "c1" "  db.users.find({})" "0.10" connected live_entry Hlive) as Hrun.
  cbv zeta in Hrun.
  destruct Hrun as (Hstore & Hmade & _ & _ & item & _ & Hlimit & _ & Hquery & _).
  destruct (Hlimit 1000 eq_refl) as [Hhistory Hbound].
  cbv zeta. split; [exact Hstore|]. split; [exact Hmade|]. split; [|exact Hbound].
  exists item. split; [rewrite Hhistory; reflexivity | rewrite Hquery; reflexivity].
Defined.

Lemma import_unknown_strategy_empties_store_witness :
  connections
    (snd (Handlers.IMPORT_CONNECTIONS_validated (C := nat) "overwrite" [shadow]
            (fun _ => "1735689600000") started)) = [].
Proof.
  destruct (import_unknown_strategy_empties_store (C := nat) "overwrite" [shadow]
              (fun _ => "1735689600000") started) as [Hempty _];
    [discriminate | discriminate | discriminate | exact Hempty].
Defined.

Lemma handleDatabaseError_numeric_code_witness :
  ErrorHandler.handleDatabaseError authentication_failed None =
    Throw ErrorHandler.not_a_function.
Proof.
  apply (handleDatabaseError_numeric_code authentication_failed 18 None);
    [reflexivity | discriminate].
Defined.

Lemma sqlite_lifecycle_witness :
  SQLite.executeQuery (unicode := Reference.no_letters_beyond)
    (driver := Reference.memory_sqlite) "select 1" (SQLite.new notes) =
    (Throw (Error "SQLite connection not established"), SQLite.new notes).
Proof.
  destruct (sqlite_lifecycle (unicode := Reference.no_letters_beyond)
              (driver := Reference.memory_sqlite)
              (snd (SQLite.connect (driver := Reference.memory_sqlite) (SQLite.new notes)))
              (SQLite.new notes) eq_refl) as (_ & _ & _ & Hquery & _).
  exact (Hquery "select 1").
Defined.

Lemma find_without_arguments_witness :
  Mongodb.executeQuery (driver := Reference.empty_mongo) "db.users.find(  )" =
    (Ok [], [CallCollection "users"; CallFind "users" (VObj [])]).
Proof.
  apply (find_without_arguments (driver := Reference.empty_mongo) "users" "  ");
    [discriminate | reflexivity |].
  apply (blank_more " " " "); [repeat (first [left; reflexivity | right])|].
  apply (blank_more " " ""); [repeat (first [left; reflexivity | right]) | constructor].
Defined.

Lemma toggleHistoryBookmark_twice_witness :
  QueryHistory.toggleHistoryBookmark "h1" "b2" "2025-01-03T00:00:00.000Z" "1/1/2025"
    (snd (QueryHistory.toggleHistoryBookmark "h1" "b1" "2025-01-02T00:00:00.000Z" "1/1/2025"
            one_query))
  = (false, one_query).
Proof.
  pose proof (toggleHistoryBookmark_twice "h1" "b1" "2025-01-02T00:00:00.000Z" "1/1/2025"
                "b2" "2025-01-03T00:00:00.000Z" "1/1/2025" one_query _
                eq_refl eq_refl eq_refl) as Htwice.
  cbv zeta in Htwice. destruct Htwice as [_ Hback]. exact Hback.
Defined.

End MoreClosedExamples.
